(** * nslcd: the LDAP local connection daemon (nslcd.c)

    A shallow embedding of the daemon's process lifecycle: command line,
    PID file, privilege drop, signal bridge, accept loop and dispatch.
    The C code runs against the operating system; here the operating
    system is an explicit part of the state (the answers it will give to
    the next calls, the signals it delivers, the files it holds) and every
    call the program makes is recorded in a chronological trace. *)

From Stdlib Require Import ZArith List String Ascii Bool Lia Arith.
From Stdlib Require Import DecimalString DecimalZ.
From Stdlib Require Import RelationClasses Relation_Definitions.
Import ListNotations.

Open Scope string_scope.
Open Scope list_scope.
Open Scope Z_scope.

(* ================================================================= *)
(** ** Platform constants *)

(** The daemon reads the peer of a local socket with SO_PEERCRED into a
    struct ucred, so the platform is Linux; the numbers below are the ones
    of its <signal.h>, <errno.h> and <fcntl.h>. *)
Module Linux.
Definition SIGHUP := 1.
Definition SIGINT := 2.
Definition SIGQUIT := 3.
Definition SIGILL := 4.
Definition SIGTRAP := 5.
Definition SIGABRT := 6.
Definition SIGBUS := 7.
Definition SIGFPE := 8.
Definition SIGKILL := 9.
Definition SIGUSR1 := 10.
Definition SIGSEGV := 11.
Definition SIGUSR2 := 12.
Definition SIGPIPE := 13.
Definition SIGALRM := 14.
Definition SIGTERM := 15.
Definition SIGCHLD := 17.
Definition SIGCONT := 18.
Definition SIGSTOP := 19.
Definition SIGTSTP := 20.
Definition SIGTTIN := 21.
Definition SIGTTOU := 22.
Definition SIGURG := 23.
Definition SIGXCPU := 24.
Definition SIGXFSZ := 25.
Definition SIGVTALRM := 26.
Definition SIGPROF := 27.
Definition SIGPOLL := 29.
Definition SIGSYS := 31.

Definition EINTR := 4.
Definition EBADF := 9.
Definition EAGAIN := 11.
Definition EWOULDBLOCK := 11.

(** 04000 in octal *)
Definition O_NONBLOCK := 2048.
Definition O_NONBLOCK_bit := 11.
End Linux.
Import Linux.

(** syslog priorities used by log_log *)
Inductive loglevel := LOG_ERR | LOG_WARNING | LOG_INFO | LOG_DEBUG.

(** [FILE *]: the two standard streams the program prints to, and the
    streams fopen() returns, named by a nonzero handle *)
Inductive stream := stdout | stderr | file_stream (handle : Z).

(** Values of config.h and nslcd.h, which are not part of the sources at
    hand, and libc's message table: parameters of the development. *)
Record build := {
  PACKAGE_STRING : string;
  PACKAGE_BUGREPORT : string;
  VERSION : string;
  NSS_LDAP_PATH_CONF : string;
  (** a [const char *]; [None] is the NULL pointer *)
  NSLCD_PIDFILE : option string;
  (** whether configure found setgroups() *)
  HAVE_SETGROUPS : bool;
  strerror : Z -> string
}.

(* ================================================================= *)
(** ** Machine integers *)

(** uid_t and gid_t are unsigned 32-bit, int is signed 32-bit. *)
Definition to_u32 (z : Z) : Z := z mod 2 ^ 32.
Definition to_int (z : Z) : Z := (z + 2 ^ 31) mod 2 ^ 32 - 2 ^ 31.

(** the code of a character, as the int that getopt_long returns *)
Definition char_code (c : ascii) : Z := Z.of_nat (nat_of_ascii c).

(* ================================================================= *)
(** ** printf *)

Inductive arg := AStr (s : string) | AInt (z : Z).

(** "%d" of an int *)
Definition decimal (z : Z) : string := NilZero.string_of_int (Z.to_int z).

(** The conversions the program uses: %s, %d and the literal text.  A
    conversion without a fitting argument is undefined in C; here it is
    printed as it stands. *)
Fixpoint sprintf (fmt : string) (args : list arg) : string :=
  match fmt with
  | EmptyString => EmptyString
  | String c rest =>
      match rest with
      | String k rest' =>
          if Ascii.eqb c "%" then
            match args with
            | AStr s :: args' =>
                if Ascii.eqb k "s" then s ++ sprintf rest' args'
                else String c (String k (sprintf rest' args))
            | AInt z :: args' =>
                if Ascii.eqb k "d" then decimal (to_int z) ++ sprintf rest' args'
                else String c (String k (sprintf rest' args))
            | [] => String c (String k (sprintf rest' args))
            end
          else String c (sprintf rest args)
      | EmptyString => String c EmptyString
      end
  end.

(** the newline character of the format strings *)
Definition nl : string := String (ascii_of_nat 10) EmptyString.

(* ================================================================= *)
(** ** The process and its operating system *)

(** struct ucred, as SO_PEERCRED fills it *)
Record ucred := { pid : Z; uid : Z; gid : Z }.

(** What the operating system answers to one call: the return value, the
    errno it sets (0 leaves errno alone), the signals it delivers before
    the call returns, and the credentials it writes for SO_PEERCRED. *)
Record answer := {
  a_ret : Z;
  a_errno : Z;
  a_sigs : list Z;
  a_cred : ucred
}.

(** The functions the program hands to sigaction() and atexit(). *)
Inductive handler := h_sigexit_handler.
Inductive finalizer := f_exithandler.

(** Calls into libc, the kernel and the other modules of the daemon. *)
Inductive call :=
| c_log_setdefaultloglevel (l : loglevel)
| c_log_startlogging
| c_daemon (nochdir noclose : Z)
| c_umask (mask : Z)
| c_atexit (f : finalizer)
| c_fopen (path mode : string)
| c_getpid
| c_fprintf (fp : Z) (text : string)
| c_fclose (fp : Z)
| c_nslcd_server_open
| c_setgroups (size : Z)
| c_setgid (g : Z)
| c_setuid (u : Z)
| c_sigaction (signum : Z) (h : handler)
| c_accept (sock : Z)
| c_fcntl_getfl (fd : Z)
| c_fcntl_setfl (fd flags : Z)
| c_getsockopt_peercred (fd : Z)
| c_close (fd : Z)
| c_nslcd_server_handlerequest (csock : Z).

Inductive event :=
| Call (c : call) (ret : Z)
| Log (lvl : loglevel) (fmt : string) (args : list arg)
| Print (fp : stream) (text : string)
(** the message getopt_long itself writes to stderr (opterr is 1) *)
| GetoptMessage (word : string).

Record state := {
  (** the three globals of nslcd.c *)
  nslcd_debugging : Z;
  nslcd_exitsignal : Z;
  nslcd_serversocket : Z;
  errno : Z;
  (** argv as getopt_long keeps it: argv[0], the option words already
      handled, the operands skipped so far, the words not yet looked at,
      and the rest of the cluster of short options being read *)
  argv0 : string;
  g_done : list string;
  g_skipped : list string;
  g_todo : list string;
  g_nextchar : string;
  (** kernel and libc tables *)
  sigactions : list (Z * handler);
  atexit_fns : list finalizer;
  streams : list (Z * string);
  files : list (string * string);
  (** the answers still to come, and what happened so far *)
  world : list answer;
  trace : list event
}.

Definition set_debugging (v : Z) (s : state) : state :=
  {| nslcd_debugging := v; nslcd_exitsignal := nslcd_exitsignal s;
     nslcd_serversocket := nslcd_serversocket s; errno := errno s;
     argv0 := argv0 s; g_done := g_done s; g_skipped := g_skipped s;
     g_todo := g_todo s; g_nextchar := g_nextchar s;
     sigactions := sigactions s; atexit_fns := atexit_fns s;
     streams := streams s; files := files s;
     world := world s; trace := trace s |}.

Definition set_exitsignal (v : Z) (s : state) : state :=
  {| nslcd_debugging := nslcd_debugging s; nslcd_exitsignal := v;
     nslcd_serversocket := nslcd_serversocket s; errno := errno s;
     argv0 := argv0 s; g_done := g_done s; g_skipped := g_skipped s;
     g_todo := g_todo s; g_nextchar := g_nextchar s;
     sigactions := sigactions s; atexit_fns := atexit_fns s;
     streams := streams s; files := files s;
     world := world s; trace := trace s |}.

Definition set_serversocket (v : Z) (s : state) : state :=
  {| nslcd_debugging := nslcd_debugging s; nslcd_exitsignal := nslcd_exitsignal s;
     nslcd_serversocket := v; errno := errno s;
     argv0 := argv0 s; g_done := g_done s; g_skipped := g_skipped s;
     g_todo := g_todo s; g_nextchar := g_nextchar s;
     sigactions := sigactions s; atexit_fns := atexit_fns s;
     streams := streams s; files := files s;
     world := world s; trace := trace s |}.

Definition set_errno (v : Z) (s : state) : state :=
  {| nslcd_debugging := nslcd_debugging s; nslcd_exitsignal := nslcd_exitsignal s;
     nslcd_serversocket := nslcd_serversocket s; errno := v;
     argv0 := argv0 s; g_done := g_done s; g_skipped := g_skipped s;
     g_todo := g_todo s; g_nextchar := g_nextchar s;
     sigactions := sigactions s; atexit_fns := atexit_fns s;
     streams := streams s; files := files s;
     world := world s; trace := trace s |}.

Definition set_getopt (done skipped todo : list string) (next : string)
    (s : state) : state :=
  {| nslcd_debugging := nslcd_debugging s; nslcd_exitsignal := nslcd_exitsignal s;
     nslcd_serversocket := nslcd_serversocket s; errno := errno s;
     argv0 := argv0 s; g_done := done; g_skipped := skipped;
     g_todo := todo; g_nextchar := next;
     sigactions := sigactions s; atexit_fns := atexit_fns s;
     streams := streams s; files := files s;
     world := world s; trace := trace s |}.

Definition set_sigactions (v : list (Z * handler)) (s : state) : state :=
  {| nslcd_debugging := nslcd_debugging s; nslcd_exitsignal := nslcd_exitsignal s;
     nslcd_serversocket := nslcd_serversocket s; errno := errno s;
     argv0 := argv0 s; g_done := g_done s; g_skipped := g_skipped s;
     g_todo := g_todo s; g_nextchar := g_nextchar s;
     sigactions := v; atexit_fns := atexit_fns s;
     streams := streams s; files := files s;
     world := world s; trace := trace s |}.

Definition set_atexit_fns (v : list finalizer) (s : state) : state :=
  {| nslcd_debugging := nslcd_debugging s; nslcd_exitsignal := nslcd_exitsignal s;
     nslcd_serversocket := nslcd_serversocket s; errno := errno s;
     argv0 := argv0 s; g_done := g_done s; g_skipped := g_skipped s;
     g_todo := g_todo s; g_nextchar := g_nextchar s;
     sigactions := sigactions s; atexit_fns := v;
     streams := streams s; files := files s;
     world := world s; trace := trace s |}.

Definition set_files (str : list (Z * string)) (fs : list (string * string))
    (s : state) : state :=
  {| nslcd_debugging := nslcd_debugging s; nslcd_exitsignal := nslcd_exitsignal s;
     nslcd_serversocket := nslcd_serversocket s; errno := errno s;
     argv0 := argv0 s; g_done := g_done s; g_skipped := g_skipped s;
     g_todo := g_todo s; g_nextchar := g_nextchar s;
     sigactions := sigactions s; atexit_fns := atexit_fns s;
     streams := str; files := fs;
     world := world s; trace := trace s |}.

Definition set_world (v : list answer) (s : state) : state :=
  {| nslcd_debugging := nslcd_debugging s; nslcd_exitsignal := nslcd_exitsignal s;
     nslcd_serversocket := nslcd_serversocket s; errno := errno s;
     argv0 := argv0 s; g_done := g_done s; g_skipped := g_skipped s;
     g_todo := g_todo s; g_nextchar := g_nextchar s;
     sigactions := sigactions s; atexit_fns := atexit_fns s;
     streams := streams s; files := files s;
     world := v; trace := trace s |}.

Definition set_trace (v : list event) (s : state) : state :=
  {| nslcd_debugging := nslcd_debugging s; nslcd_exitsignal := nslcd_exitsignal s;
     nslcd_serversocket := nslcd_serversocket s; errno := errno s;
     argv0 := argv0 s; g_done := g_done s; g_skipped := g_skipped s;
     g_todo := g_todo s; g_nextchar := g_nextchar s;
     sigactions := sigactions s; atexit_fns := atexit_fns s;
     streams := streams s; files := files s;
     world := world s; trace := v |}.

(** The process as the C runtime starts it: the globals at their
    initialisers, optind at 1, nothing installed. *)
Definition initial_state (args : list string) (w : list answer)
    (fs : list (string * string)) : state :=
  {| nslcd_debugging := 0; nslcd_exitsignal := 0; nslcd_serversocket := -1;
     errno := 0;
     argv0 := hd "" args; g_done := []; g_skipped := []; g_todo := tl args;
     g_nextchar := "";
     sigactions := []; atexit_fns := []; streams := []; files := fs;
     world := w; trace := [] |}.

(** argv and optind as the program sees them between getopt_long calls *)
Definition argv (s : state) : list string :=
  argv0 s :: g_done s ++ g_skipped s ++ g_todo s.
Definition argc (s : state) : Z := Z.of_nat (List.length (argv s)).
Definition optind (s : state) : Z := 1 + Z.of_nat (List.length (g_done s)).

(* ================================================================= *)
(** ** Control: return, exit(), and waiting for the system *)

Inductive outcome (A : Type) :=
| Ret (a : A) (s : state)
(** exit(status) was called *)
| Exit (status : Z) (s : state)
(** the call in progress has not returned: the answers ran out *)
| Blocked (s : state).
Arguments Ret {A} a s.
Arguments Exit {A} status s.
Arguments Blocked {A} s.

Definition M (A : Type) := state -> outcome A.

Definition ret {A} (a : A) : M A := fun s => Ret a s.

Definition bind {A B} (m : M A) (k : A -> M B) : M B :=
  fun s => match m s with
           | Ret a s' => k a s'
           | Exit c s' => Exit c s'
           | Blocked s' => Blocked s'
           end.

Definition exit {A} (status : Z) : M A := fun s => Exit status s.
Definition gets {A} (f : state -> A) : M A := fun s => Ret (f s) s.
Definition modify (f : state -> state) : M unit := fun s => Ret tt (f s).

Declare Scope prog_scope.
Delimit Scope prog_scope with prog.
Notation "x <- m ;; k" := (bind m (fun x => k))
  (at level 100, m at next level, right associativity) : prog_scope.
Notation "m ;; k" := (bind m (fun _ => k))
  (at level 100, right associativity) : prog_scope.
Open Scope prog_scope.

(** the state an outcome ends in *)
Definition final {A} (o : outcome A) : state :=
  match o with Ret _ s | Exit _ s | Blocked s => s end.

(* ================================================================= *)
(** ** Signals *)

(** [nslcd_exitsignal=signum;] *)
Definition sigexit_handler (signum : Z) (s : state) : state :=
  set_exitsignal signum s.

Definition run_handler (h : handler) (signum : Z) (s : state) : state :=
  match h with h_sigexit_handler => sigexit_handler signum s end.

(** The kernel delivers a signal: the handler installed for it runs.  A
    signal without a handler of the program is none of the program's
    doing and leaves its state as it is. *)
Definition deliver (s : state) (signum : Z) : state :=
  match find (fun p => fst p =? signum) (sigactions s) with
  | Some (_, h) => run_handler h signum s
  | None => s
  end.

(* ================================================================= *)
(** ** Primitive steps *)

Definition emit (e : event) : M unit :=
  modify (fun s => set_trace (trace s ++ [e]) s).

(** A call the system answers. *)
Definition ask (c : call) : M answer :=
  fun s =>
    match world s with
    | [] => Blocked s
    | a :: w =>
        let s1 := set_trace (trace s ++ [Call c (a_ret a)]) (set_world w s) in
        let s2 := if a_errno a =? 0 then s1 else set_errno (a_errno a) s1 in
        Ret a (fold_left deliver (a_sigs a) s2)
    end.

Definition sys (c : call) : M Z := a <- ask c ;; ret (a_ret a).

(** A library call that cannot fail or whose result the program drops. *)
Definition lib (c : call) : M unit := emit (Call c 0).

Definition log_log (lvl : loglevel) (fmt : string) (args : list arg) : M unit :=
  emit (Log lvl fmt args).

(** The files of the system, by path. *)
Fixpoint fs_write (path content : string) (fs : list (string * string))
    : list (string * string) :=
  match fs with
  | [] => [(path, content)]
  | (p, c) :: fs' =>
      if String.eqb p path then (path, content) :: fs'
      else (p, c) :: fs_write path content fs'
  end.

Definition fs_read (path : string) (fs : list (string * string)) : option string :=
  option_map snd (find (fun pc => String.eqb (fst pc) path) fs).

Definition stream_path (fp : Z) (s : state) : option string :=
  option_map snd (find (fun hp => fst hp =? fp) (streams s)).

(** fopen(path, "w"): NULL (0) on failure; on success the file exists and
    is empty. *)
Definition fopen (path mode : string) : M Z :=
  fp <- sys (c_fopen path mode) ;;
  if fp =? 0 then ret fp
  else
    modify (fun s => set_files ((fp, path) :: streams s)
                               (fs_write path "" (files s)) s) ;;
    ret fp.

(** fprintf: the number of characters printed, or a negative value.  To
    stdout and stderr the text goes to the trace (the program never looks
    at the result there); to a file the system says whether the write
    failed, and otherwise the text is added to the file. *)
Definition fprintf (fp : stream) (fmt : string) (args : list arg) : M Z :=
  let text := sprintf fmt args in
  match fp with
  | file_stream h =>
      a <- ask (c_fprintf h text) ;;
      if a_ret a <? 0 then ret (a_ret a)
      else
        modify (fun s =>
          match stream_path h s with
          | Some path =>
              let old := match fs_read path (files s) with
                         | Some c => c | None => "" end in
              set_files (streams s) (fs_write path (old ++ text) (files s)) s
          | None => s
          end) ;;
        ret (Z.of_nat (String.length text))
  | _ => emit (Print fp text) ;; ret (Z.of_nat (String.length text))
  end.

(** fclose: 0, or EOF when the last write failed *)
Definition fclose (fp : Z) : M Z :=
  r <- sys (c_fclose fp) ;;
  modify (fun s => set_files
            (filter (fun hp => negb (fst hp =? fp)) (streams s)) (files s) s) ;;
  ret r.

(* ================================================================= *)
(** ** getopt_long *)

(** struct option.  Every entry of the program's table has a NULL flag,
    so the field is left out. *)
Record option_def := { name : string; has_arg : Z; val : Z }.
Definition no_argument : Z := 0.

Inductive word_kind :=
| Operand
| Terminator
| LongOpt (body : string)
| ShortOpts (c : ascii) (cs : string).

(** How getopt_long reads one element of argv: "--" ends the options, a
    word starting with "--" is a long option, a word starting with "-"
    and not "-" alone is a cluster of short options, the rest are
    operands. *)
Definition classify (w : string) : word_kind :=
  match w with
  | String a (String c cs) =>
      if Ascii.eqb a "-" then
        if Ascii.eqb c "-" then
          match cs with
          | EmptyString => Terminator
          | _ => LongOpt cs
          end
        else ShortOpts c cs
      else Operand
  | _ => Operand
  end.

(** the part of a long option before "=", and whether there is a "=" *)
Fixpoint split_eq (body : string) : string * bool :=
  match body with
  | EmptyString => (EmptyString, false)
  | String c rest =>
      if Ascii.eqb c "=" then (EmptyString, true)
      else let (n, e) := split_eq rest in (String c n, e)
  end.

(** An exact name wins; otherwise the name may be abbreviated as long as
    one entry only starts with it. *)
Definition lookup_long (longopts : list option_def) (nm : string)
    : option option_def :=
  match find (fun o => String.eqb (name o) nm) longopts with
  | Some o => Some o
  | None =>
      match filter (fun o => prefix nm (name o)) longopts with
      | [o] => Some o
      | _ => None
      end
  end.

Definition in_optstring (c : ascii) (optstring : string) : bool :=
  existsb (Ascii.eqb c) (list_ascii_of_string optstring)
  && negb (Ascii.eqb c ":").

Definition question_mark : Z := char_code "?".

(** One short option out of a cluster.  No character of the option
    strings used here is followed by a colon: no short option takes an
    argument. *)
Definition short_option (optstring : string) (c : ascii) (cs : string) : M Z :=
  modify (fun s => set_getopt (g_done s) (g_skipped s) (g_todo s) cs s) ;;
  if in_optstring c optstring then ret (char_code c)
  else emit (GetoptMessage (String c EmptyString)) ;; ret question_mark.

(** A long option.  The entries used here are all [no_argument]: a value
    given with "=" is an error. *)
Definition long_option (longopts : list option_def) (body : string) : M Z :=
  let (nm, has_eq) := split_eq body in
  match lookup_long longopts nm with
  | Some o =>
      if has_eq && (has_arg o =? no_argument)
      then emit (GetoptMessage body) ;; ret question_mark
      else ret (val o)
  | None => emit (GetoptMessage body) ;; ret question_mark
  end.

(** Look for the next option word: operands are stepped over and end up
    behind the options (GNU getopt permutes argv when POSIXLY_CORRECT is
    not set and the option string starts with neither "+" nor "-"). *)
Fixpoint scan_argv (optstring : string) (longopts : list option_def)
    (todo : list string) : M Z :=
  match todo with
  | [] =>
      modify (fun s => set_getopt (g_done s) (g_skipped s) [] "" s) ;;
      ret (-1)
  | w :: rest =>
      match classify w with
      | Operand =>
          modify (fun s => set_getopt (g_done s) (g_skipped s ++ [w]) rest "" s) ;;
          scan_argv optstring longopts rest
      | Terminator =>
          modify (fun s => set_getopt (g_done s ++ [w]) (g_skipped s ++ rest) [] "" s) ;;
          ret (-1)
      | LongOpt body =>
          modify (fun s => set_getopt (g_done s ++ [w]) (g_skipped s) rest "" s) ;;
          long_option longopts body
      | ShortOpts c cs =>
          modify (fun s => set_getopt (g_done s ++ [w]) (g_skipped s) rest "" s) ;;
          short_option optstring c cs
      end
  end.

Definition getopt_long (optstring : string) (longopts : list option_def) : M Z :=
  next <- gets g_nextchar ;;
  match next with
  | String c cs => short_option optstring c cs
  | EmptyString => todo <- gets g_todo ;; scan_argv optstring longopts todo
  end.

(** What is left for getopt_long to read; every call that finds an option
    makes it smaller. *)
Definition getopt_measure (s : state) : nat :=
  (String.length (g_nextchar s)
   + fold_right (fun w n => S (String.length w + n)) O (g_todo s))%nat.

(* ================================================================= *)
(** ** The program *)

Section Nslcd.

Variable cfg : build.

(** strerror(errno) *)
Definition strerror_errno : M arg :=
  e <- gets errno ;; ret (AStr (strerror cfg e)).

(** display version information *)
Definition display_version (fp : stream) : M unit :=
  fprintf fp ("%s" ++ nl) [AStr (PACKAGE_STRING cfg)] ;;
  fprintf fp ("Written by Luke Howard and Arthur de Jong." ++ nl ++ nl) [] ;;
  fprintf fp ("Copyright (C) 1997-2006 Luke Howard, Arthur de Jong and West Consulting" ++ nl
              ++ "This is free software; see the source for copying conditions.  There is NO" ++ nl
              ++ "warranty; not even for MERCHANTABILITY or FITNESS FOR A PARTICULAR PURPOSE." ++ nl) [] ;;
  ret tt.

(** display usage information *)
Definition display_usage (fp : stream) (program_name : string) : M unit :=
  fprintf fp ("Usage: %s [OPTION]..." ++ nl) [AStr program_name] ;;
  fprintf fp ("Name Service LDAP connection daemon." ++ nl) [] ;;
  fprintf fp ("  -f, --config=FILE  use FILE as configfile (default %s)" ++ nl)
             [AStr (NSS_LDAP_PATH_CONF cfg)] ;;
  fprintf fp ("  -d, --debug        don't fork and print debugging to stderr" ++ nl) [] ;;
  fprintf fp ("      --help         display this help and exit" ++ nl) [] ;;
  fprintf fp ("      --version      output version information and exit" ++ nl) [] ;;
  fprintf fp (nl ++ "Report bugs to <%s>." ++ nl) [AStr (PACKAGE_BUGREPORT cfg)] ;;
  ret tt.

(** the definition of options for getopt() *)
Definition nslcd_options : list option_def :=
  [ {| name := "debug";   has_arg := no_argument; val := char_code "d" |};
    {| name := "help";    has_arg := no_argument; val := char_code "h" |};
    {| name := "version"; has_arg := no_argument; val := char_code "V" |} ].
Definition NSLCD_OPTIONSTRING : string := "dhV".

Definition try_help : string := "Try `%s --help' for more information." ++ nl.

(** The while loop of parse_cmdline.  [fuel] bounds the number of
    getopt_long calls; [parse_cmdline] passes more than can be used. *)
Fixpoint parse_cmdline_loop (fuel : nat) : M unit :=
  match fuel with
  | O => fun s => Blocked s
  | S fuel' =>
      optc <- getopt_long NSLCD_OPTIONSTRING nslcd_options ;;
      if optc =? -1 then ret tt
      else
        (if optc =? char_code "d" then
           modify (set_debugging 1) ;;
           lib (c_log_setdefaultloglevel LOG_DEBUG)
         else if optc =? char_code "h" then
           a0 <- gets argv0 ;;
           display_usage stdout a0 ;;
           exit 0
         else if optc =? char_code "V" then
           display_version stdout ;;
           exit 0
         else
           a0 <- gets argv0 ;;
           fprintf stderr try_help [AStr a0] ;;
           exit 1) ;;
        parse_cmdline_loop fuel'
  end.

(** parse command line options and save settings *)
Definition parse_cmdline : M unit :=
  fuel <- gets (fun s => S (getopt_measure s)) ;;
  parse_cmdline_loop fuel ;;
  (* check for remaining arguments *)
  oi <- gets optind ;;
  ac <- gets argc ;;
  if oi <? ac then
    a0 <- gets argv0 ;;
    w <- gets (fun s => nth (Z.to_nat oi) (argv s) "") ;;
    fprintf stderr ("%s: unrecognized option `%s'" ++ nl) [AStr a0; AStr w] ;;
    fprintf stderr try_help [AStr a0] ;;
    exit 1
  else ret tt.

(** get a name of a signal with a given signal number *)
Definition signame (signum : Z) : string :=
  if signum =? SIGHUP then "SIGHUP"
  else if signum =? SIGINT then "SIGINT"
  else if signum =? SIGQUIT then "SIGQUIT"
  else if signum =? SIGILL then "SIGILL"
  else if signum =? SIGABRT then "SIGABRT"
  else if signum =? SIGFPE then "SIGFPE"
  else if signum =? SIGKILL then "SIGKILL"
  else if signum =? SIGSEGV then "SIGSEGV"
  else if signum =? SIGPIPE then "SIGPIPE"
  else if signum =? SIGALRM then "SIGALRM"
  else if signum =? SIGTERM then "SIGTERM"
  else if signum =? SIGUSR1 then "SIGUSR1"
  else if signum =? SIGUSR2 then "SIGUSR2"
  else if signum =? SIGCHLD then "SIGCHLD"
  else if signum =? SIGCONT then "SIGCONT"
  else if signum =? SIGSTOP then "SIGSTOP"
  else if signum =? SIGTSTP then "SIGTSTP"
  else if signum =? SIGTTIN then "SIGTTIN"
  else if signum =? SIGTTOU then "SIGTTOU"
  else if signum =? SIGBUS then "SIGBUS"
  else if signum =? SIGPOLL then "SIGPOLL"
  else if signum =? SIGPROF then "SIGPROF"
  else if signum =? SIGSYS then "SIGSYS"
  else if signum =? SIGTRAP then "SIGTRAP"
  else if signum =? SIGURG then "SIGURG"
  else if signum =? SIGVTALRM then "SIGVTALRM"
  else if signum =? SIGXCPU then "SIGXCPU"
  else if signum =? SIGXFSZ then "SIGXFSZ"
  else "UNKNOWN".

(** the signal numbers signame has a case for *)
Definition known_signals : list Z :=
  [SIGHUP; SIGINT; SIGQUIT; SIGILL; SIGABRT; SIGFPE; SIGKILL; SIGSEGV;
   SIGPIPE; SIGALRM; SIGTERM; SIGUSR1; SIGUSR2; SIGCHLD; SIGCONT; SIGSTOP;
   SIGTSTP; SIGTTIN; SIGTTOU; SIGBUS; SIGPOLL; SIGPROF; SIGSYS; SIGTRAP;
   SIGURG; SIGVTALRM; SIGXCPU; SIGXFSZ].

(** close(fd) in the two functions that drop a connection *)
Definition close_socket (csock : Z) : M unit :=
  r <- sys (c_close csock) ;;
  if negb (r =? 0) then
    e <- strerror_errno ;;
    log_log LOG_WARNING "problem closing socket: %s" [e]
  else ret tt.

(** do some cleaning up before terminating *)
Definition exithandler : M unit :=
  sock <- gets nslcd_serversocket ;;
  (if sock >=? 0 then
     r <- sys (c_close sock) ;;
     if negb (r =? 0) then
       e <- strerror_errno ;;
       log_log LOG_WARNING "problem closing server socket (ignored): %s" [e]
     else ret tt
   else ret tt) ;;
  log_log LOG_INFO "version %s bailing out" [AStr (VERSION cfg)].

(** Modelled from the spec: nslcd_server_handlerequest() of
    nslcd-server.c, the external request handler.  It is handed the
    connection and owns its reading, writing and closing; it returns
    nothing, and what it does inside is not this program's trace. *)
Definition nslcd_server_handlerequest (csock : Z) : M unit :=
  _ <- ask (c_nslcd_server_handlerequest csock) ;; ret tt.

(** handle a connection *)
Definition handleconnection (csock : Z) : M unit :=
  (* look up process information from client *)
  a <- ask (c_getsockopt_peercred csock) ;;
  if a_ret a <? 0 then
    e <- strerror_errno ;;
    log_log LOG_ERR "getsockopt(SO_PEERCRED) failed: %s" [e] ;;
    close_socket csock
  else
    let client := a_cred a in
    (* log connection *)
    log_log LOG_INFO "connection from pid=%d uid=%d gid=%d"
            [AInt (to_int (pid client)); AInt (to_int (uid client));
             AInt (to_int (gid client))] ;;
    nslcd_server_handlerequest csock.

(** accept a connection on the socket *)
Definition acceptconnection : M unit :=
  (* accept a new connection *)
  sock <- gets nslcd_serversocket ;;
  csock <- sys (c_accept sock) ;;
  if csock <? 0 then
    en <- gets errno ;;
    if (en =? EINTR) || (en =? EAGAIN) || (en =? EWOULDBLOCK) then
      e <- strerror_errno ;;
      log_log LOG_DEBUG "debug: accept() failed (ignored): %s" [e]
    else
      e <- strerror_errno ;;
      log_log LOG_ERR "accept() failed: %s" [e]
  else
    (* make sure O_NONBLOCK is not inherited *)
    j <- sys (c_fcntl_getfl csock) ;;
    if j <? 0 then
      e <- strerror_errno ;;
      log_log LOG_ERR "fctnl(F_GETFL) failed: %s" [e] ;;
      close_socket csock
    else
      r <- sys (c_fcntl_setfl csock (Z.land j (Z.lnot O_NONBLOCK))) ;;
      if r <? 0 then
        e <- strerror_errno ;;
        log_log LOG_ERR "fctnl(F_SETFL,~O_NONBLOCK) failed: %s" [e] ;;
        close_socket csock
      else
        (* handle the connection *)
        handleconnection csock.

(** write the current process id to the specified file *)
Definition write_pidfile (filename : option string) : M unit :=
  match filename with
  | None => ret tt
  | Some filename =>
      fp <- fopen filename "w" ;;
      (if fp =? 0 then
         e <- strerror_errno ;;
         log_log LOG_ERR "cannot open pid file (%s): %s" [AStr filename; e] ;;
         exit 1
       else ret tt) ;;
      p <- sys c_getpid ;;
      n <- fprintf (file_stream fp) ("%d" ++ nl) [AInt (to_int p)] ;;
      (if n <=? 0 then
         log_log LOG_ERR "error writing pid file (%s)" [AStr filename] ;;
         exit 1
       else ret tt) ;;
      r <- fclose fp ;;
      if negb (r =? 0) then
        e <- strerror_errno ;;
        log_log LOG_ERR "error writing pid file (%s): %s" [AStr filename; e] ;;
        exit 1
      else ret tt
  end.

(** sigaction(signum,&act,NULL): on success the kernel's table holds the
    handler for the signal. *)
Definition sigaction (signum : Z) (h : handler) : M Z :=
  r <- sys (c_sigaction signum h) ;;
  if r =? 0 then
    modify (fun s => set_sigactions ((signum, h) :: sigactions s) s) ;;
    ret r
  else ret r.

(** try to install signal handler and check result *)
Definition install_sighandler (signum : Z) (h : handler) : M unit :=
  r <- sigaction signum h ;;
  if negb (r =? 0) then
    e <- strerror_errno ;;
    log_log LOG_ERR "error installing signal handler for '%s': %s"
            [AStr (signame signum); e] ;;
    exit 1
  else ret tt.

(** atexit(): the function is added to the list exit() runs. *)
Definition atexit (f : finalizer) : M unit :=
  lib (c_atexit f) ;;
  modify (fun s => set_atexit_fns (f :: atexit_fns s) s).

(** Modelled from the spec: nslcd_server_open() of nslcd-server.c, the
    external collaborator that creates, binds and listens on the socket:
    it returns the descriptor, and a failure in it is fatal to startup
    with exit status 1. *)
Definition nslcd_server_open : M Z :=
  r <- sys c_nslcd_server_open ;;
  if r <? 0 then exit 1 else ret r.

(** The loop [while (nslcd_exitsignal==0) acceptconnection();].  Every
    round asks the system at least once, so more fuel than there are
    answers is never used up. *)
Fixpoint serve (fuel : nat) : M unit :=
  match fuel with
  | O => fun s => Blocked s
  | S fuel' =>
      sig <- gets nslcd_exitsignal ;;
      if sig =? 0 then
        (* wait for a new connection *)
        acceptconnection ;;
        serve fuel'
      else ret tt
  end.

(** The privilege drop of main, for any value of its two locals. *)
Definition drop_privileges (mygid myuid : Z) : M unit :=
  (* drop all supplemental groups *)
  (if HAVE_SETGROUPS cfg then
     r <- sys (c_setgroups 0) ;;
     if r <? 0 then
       e <- strerror_errno ;;
       log_log LOG_WARNING "cannot setgroups(0,NULL) (ignored): %s" [e]
     else
       log_log LOG_DEBUG "debug: setgroups(0,NULL) done" []
   else
     log_log LOG_DEBUG "debug: setgroups() not available" []) ;;
  (* change to nslcd gid *)
  (if negb (mygid =? to_u32 (-1)) then
     r <- sys (c_setgid mygid) ;;
     (if negb (r =? 0) then
        e <- strerror_errno ;;
        log_log LOG_ERR "cannot setgid(%d): %s" [AInt (to_int mygid); e] ;;
        exit 1
      else ret tt) ;;
     log_log LOG_DEBUG "debug: setgid(%d) done" [AInt mygid]
   else ret tt) ;;
  (* change to nslcd uid *)
  (if negb (myuid =? to_u32 (-1)) then
     r <- sys (c_setuid myuid) ;;
     (if negb (r =? 0) then
        e <- strerror_errno ;;
        log_log LOG_ERR "cannot setuid(%d): %s" [AInt (to_int myuid); e] ;;
        exit 1
      else ret tt) ;;
     log_log LOG_DEBUG "debug: setuid(%d) done" [AInt myuid]
   else ret tt).

(** main from its first statement up to the accept loop, for any value of
    its locals [mygid] and [myuid]; the blocks under USE_CAPABILITIES name
    variables that are declared nowhere, so the program is built without
    them. *)
Definition startup (mygid myuid : Z) : M unit :=
  (* parse the command line *)
  parse_cmdline ;;
  (* daemonize *)
  dbg <- gets nslcd_debugging ;;
  (if dbg =? 0 then
     r <- sys (c_daemon 0 0) ;;
     if r <? 0 then
       e <- strerror_errno ;;
       log_log LOG_ERR "unable to daemonize: %s" [e] ;;
       exit 1
     else ret tt
   else ret tt) ;;
  (* set default mode for pidfile and socket: umask(0022) *)
  lib (c_umask 18) ;;
  (* intilialize logging *)
  (if dbg =? 0 then lib c_log_startlogging else ret tt) ;;
  log_log LOG_INFO "version %s starting" [AStr (VERSION cfg)] ;;
  (* install handler to close stuff off on exit and log notice *)
  atexit f_exithandler ;;
  (* write pidfile *)
  write_pidfile (NSLCD_PIDFILE cfg) ;;
  (* create socket *)
  sock <- nslcd_server_open ;;
  modify (set_serversocket sock) ;;
  drop_privileges mygid myuid ;;
  (* install signalhandlers for some other signals *)
  install_sighandler SIGHUP h_sigexit_handler ;;
  install_sighandler SIGINT h_sigexit_handler ;;
  install_sighandler SIGQUIT h_sigexit_handler ;;
  install_sighandler SIGABRT h_sigexit_handler ;;
  install_sighandler SIGPIPE h_sigexit_handler ;;
  install_sighandler SIGTERM h_sigexit_handler ;;
  install_sighandler SIGUSR1 h_sigexit_handler ;;
  install_sighandler SIGUSR2 h_sigexit_handler ;;
  log_log LOG_INFO "accepting connections" [].

(** main after the initialisation of its locals *)
Definition main_from (mygid myuid : Z) : M Z :=
  startup mygid myuid ;;
  (* start waiting for incoming connections *)
  fuel <- gets (fun s => S (List.length (world s))) ;;
  serve fuel ;;
  (* print something about received signals *)
  sig <- gets nslcd_exitsignal ;;
  (if negb (sig =? 0) then
     log_log LOG_INFO "caught signal %s (%d), shutting down"
             [AStr (signame sig); AInt sig]
   else ret tt) ;;
  ret 1.

(** the main program: [gid_t mygid=-1; uid_t myuid=-1;] *)
Definition main : M Z := main_from (to_u32 (-1)) (to_u32 (-1)).

(** the signals main installs sigexit_handler for *)
Definition exit_signals : list Z :=
  [SIGHUP; SIGINT; SIGQUIT; SIGABRT; SIGPIPE; SIGTERM; SIGUSR1; SIGUSR2].

(* ----------------------------------------------------------------- *)
(** *** The process from start to end *)

Definition run_finalizer (f : finalizer) : M unit :=
  match f with f_exithandler => exithandler end.

(** exit(): the functions registered with atexit() run, last one first *)
Fixpoint run_finalizers (fs : list finalizer) : M unit :=
  match fs with
  | [] => ret tt
  | f :: fs' => run_finalizer f ;; run_finalizers fs'
  end.

Inductive process_end :=
| Terminated (status : Z) (s : state)
| Running (s : state).

(** exit(status), also reached by returning from main; the parent sees
    [status & 0377]. *)
Definition c_exit (status : Z) (s : state) : process_end :=
  match run_finalizers (atexit_fns s) s with
  | Ret _ s' | Exit _ s' => Terminated (Z.land status 255) s'
  | Blocked s' => Running s'
  end.

Definition run (m : M Z) (s : state) : process_end :=
  match m s with
  | Ret status s' | Exit status s' => c_exit status s'
  | Blocked s' => Running s'
  end.

End Nslcd.

(* ================================================================= *)
(** ** Vocabulary of the statements *)

(** the line main logs when it leaves the loop *)
Definition caught_signal (sig : Z) : event :=
  Log LOG_INFO "caught signal %s (%d), shutting down"
      [AStr (signame sig); AInt sig].

(** what a log line looks like once log_log has formatted it *)
Definition rendered (e : event) : string :=
  match e with
  | Log _ fmt args => sprintf fmt args
  | Print _ text => text
  | _ => ""
  end.

(** the flag after the kernel has delivered [sigs], given the handlers *)
Definition flag_after (acts : list (Z * handler)) (sigs : list Z) (flag : Z) : Z :=
  fold_left
    (fun f sg => match find (fun p => fst p =? sg) acts with
                 | Some (_, h_sigexit_handler) => sg
                 | None => f
                 end) sigs flag.

(** [sigexit_handler] is installed for the signal *)
Definition handled (s : state) (signum : Z) : Prop :=
  find (fun p => fst p =? signum) (sigactions s) = Some (signum, h_sigexit_handler).

(** no handler is installed for a signal number 0 *)
Definition handlers_nonzero (s : state) : Prop :=
  Forall (fun p => fst p <> 0) (sigactions s).

Definition is_setgroups (e : event) : bool :=
  match e with Call (c_setgroups _) _ => true | _ => false end.
Definition is_setgid (e : event) : bool :=
  match e with Call (c_setgid _) _ => true | _ => false end.
Definition is_setuid (e : event) : bool :=
  match e with Call (c_setuid _) _ => true | _ => false end.
Definition is_close (e : event) : bool :=
  match e with Call (c_close _) _ => true | _ => false end.
Definition is_handlerequest (e : event) : bool :=
  match e with Call (c_nslcd_server_handlerequest _) _ => true | _ => false end.

(** the calls of the privilege drop *)
Definition is_priv (e : event) : bool :=
  is_setgroups e || is_setgid e || is_setuid e.

(** setgid() or setuid() *)
Definition is_idchange (e : event) : bool := is_setgid e || is_setuid e.

(** setgid(g) returned 0 *)
Definition setgid_done (g : Z) (e : event) : bool :=
  match e with Call (c_setgid g') r => (g' =? g) && (r =? 0) | _ => false end.

(** every event of kind [q] in the trace has one of kind [p] before it *)
Definition preceded_by (p q : event -> bool) (t : list event) : Prop :=
  forall t1 e t2, t = t1 ++ e :: t2 -> q e = true ->
  exists e', In e' t1 /\ p e' = true.

(** no event of kind [q] comes after one of kind [p] *)
Definition never_after (p q : event -> bool) (t : list event) : Prop :=
  forall t1 e t2, t = t1 ++ e :: t2 -> p e = true ->
  forall e', In e' t2 -> q e' = false.

(** the value of a [gid_t] or [uid_t] local that stands for "none" *)
Definition id_none : Z := to_u32 (-1).

(** what a run printed where *)
Definition prints_to (fp : stream) (e : event) : bool :=
  match e, fp with
  | Print stdout _, stdout => true
  | Print stderr _, stderr => true
  | _, _ => false
  end.
Definition is_print (e : event) : bool :=
  match e with Print _ _ => true | _ => false end.

(** the two lines the program writes to stderr for a bad command line *)
Definition hint (prog : string) : event :=
  Print stderr (sprintf try_help [AStr prog]).
Definition unrecognized (prog w : string) : event :=
  Print stderr (sprintf ("%s: unrecognized option `%s'" ++ nl) [AStr prog; AStr w]).

(** words of the command line *)
Definition is_operand (w : string) : bool :=
  match classify w with Operand => true | _ => false end.

(** "--" followed by a nonempty beginning of [nm] *)
Definition long_for (nm w : string) : Prop :=
  exists p, w = String "-" (String "-" p) /\ p <> "" /\ prefix p nm = true.

Definition debug_word (w : string) : Prop := w = "-d" \/ long_for "debug" w.
Definition help_word (w : string) : Prop :=
  (exists cs, w = String "-" (String "h" cs)) \/ long_for "help" w.
Definition version_word (w : string) : Prop :=
  (exists cs, w = String "-" (String "V" cs)) \/ long_for "version" w.

(** an option word that starts with none of the options above, -f and
    --config apart *)
Definition other_word (w : string) : Prop :=
  (exists c cs, w = String "-" (String c cs)
     /\ c <> "-"%char /\ c <> "d"%char /\ c <> "h"%char /\ c <> "V"%char
     /\ c <> "f"%char)
  \/ (exists body, w = String "-" (String "-" body) /\ body <> ""
       /\ prefix (fst (split_eq body)) "debug" = false
       /\ prefix (fst (split_eq body)) "help" = false
       /\ prefix (fst (split_eq body)) "version" = false
       /\ prefix (fst (split_eq body)) "config" = false).

(** the words still to be read, as getopt_long counts them *)
Definition todo_measure (todo : list string) : nat :=
  fold_right (fun w n => S (String.length w + n)) O todo.

(** the transient errors of accept() *)
Definition transient (e : Z) : bool :=
  (e =? EINTR) || (e =? EAGAIN) || (e =? EWOULDBLOCK).

(** errno once the system has answered [a] *)
Definition errno_after (a : answer) (s : state) : Z :=
  if a_errno a =? 0 then errno s else a_errno a.

(** Reading a PID file back: the digits up to the newline that ends it. *)
Fixpoint chop_newline (s : string) : option string :=
  match s with
  | EmptyString => None
  | String c rest =>
      match rest with
      | EmptyString => if Ascii.eqb c (ascii_of_nat 10) then Some EmptyString else None
      | _ => option_map (String c) (chop_newline rest)
      end
  end.

Definition read_pid (content : string) : option Z :=
  match chop_newline content with
  | Some digits => option_map Z.of_int (NilZero.int_of_string digits)
  | None => None
  end.

(** the state a process ends in, or waits in *)
Definition end_state (p : process_end) : state :=
  match p with Terminated _ s | Running s => s end.

(** errno once the system has answered [a], when it was [e] before *)
Definition errno_next (a : answer) (e : Z) : Z :=
  if a_errno a =? 0 then e else a_errno a.

(** what dropping a connection adds to the trace: the close() call and,
    when it fails, a warning *)
Definition close_events (cfg : build) (csock : Z) (a : answer) (e : Z) : list event :=
  Call (c_close csock) (a_ret a)
  :: (if a_ret a =? 0 then []
      else [Log LOG_WARNING "problem closing socket: %s"
                [AStr (strerror cfg (errno_next a e))]]).

(* ----------------------------------------------------------------- *)
(** *** More kinds of events *)

Definition is_accept (e : event) : bool :=
  match e with Call (c_accept _) _ => true | _ => false end.
Definition is_umask (e : event) : bool :=
  match e with Call (c_umask _) _ => true | _ => false end.
Definition is_atexit (e : event) : bool :=
  match e with Call (c_atexit _) _ => true | _ => false end.
Definition is_fopen (e : event) : bool :=
  match e with Call (c_fopen _ _) _ => true | _ => false end.
Definition is_fclose (e : event) : bool :=
  match e with Call (c_fclose _) _ => true | _ => false end.
Definition is_server_open (e : event) : bool :=
  match e with Call c_nslcd_server_open _ => true | _ => false end.
Definition is_daemon (e : event) : bool :=
  match e with Call (c_daemon _ _) _ => true | _ => false end.
Definition is_startlogging (e : event) : bool :=
  match e with Call c_log_startlogging _ => true | _ => false end.

(** what main does to go to the background *)
Definition daemonizes (e : event) : bool := is_daemon e || is_startlogging e.

(** the calls that create the PID file and the socket *)
Definition creates (e : event) : bool := is_fopen e || is_server_open e.

(** the two ways a connection leaves acceptconnection: it is closed, or
    handed to the request handler *)
Definition hands_off (e : event) : bool := is_close e || is_handlerequest e.

(** ... the connection [csock] *)
Definition disposes (csock : Z) (e : event) : bool :=
  match e with
  | Call (c_close fd) _ => fd =? csock
  | Call (c_nslcd_server_handlerequest fd) _ => fd =? csock
  | _ => false
  end.

(** setuid(u) returned 0 *)
Definition setuid_done (u : Z) (e : event) : bool :=
  match e with Call (c_setuid u') r => (u' =? u) && (r =? 0) | _ => false end.

(** not an accept() call on another socket than [v] *)
Definition accept_on (v : Z) (e : event) : bool :=
  match e with Call (c_accept fd) _ => fd =? v | _ => true end.

(** sigaction() has installed sigexit_handler for the signal *)
Definition sigaction_done (sg : Z) (e : event) : bool :=
  match e with
  | Call (c_sigaction sg' h_sigexit_handler) r => (sg' =? sg) && (r =? 0)
  | _ => false
  end.

(** the last line of the exit handler *)
Definition bailing_out (cfg : build) : event :=
  Log LOG_INFO "version %s bailing out" [AStr (VERSION cfg)].

(** what closing the server socket adds to the trace *)
Definition listener_close_events (cfg : build) (sock : Z) (a : answer) (e : Z)
    : list event :=
  Call (c_close sock) (a_ret a)
  :: (if a_ret a =? 0 then []
      else [Log LOG_WARNING "problem closing server socket (ignored): %s"
                [AStr (strerror cfg (errno_next a e))]]).

(** the exit flag holds 0 or one of the signals main installs the handler
    for, and there are handlers for these signals only *)
Definition tame (s : state) : Prop :=
  Forall (fun p : Z * handler => In (fst p) exit_signals) (sigactions s)
  /\ (nslcd_exitsignal s = 0 \/ In (nslcd_exitsignal s) exit_signals).

(* ----------------------------------------------------------------- *)
(** *** A build and a system to run examples on *)

Definition example_build : build :=
  {| PACKAGE_STRING := "nss-ldapd 0.1";
     PACKAGE_BUGREPORT := "arthur@ch.tudelft.nl";
     VERSION := "0.1";
     NSS_LDAP_PATH_CONF := "/etc/nss-ldapd.conf";
     NSLCD_PIDFILE := Some "/var/run/nslcd.pid";
     HAVE_SETGROUPS := true;
     strerror := fun e => ("error " ++ decimal e)%string |}.

Definition nobody : ucred := {| pid := 0; uid := 0; gid := 0 |}.

(** the call returns [r] *)
Definition ok (r : Z) : answer :=
  {| a_ret := r; a_errno := 0; a_sigs := []; a_cred := nobody |}.
(** the call fails with errno [e] *)
Definition failed (e : Z) : answer :=
  {| a_ret := -1; a_errno := e; a_sigs := []; a_cred := nobody |}.
(** the call returns [r] after signal [sg] was delivered *)
Definition interrupted (r sg : Z) : answer :=
  {| a_ret := r; a_errno := 0; a_sigs := [sg]; a_cred := nobody |}.
(** SO_PEERCRED answers with the peer's credentials *)
Definition peer (p u g : Z) : answer :=
  {| a_ret := 0; a_errno := 0; a_sigs := [];
     a_cred := {| pid := p; uid := u; gid := g |} |}.

(** a process in its accept loop: listening on descriptor 3, handlers in
    place, nothing received yet *)
Definition serving_state (w : list answer) : state :=
  {| nslcd_debugging := 1; nslcd_exitsignal := 0; nslcd_serversocket := 3;
     errno := 0;
     argv0 := "nslcd"; g_done := ["-d"]; g_skipped := []; g_todo := [];
     g_nextchar := "";
     sigactions := map (fun sg => (sg, h_sigexit_handler)) (rev exit_signals);
     atexit_fns := [f_exithandler]; streams := []; files := [];
     world := w; trace := [] |}.

(** the system lets a foreground start go through: the PID file (stream 7,
    PID 4242), the socket (descriptor 3), setgroups and any ID change *)
Definition start_ok (idcalls : nat) : list answer :=
  [ok 7; ok 4242; ok 0; ok 0; ok 3; ok 0] ++ repeat (ok 0) idcalls.

(** ... then the eight sigaction() calls, and then: accept() is
    interrupted, a client (pid 10, uid 1000, gid 100) is served, SIGTERM
    arrives while its request is handled, and the listener closes *)
Definition one_client_then_sigterm : list answer :=
  repeat (ok 0) 8
  ++ [failed EINTR; ok 5; ok 2050; ok 0; peer 10 1000 100;
      interrupted 0 SIGTERM; ok 0].

Definition foreground (w : list answer) : state :=
  initial_state ["nslcd"; "-d"] w [].

(* ----------------------------------------------------------------- *)
(** *** Vocabulary of the proofs *)

(** the state in which a call returns that the system answered with [a] *)
Definition after_ask (c : call) (a : answer) (w : list answer) (s : state) : state :=
  set_exitsignal (flag_after (sigactions s) (a_sigs a) (nslcd_exitsignal s))
    (set_errno (errno_after a s)
       (set_trace (trace s ++ [Call c (a_ret a)]) (set_world w s))).

(** [steps R m]: wherever [m] stops (it returns, exits or waits), the
    state it stops in is related by [R] to the one it started in. *)
Definition steps {A} (R : state -> state -> Prop) (m : M A) : Prop :=
  forall s, R s (final (m s)).

(** [triple P m Q]: started where [P] holds, [m] stops where [Q] holds. *)
Definition triple {A} (P : state -> Prop) (m : M A) (Q : state -> Prop) : Prop :=
  forall s, P s -> Q (final (m s)).

(** [quiet f]: no event picked by [f] was added to the trace. *)
Definition quiet (f : event -> bool) (s s' : state) : Prop :=
  filter f (trace s') = filter f (trace s).

(** [grows s s']: the trace of [s'] is the one of [s] with more at its end *)
Definition grows (s s' : state) : Prop :=
  exists l, trace s' = trace s ++ l.

(** [kept s s']: the handlers stay on nonzero signals, and a flag that
    was set is still set. *)
Definition kept (s s' : state) : Prop :=
  handlers_nonzero s ->
  handlers_nonzero s' /\ (nslcd_exitsignal s <> 0 -> nslcd_exitsignal s' <> 0).

(** [during s s']: the handlers are the same, and the flag in [s'] is what
    the signals delivered with the answers used up in between make of
    the flag in [s]. *)
Definition during (s s' : state) : Prop :=
  sigactions s' = sigactions s
  /\ exists used,
       world s = used ++ world s'
       /\ nslcd_exitsignal s'
          = flag_after (sigactions s) (flat_map a_sigs used) (nslcd_exitsignal s).

(** [same_atexit s s']: nothing was registered with atexit() in between *)
Definition same_atexit (s s' : state) : Prop := atexit_fns s' = atexit_fns s.

(** what [drop_privileges] can add after the supplementary groups *)
Definition id_shape (mygid myuid : Z) (l : list event) : Prop :=
  l = []
  \/ (mygid <> id_none /\ exists r, l = [Call (c_setgid mygid) r])
  \/ (mygid <> id_none
      /\ exists r, l = [Call (c_setgid mygid) 0; Call (c_setuid myuid) r])
  \/ (mygid = id_none /\ exists r, l = [Call (c_setuid myuid) r]).

(** the calls of the privilege drop a run can have made *)
Definition drop_shape (cfg : build) (mygid myuid : Z) (l : list event) : Prop :=
  if HAVE_SETGROUPS cfg
  then l = [] \/ exists r l', l = Call (c_setgroups 0) r :: l' /\ id_shape mygid myuid l'
  else id_shape mygid myuid l.

(** what main registers: nothing yet, or exithandler *)
Definition registered (l : list finalizer) : Prop :=
  l = [] \/ l = [f_exithandler].

(** the body of the switch in parse_cmdline *)
Definition switch_on (cfg : build) (optc : Z) : M unit :=
  if optc =? char_code "d" then
    modify (set_debugging 1) ;;
    lib (c_log_setdefaultloglevel LOG_DEBUG)
  else if optc =? char_code "h" then
    a0 <- gets argv0 ;;
    display_usage cfg stdout a0 ;;
    exit 0
  else if optc =? char_code "V" then
    display_version cfg stdout ;;
    exit 0
  else
    a0 <- gets argv0 ;;
    fprintf stderr try_help [AStr a0] ;;
    exit 1.

(** what parse_cmdline does once getopt_long has returned -1 *)
Definition check_remaining (cfg : build) : M unit :=
  oi <- gets optind ;;
  ac <- gets argc ;;
  if oi <? ac then
    a0 <- gets argv0 ;;
    w <- gets (fun s => nth (Z.to_nat oi) (argv s) "") ;;
    fprintf stderr ("%s: unrecognized option `%s'" ++ nl) [AStr a0; AStr w] ;;
    fprintf stderr try_help [AStr a0] ;;
    exit 1
  else ret tt.

(** what one option word makes getopt_long return *)
Definition word_outcome (w : string) : M Z :=
  match classify w with
  | LongOpt body => long_option nslcd_options body
  | ShortOpts c cs => short_option NSLCD_OPTIONSTRING c cs
  | _ => ret (-1)
  end.

(** [unchanged f s s']: the part [f] of the state is the same *)
Definition unchanged {A} (f : state -> A) (s s' : state) : Prop := f s' = f s.

(** [keeps P s s']: what holds of [s] holds of [s'] *)
Definition keeps (P : state -> Prop) (s s' : state) : Prop := P s -> P s'.

(** an outcome by cases: [Q] when the function returned, [E] when it
    called exit(), [W] when it waits for the system *)
Definition meets {A} (Q : A -> state -> Prop) (E : Z -> state -> Prop)
    (W : state -> Prop) (o : outcome A) : Prop :=
  match o with
  | Ret a s => Q a s
  | Exit c s => E c s
  | Blocked s => W s
  end.

(** [hoare P m Q E W]: started where [P] holds, [m] ends as [Q], [E] and
    [W] say. *)
Definition hoare {A} (P : state -> Prop) (m : M A) (Q : A -> state -> Prop)
    (E : Z -> state -> Prop) (W : state -> Prop) : Prop :=
  forall s, P s -> meets Q E W (m s).

(** no event of kind [q] so far *)
Definition none_yet (q : event -> bool) (s : state) : Prop :=
  filter q (trace s) = [].

(** an event of kind [p] has happened, and no event of kind [q] before
    it *)
Definition passed (p q : event -> bool) (s : state) : Prop :=
  exists t0 l, trace s = t0 ++ l
               /\ filter q t0 = [] /\ exists e, In e t0 /\ p e = true.

(** main from the accept loop on *)
Definition serve_and_leave (cfg : build) : M Z :=
  fuel <- gets (fun s => S (List.length (world s))) ;;
  serve cfg fuel ;;
  sig <- gets nslcd_exitsignal ;;
  (if negb (sig =? 0) then
     log_log LOG_INFO "caught signal %s (%d), shutting down"
             [AStr (signame sig); AInt sig]
   else ret tt) ;;
  ret 1.

(** what no step touches once startup has set it *)
Definition core (s : state) : list finalizer * Z * list (string * string) :=
  (atexit_fns s, nslcd_serversocket s, files s).

(** How far startup has come, from the registration of the exit handler
    on: the handler is registered on top of [a0]; the PID file, when
    [pidfile] names one, holds the PID that getpid() returned; when
    [opened] is set, the server socket is the descriptor that
    nslcd_server_open() returned; and the calls [evs] have been made. *)
Definition started (a0 : list finalizer) (pidfile : option string)
    (opened : bool) (evs : list event) (s : state) : Prop :=
  atexit_fns s = f_exithandler :: a0
  /\ (forall path, pidfile = Some path ->
      exists p, In (Call c_getpid p) (trace s)
                /\ fs_read path (files s)
                   = Some (decimal (to_int p) ++ nl)%string)
  /\ (opened = true ->
      0 <= nslcd_serversocket s
      /\ In (Call c_nslcd_server_open (nslcd_serversocket s)) (trace s))
  /\ Forall (fun e => In e (trace s)) evs.

(** the calls of a successful privilege drop *)
Definition id_calls (mygid myuid : Z) : list event :=
  (if mygid =? id_none then [] else [Call (c_setgid mygid) 0])
  ++ (if myuid =? id_none then [] else [Call (c_setuid myuid) 0]).

(** the calls that install the handler *)
Definition installs (sigs : list Z) : list event :=
  map (fun sg => Call (c_sigaction sg h_sigexit_handler) 0) sigs.

(** [serving_on v s s']: when the server socket is [v] in [s] it still is
    in [s'], and what was added to the trace has accept() on [v] only *)
Definition serving_on (v : Z) (s s' : state) : Prop :=
  nslcd_serversocket s = v ->
  nslcd_serversocket s' = v
  /\ exists l, trace s' = trace s ++ l /\ forallb (accept_on v) l = true.

(** the exit handler is not registered yet, and atexit() was not called *)
Definition unregistered (s : state) : Prop :=
  atexit_fns s = [] /\ none_yet is_atexit s.

(** the exit handler is registered, once, by a call of atexit() *)
Definition registered_by_call (s : state) : Prop :=
  atexit_fns s = [f_exithandler]
  /\ In (Call (c_atexit f_exithandler) 0) (trace s).

(* ================================================================= *)
(** ** Signals and the system's answers *)

Lemma set_exitsignal_same (s : state) :
  set_exitsignal (nslcd_exitsignal s) s = s.
Proof. destruct s; reflexivity. Qed.

Lemma flag_after_app acts l1 l2 f :
  flag_after acts (l1 ++ l2) f = flag_after acts l2 (flag_after acts l1 f).
Proof. unfold flag_after. apply fold_left_app. Qed.

(** Delivering a signal changes the flag and nothing else. *)
Lemma deliver_flag (s : state) (sg : Z) :
  deliver s sg
  = set_exitsignal (flag_after (sigactions s) [sg] (nslcd_exitsignal s)) s.
Proof.
  unfold deliver, flag_after; simpl.
  destruct (find _ (sigactions s)) as [[n []]|].
  - reflexivity.
  - symmetry; apply set_exitsignal_same.
Qed.

Lemma deliver_all_flag (sigs : list Z) (s : state) :
  fold_left deliver sigs s
  = set_exitsignal (flag_after (sigactions s) sigs (nslcd_exitsignal s)) s.
Proof.
  revert s; induction sigs as [|sg sigs IH]; intro s; simpl.
  - symmetry; apply set_exitsignal_same.
  - rewrite IH, deliver_flag. reflexivity.
Qed.

Lemma ask_cons (c : call) (s : state) (a : answer) (w : list answer) :
  world s = a :: w -> ask c s = Ret a (after_ask c a w s).
Proof.
  intro H. unfold ask, after_ask, errno_after. rewrite H.
  rewrite deliver_all_flag. destruct (a_errno a =? 0); reflexivity.
Qed.

Lemma ask_nil (c : call) (s : state) : world s = [] -> ask c s = Blocked s.
Proof. intro H. unfold ask. rewrite H. reflexivity. Qed.

(** projections of updated states *)
Ltac simp_state :=
  cbn [after_ask final set_debugging set_exitsignal set_serversocket set_errno
       set_getopt set_sigactions set_atexit_fns set_files set_world set_trace
       nslcd_debugging nslcd_exitsignal nslcd_serversocket errno argv0 g_done
       g_skipped g_todo g_nextchar sigactions atexit_fns streams files world
       trace] in *.

(** One step of symbolic execution: the next call is answered by the head
    of the world. *)
Ltac answer_next :=
  cbv beta iota;
  match goal with
  | |- context [ask ?c ?s] =>
      erewrite (ask_cons c s) by (simp_state; first [eassumption | reflexivity])
  end.

Ltac run_prog :=
  cbv beta iota zeta delta [bind ret gets modify emit exit log_log lib sys
                  strerror_errno close_socket nslcd_server_handlerequest].

(* ================================================================= *)
(** ** Reasoning about whole functions

    For a preorder [R], [steps R] goes through sequencing, whatever the
    outcome of the first part. *)

Section Steps.

Variable R : state -> state -> Prop.
Context {R_pre : PreOrder R}.

Lemma steps_ret {A} (a : A) : steps R (ret a).
Proof. intro s; simpl; reflexivity. Qed.

Lemma steps_exit {A} (c : Z) : steps R (@exit A c).
Proof. intro s; simpl; reflexivity. Qed.

Lemma steps_gets {A} (f : state -> A) : steps R (gets f).
Proof. intro s; simpl; reflexivity. Qed.

Lemma steps_blocked {A} : steps R (fun s => @Blocked A s).
Proof. intro s; simpl; reflexivity. Qed.

Lemma steps_bind {A B} (m : M A) (k : A -> M B) :
  steps R m -> (forall a, steps R (k a)) -> steps R (bind m k).
Proof.
  intros Hm Hk s. unfold bind. specialize (Hm s).
  destruct (m s) as [a s'| c s' | s']; simpl in *; auto.
  transitivity s'; [assumption | apply Hk].
Qed.

Lemma steps_modify (f : state -> state) :
  (forall s, R s (f s)) -> steps R (modify f).
Proof. intros H s; simpl; apply H. Qed.

Lemma steps_ask (c : call) :
  (forall s a w, world s = a :: w -> R s (after_ask c a w s)) ->
  steps R (ask c).
Proof.
  intros H s. destruct (world s) as [|a w] eqn:Hw.
  - rewrite ask_nil by assumption. simpl; reflexivity.
  - rewrite (ask_cons c s a w) by assumption. simpl. apply H, Hw.
Qed.

End Steps.

Lemma triple_bind {A B} (P Q Q' : state -> Prop) (m : M A) (k : A -> M B) :
  triple P m Q -> (forall s, Q s -> Q' s) -> (forall a, triple Q (k a) Q') ->
  triple P (bind m k) Q'.
Proof.
  intros Hm Himp Hk s HP. unfold bind. specialize (Hm s HP).
  destruct (m s) as [a s'| c s' | s']; simpl in *; auto.
  apply Hk; assumption.
Qed.

Lemma triple_weaken {A} (P P' Q Q' : state -> Prop) (m : M A) :
  triple P m Q -> (forall s, P' s -> P s) -> (forall s, Q s -> Q' s) ->
  triple P' m Q'.
Proof. intros H HP HQ s Hs. apply HQ, H, HP, Hs. Qed.

(** Going through a function's body: sequencing, branching, and [prim]
    for the primitive steps. *)
Ltac steps_with prim :=
  repeat lazymatch goal with
    | |- steps _ (ret _) => refine (steps_ret _ _)
    | |- steps _ (exit _) => refine (steps_exit _ _)
    | |- steps _ (gets _) => refine (steps_gets _ _)
    | |- steps _ (fun s => Blocked s) => refine (steps_blocked _)
    | |- steps _ (bind _ _) => refine (steps_bind _ _ _ _ _); [| intro]
    | |- steps _ (if ?b then _ else _) => destruct b
    | |- steps _ (match ?x with _ => _ end) => destruct x
    | |- steps _ (let (_, _) := ?x in _) => destruct x
    | |- steps _ (modify _) => prim
    | |- steps _ (emit _) => prim
    | |- steps _ (ask _) => prim
    | |- steps _ _ => prim
    end.

(* ----------------------------------------------------------------- *)
(** *** Events a function does not produce *)

#[local] Instance quiet_pre (f : event -> bool) : PreOrder (quiet f).
Proof.
  split.
  - intro s; reflexivity.
  - intros s1 s2 s3 H12 H23. unfold quiet in *. congruence.
Qed.

Lemma quiet_emit f e : f e = false -> steps (quiet f) (emit e).
Proof.
  intros He. apply steps_modify. intro s. unfold quiet. simp_state.
  rewrite filter_app. simpl. rewrite He. apply app_nil_r.
Qed.

Lemma quiet_ask f c :
  (forall r, f (Call c r) = false) -> steps (quiet f) (ask c).
Proof.
  intros Hc. refine (steps_ask _ _ _). intros s a w _. unfold quiet. simp_state.
  rewrite filter_app. simpl. rewrite Hc. apply app_nil_r.
Qed.

Lemma quiet_modify f g :
  (forall s, trace (g s) = trace s) -> steps (quiet f) (modify g).
Proof.
  intros Hg. apply steps_modify. intro s. unfold quiet. rewrite Hg. reflexivity.
Qed.

Lemma quiet_sub (f g : event -> bool) (s s' : state) :
  (forall e, f e = true -> g e = true) -> quiet g s s' -> quiet f s s'.
Proof.
  intros Hsub H. unfold quiet in *.
  assert (E : forall t, filter f t = filter f (filter g t)).
  { induction t as [|e t IH]; simpl; [reflexivity|].
    destruct (g e) eqn:Hg; simpl.
    - destruct (f e); congruence.
    - destruct (f e) eqn:Hf; [|assumption].
      apply Hsub in Hf; congruence. }
  rewrite (E (trace s')), (E (trace s)), H. reflexivity.
Qed.

Ltac quiet_prim :=
  first [ apply quiet_emit; reflexivity
        | apply quiet_ask; intro; reflexivity
        | apply quiet_modify; intro; reflexivity
        | apply quiet_modify; intros s0; destruct (stream_path _ s0); reflexivity ].

(** the bodies of the functions that are neither loops nor recursive *)
Ltac open_bodies :=
  unfold parse_cmdline, display_usage, display_version, getopt_long,
    short_option, long_option, write_pidfile, fopen, fprintf, fclose,
    install_sighandler, sigaction, atexit, nslcd_server_open, exithandler,
    acceptconnection, handleconnection, close_socket,
    nslcd_server_handlerequest, strerror_errno, log_log, lib, sys.

Ltac quiet_body := open_bodies; cbv beta iota zeta; steps_with quiet_prim.

(* ----------------------------------------------------------------- *)
(** *** The trace only grows *)

#[local] Instance grows_pre : PreOrder grows.
Proof.
  split.
  - intro s. exists []. symmetry; apply app_nil_r.
  - intros s1 s2 s3 [l1 H1] [l2 H2]. exists (l1 ++ l2).
    rewrite H2, H1. symmetry; apply app_assoc.
Qed.

Lemma grows_emit e : steps grows (emit e).
Proof. apply steps_modify. intro s. exists [e]. reflexivity. Qed.

Lemma grows_ask c : steps grows (ask c).
Proof.
  refine (steps_ask _ _ _). intros s a w _. exists [Call c (a_ret a)]. reflexivity.
Qed.

Lemma grows_modify g :
  (forall s, trace (g s) = trace s) -> steps grows (modify g).
Proof.
  intros Hg. apply steps_modify. intro s. exists []. rewrite Hg.
  symmetry; apply app_nil_r.
Qed.

Lemma bind_assoc {A B C} (m : M A) (k1 : A -> M B) (k2 : B -> M C) (s : state) :
  bind (bind m k1) k2 s = bind m (fun x => bind (k1 x) k2) s.
Proof. unfold bind. destruct (m s); reflexivity. Qed.

Lemma bind_gets {A B} (f : state -> A) (k : A -> M B) (s : state) :
  bind (gets f) k s = k (f s) s.
Proof. reflexivity. Qed.

(** What starts with a call starts the new part of the trace with it. *)
Lemma first_event_sys {B} (c : call) (k : Z -> M B) (s : state)
    (a : answer) (w : list answer) :
  (forall r, steps grows (k r)) -> world s = a :: w ->
  exists l, trace (final (bind (sys c) k s)) = trace s ++ Call c (a_ret a) :: l.
Proof.
  intros Hk Hw. unfold sys. rewrite bind_assoc. unfold bind at 1.
  rewrite (ask_cons c s a w Hw). cbv beta iota. unfold bind at 1, ret.
  destruct (Hk (a_ret a) (after_ask c a w s)) as [l Hl].
  exists l. rewrite Hl. simp_state. rewrite <- app_assoc. reflexivity.
Qed.

Ltac grows_prim :=
  first [ apply grows_emit | apply grows_ask
        | apply grows_modify; intro; reflexivity
        | apply grows_modify; intros s0; destruct (stream_path _ s0); reflexivity ].

Ltac grows_body := open_bodies; cbv beta iota zeta; steps_with grows_prim.

(* ----------------------------------------------------------------- *)
(** *** The exit flag is never reset *)

Lemma flag_after_nonzero acts sigs f :
  Forall (fun p : Z * handler => fst p <> 0) acts ->
  f <> 0 -> flag_after acts sigs f <> 0.
Proof.
  intros Hacts. revert f. induction sigs as [|sg sigs IH]; intros f Hf; [exact Hf|].
  unfold flag_after in *. cbn [fold_left]. apply IH.
  destruct (find (fun p => fst p =? sg) acts) as [[n []]|] eqn:E; [|exact Hf].
  apply find_some in E. destruct E as [Hin Heq]. cbn [fst] in Heq.
  apply Z.eqb_eq in Heq. subst n.
  rewrite Forall_forall in Hacts. apply (Hacts _ Hin).
Qed.

(** a handled signal among those delivered leaves the flag set *)
Lemma flag_after_handled acts sigs f sg :
  Forall (fun p : Z * handler => fst p <> 0) acts ->
  In sg sigs ->
  find (fun p => fst p =? sg) acts = Some (sg, h_sigexit_handler) ->
  flag_after acts sigs f <> 0.
Proof.
  intros Hacts Hin Hfind. apply in_split in Hin. destruct Hin as [l1 [l2 ->]].
  rewrite flag_after_app.
  change (sg :: l2) with ([sg] ++ l2). rewrite flag_after_app.
  apply flag_after_nonzero; [assumption|].
  unfold flag_after at 1. cbn [fold_left]. rewrite Hfind.
  apply find_some in Hfind. destruct Hfind as [Hin _].
  rewrite Forall_forall in Hacts. apply (Hacts _ Hin).
Qed.

#[local] Instance kept_pre : PreOrder kept.
Proof.
  split.
  - intros s H. split; [assumption | auto].
  - intros s1 s2 s3 H12 H23 H1. destruct (H12 H1) as [H2 F12].
    destruct (H23 H2) as [H3 F23]. split; auto.
Qed.

Lemma kept_same (s s' : state) :
  sigactions s' = sigactions s -> nslcd_exitsignal s' = nslcd_exitsignal s ->
  kept s s'.
Proof.
  intros Ha Hf H. unfold handlers_nonzero in *. rewrite Ha, Hf. auto.
Qed.

Lemma kept_emit e : steps kept (emit e).
Proof. apply steps_modify. intro s. apply kept_same; reflexivity. Qed.

Lemma kept_modify g :
  (forall s, sigactions (g s) = sigactions s
             /\ nslcd_exitsignal (g s) = nslcd_exitsignal s) ->
  steps kept (modify g).
Proof. intros Hg. apply steps_modify. intro s. apply kept_same; apply Hg. Qed.

Lemma kept_ask c : steps kept (ask c).
Proof.
  refine (steps_ask _ _ _). intros s a w _ H. simp_state.
  split; [exact H|]. intro Hf. unfold handlers_nonzero in H. simp_state.
  apply flag_after_nonzero; assumption.
Qed.

Ltac kept_prim :=
  first [ apply kept_emit | apply kept_ask
        | apply kept_modify; intro; split; reflexivity
        | apply kept_modify; intros s0; destruct (stream_path _ s0);
          split; reflexivity ].

Ltac kept_body := open_bodies; cbv beta iota zeta; steps_with kept_prim.

(* ----------------------------------------------------------------- *)
(** *** Which signals arrived during a function *)

#[local] Instance during_pre : PreOrder during.
Proof.
  split.
  - intro s. split; [reflexivity|]. exists []. split; reflexivity.
  - intros s1 s2 s3 [A12 [u1 [W1 F1]]] [A23 [u2 [W2 F2]]].
    split; [congruence|]. exists (u1 ++ u2). split.
    + rewrite W1, W2. apply app_assoc.
    + rewrite flat_map_app, flag_after_app, <- F1, <- A12. exact F2.
Qed.

Lemma during_same (s s' : state) :
  sigactions s' = sigactions s -> world s' = world s ->
  nslcd_exitsignal s' = nslcd_exitsignal s -> during s s'.
Proof.
  intros Ha Hw Hf. split; [assumption|]. exists []. rewrite Hw, Hf. split; reflexivity.
Qed.

Lemma during_emit e : steps during (emit e).
Proof. apply steps_modify. intro s. apply during_same; reflexivity. Qed.

Lemma during_modify g :
  (forall s, sigactions (g s) = sigactions s /\ world (g s) = world s
             /\ nslcd_exitsignal (g s) = nslcd_exitsignal s) ->
  steps during (modify g).
Proof. intros Hg. apply steps_modify. intro s. apply during_same; apply Hg. Qed.

Lemma during_ask c : steps during (ask c).
Proof.
  refine (steps_ask _ _ _). intros s a w Hw. split; [reflexivity|].
  exists [a]. simp_state. split; [exact Hw|].
  cbn [flat_map]. rewrite app_nil_r. reflexivity.
Qed.

Ltac during_prim :=
  first [ apply during_emit | apply during_ask
        | apply during_modify; intro; repeat split; reflexivity ].

Ltac during_body := open_bodies; cbv beta iota zeta; steps_with during_prim.

(* ----------------------------------------------------------------- *)
(** *** The functions registered with atexit() *)

#[local] Instance same_atexit_pre : PreOrder same_atexit.
Proof.
  split.
  - intro s; reflexivity.
  - intros s1 s2 s3 H12 H23. unfold same_atexit in *. congruence.
Qed.

Lemma same_atexit_emit e : steps same_atexit (emit e).
Proof. apply steps_modify. intro s. reflexivity. Qed.

Lemma same_atexit_ask c : steps same_atexit (ask c).
Proof. refine (steps_ask _ _ _). intros s a w _. reflexivity. Qed.

Lemma same_atexit_modify g :
  (forall s, atexit_fns (g s) = atexit_fns s) -> steps same_atexit (modify g).
Proof. intros Hg. apply steps_modify. exact Hg. Qed.

Ltac same_atexit_prim :=
  first [ apply same_atexit_emit | apply same_atexit_ask
        | apply same_atexit_modify; intro; reflexivity
        | apply same_atexit_modify; intros s0; destruct (stream_path _ s0);
          reflexivity ].

(** as [open_bodies], but atexit() stays closed *)
Ltac open_bodies_but_atexit :=
  unfold parse_cmdline, display_usage, display_version, getopt_long,
    short_option, long_option, write_pidfile, fopen, fprintf, fclose,
    install_sighandler, sigaction, nslcd_server_open, exithandler,
    acceptconnection, handleconnection, close_socket, drop_privileges,
    nslcd_server_handlerequest, strerror_errno, log_log, lib, sys.

Ltac same_atexit_body :=
  open_bodies_but_atexit; cbv beta iota zeta; steps_with same_atexit_prim.

(* ----------------------------------------------------------------- *)
(** *** Parts of the state a function leaves alone *)

#[local] Instance unchanged_pre {A} (f : state -> A) : PreOrder (unchanged f).
Proof.
  split.
  - intro s; reflexivity.
  - intros s1 s2 s3 H12 H23. unfold unchanged in *. congruence.
Qed.

Ltac unchanged_prim :=
  first [ apply steps_modify; intro; reflexivity
        | refine (steps_ask _ _ _); intros; reflexivity
        | apply steps_modify; let st := fresh "st" in
          intro st; unfold unchanged; destruct (stream_path _ st); reflexivity ].

Ltac unchanged_body := open_bodies; cbv beta iota zeta; steps_with unchanged_prim.

#[local] Instance keeps_pre (P : state -> Prop) : PreOrder (keeps P).
Proof.
  split.
  - intros s H; exact H.
  - intros s1 s2 s3 H12 H23 H. apply H23, H12, H.
Qed.

(* ----------------------------------------------------------------- *)
(** *** Outcome by outcome *)

Lemma hoare_bind {A B} (P : state -> Prop) (Q : A -> state -> Prop)
    (Q' : B -> state -> Prop) (E : Z -> state -> Prop) (W : state -> Prop)
    (m : M A) (k : A -> M B) :
  hoare P m Q E W -> (forall a, hoare (Q a) (k a) Q' E W) ->
  hoare P (bind m k) Q' E W.
Proof.
  intros Hm Hk s HP. unfold bind. specialize (Hm s HP).
  destruct (m s) as [a s'|c s'|s']; cbn [meets] in *; auto.
  apply Hk, Hm.
Qed.

Lemma hoare_weaken {A} (P P' : state -> Prop) (Q Q' : A -> state -> Prop)
    (E E' : Z -> state -> Prop) (W W' : state -> Prop) (m : M A) :
  hoare P m Q E W ->
  (forall s, P' s -> P s) -> (forall a s, Q a s -> Q' a s) ->
  (forall c s, E c s -> E' c s) -> (forall s, W s -> W' s) ->
  hoare P' m Q' E' W'.
Proof.
  intros H HP HQ HE HW s Hs. specialize (H s (HP s Hs)).
  destruct (m s); cbn [meets] in *; auto.
Qed.

Lemma hoare_ret {A} (P : state -> Prop) (Q : A -> state -> Prop) E W (a : A) :
  (forall s, P s -> Q a s) -> hoare P (ret a) Q E W.
Proof. intros H s Hs. apply H, Hs. Qed.

Lemma hoare_gets {A} (P : state -> Prop) (Q : A -> state -> Prop) E W
    (f : state -> A) :
  (forall s, P s -> Q (f s) s) -> hoare P (gets f) Q E W.
Proof. intros H s Hs. apply H, Hs. Qed.

Lemma hoare_exit {A} (P : state -> Prop) (Q : A -> state -> Prop)
    (E : Z -> state -> Prop) W (c : Z) :
  (forall s, P s -> E c s) -> hoare P (@exit A c) Q E W.
Proof. intros H s Hs. apply H, Hs. Qed.

Lemma hoare_modify (P : state -> Prop) (Q : unit -> state -> Prop) E W
    (f : state -> state) :
  (forall s, P s -> Q tt (f s)) -> hoare P (modify f) Q E W.
Proof. intros H s Hs. apply H, Hs. Qed.

Lemma hoare_ask (P : state -> Prop) (Q : answer -> state -> Prop) E
    (W : state -> Prop) (c : call) :
  (forall s, P s -> world s = [] -> W s) ->
  (forall s a w, P s -> world s = a :: w -> Q a (after_ask c a w s)) ->
  hoare P (ask c) Q E W.
Proof.
  intros HW HQ s Hs. destruct (world s) as [|a w] eqn:Hw.
  - rewrite ask_nil by assumption. apply HW; assumption.
  - rewrite (ask_cons c s a w) by assumption. apply HQ; assumption.
Qed.

(** What holds wherever a function stops holds for each of its outcomes. *)
Lemma hoare_steps {A} (R : state -> state -> Prop) (P Q : state -> Prop)
    (m : M A) :
  steps R m -> (forall s s', P s -> R s s' -> Q s') ->
  hoare P m (fun _ => Q) (fun _ => Q) Q.
Proof.
  intros Hm H s Hs. specialize (Hm s).
  destruct (m s); cbn [meets final] in *; eapply H; eassumption.
Qed.

Lemma hoare_steps2 {A} (R1 R2 : state -> state -> Prop) (P Q : state -> Prop)
    (m : M A) :
  steps R1 m -> steps R2 m ->
  (forall s s', P s -> R1 s s' -> R2 s s' -> Q s') ->
  hoare P m (fun _ => Q) (fun _ => Q) Q.
Proof.
  intros H1 H2 H s Hs. specialize (H1 s). specialize (H2 s).
  destruct (m s); cbn [meets final] in *; eapply H; eassumption.
Qed.

(** Going through a body under an invariant [I]: every exit is checked
    against [E], every wait against [W]. *)
Ltac hoare_with prim :=
  repeat lazymatch goal with
    | |- hoare _ (ret _) _ _ _ => refine (hoare_ret _ _ _ _ _ _); prim
    | |- hoare _ (exit _) _ _ _ => refine (hoare_exit _ _ _ _ _ _); prim
    | |- hoare _ (gets _) _ _ _ => refine (hoare_gets _ _ _ _ _ _); prim
    | |- hoare ?I (bind _ _) _ _ _ =>
        refine (hoare_bind I (fun _ => I) _ _ _ _ _ _ _); [| intro]
    | |- hoare _ (if ?b then _ else _) _ _ _ => destruct b
    | |- hoare _ (match ?x with _ => _ end) _ _ _ => destruct x
    | |- hoare _ (let (_, _) := ?x in _) _ _ _ => destruct x
    | |- hoare _ (modify _) _ _ _ => refine (hoare_modify _ _ _ _ _ _); prim
    | |- hoare _ (emit _) _ _ _ => refine (hoare_modify _ _ _ _ _ _); prim
    | |- hoare _ (ask _) _ _ _ => refine (hoare_ask _ _ _ _ _ _ _); prim
    | |- hoare _ _ _ _ _ => prim
    end.

(* ----------------------------------------------------------------- *)
(** *** One kind of event before another *)

Lemma none_yet_preceded (p q : event -> bool) (s : state) :
  none_yet q s -> preceded_by p q (trace s).
Proof.
  intros H t1 e t2 Ht He. unfold none_yet in H.
  rewrite Ht, filter_app in H. cbn [filter] in H. rewrite He in H.
  destruct (filter q t1); discriminate H.
Qed.

Lemma passed_preceded (p q : event -> bool) (s : state) :
  passed p q s -> preceded_by p q (trace s).
Proof.
  intros [t0 [l [Ht [Hq [e0 [Hin Hp]]]]]] t1 e t2 Ht' He.
  rewrite Ht in Ht'. apply app_eq_app in Ht'.
  destruct Ht' as [l' [[H1 H2]|[H1 H2]]].
  - destruct l' as [|x l'].
    + rewrite app_nil_r in H1. subst t1. exists e0. split; assumption.
    + cbn [app] in H2. injection H2 as <- _.
      rewrite H1, filter_app in Hq. cbn [filter] in Hq. rewrite He in Hq.
      destruct (filter q t1); discriminate Hq.
  - exists e0. split; [|assumption]. rewrite H1. apply in_or_app. left. exact Hin.
Qed.

Lemma passed_grows (p q : event -> bool) (s s' : state) :
  passed p q s -> grows s s' -> passed p q s'.
Proof.
  intros [t0 [l [Ht H]]] [l' Hl]. exists t0, (l ++ l'). split; [|exact H].
  rewrite Hl, Ht. symmetry. apply app_assoc.
Qed.

Lemma none_yet_quiet (q : event -> bool) (s s' : state) :
  none_yet q s -> quiet q s s' -> none_yet q s'.
Proof. unfold none_yet, quiet. congruence. Qed.

(** the event that makes the difference *)
Lemma none_yet_passed (p q : event -> bool) (s : state) (t : list event)
    (e : event) :
  none_yet q s -> p e = true -> q e = false -> t = trace s ++ [e] ->
  filter q t = [] /\ passed p q (set_trace t s).
Proof.
  unfold none_yet. intros Hq Hp Hqe ->. 
  assert (F : filter q (trace s ++ [e]) = []).
  { rewrite filter_app, Hq. cbn [filter app]. rewrite Hqe. reflexivity. }
  split; [exact F|].
  exists (trace s ++ [e]), []. cbn [trace set_trace].
  split; [symmetry; apply app_nil_r|]. split; [exact F|].
  exists e. split; [apply in_or_app; right; left; reflexivity | exact Hp].
Qed.

Section Facts.

Variable cfg : build.

(* ----------------------------------------------------------------- *)
(** *** accept() fails *)

Lemma acceptconnection_accept_failed (s : state) (a : answer) (w : list answer) :
  world s = a :: w -> a_ret a < 0 ->
  exists s',
    acceptconnection cfg s = Ret tt s'
    /\ trace s' = trace s ++
         [Call (c_accept (nslcd_serversocket s)) (a_ret a);
          if transient (errno_after a s)
          then Log LOG_DEBUG "debug: accept() failed (ignored): %s"
                   [AStr (strerror cfg (errno_after a s))]
          else Log LOG_ERR "accept() failed: %s"
                   [AStr (strerror cfg (errno_after a s))]]
    /\ world s' = w
    /\ nslcd_exitsignal s'
       = flag_after (sigactions s) (a_sigs a) (nslcd_exitsignal s)
    /\ nslcd_serversocket s' = nslcd_serversocket s
    /\ sigactions s' = sigactions s
    /\ atexit_fns s' = atexit_fns s.
Proof.
  intros Hw Hneg. apply Z.ltb_lt in Hneg.
  unfold acceptconnection. run_prog. answer_next. rewrite Hneg.
  simp_state. unfold transient.
  destruct ((errno_after a s =? EINTR) || (errno_after a s =? EAGAIN)
            || (errno_after a s =? EWOULDBLOCK));
    (eexists; split; [reflexivity|]; simp_state; rewrite <- app_assoc;
     repeat split; reflexivity).
Qed.

(* ----------------------------------------------------------------- *)
(** *** Only the privilege drop makes the calls of the privilege drop *)

Lemma scan_argv_quiet_priv optstring longopts todo :
  steps (quiet is_priv) (scan_argv optstring longopts todo).
Proof.
  induction todo as [|w rest IH]; cbn [scan_argv]; [quiet_body|].
  destruct (classify w); quiet_body. exact IH.
Qed.

Lemma parse_cmdline_loop_quiet_priv fuel :
  steps (quiet is_priv) (parse_cmdline_loop cfg fuel).
Proof.
  induction fuel as [|n IH]; cbn [parse_cmdline_loop]; [quiet_body|].
  quiet_body; try apply scan_argv_quiet_priv; exact IH.
Qed.

Lemma parse_cmdline_quiet_priv : steps (quiet is_priv) (parse_cmdline cfg).
Proof. quiet_body. apply parse_cmdline_loop_quiet_priv. Qed.

Lemma write_pidfile_quiet_priv filename :
  steps (quiet is_priv) (write_pidfile cfg filename).
Proof. quiet_body. Qed.

Lemma install_sighandler_quiet_priv signum h :
  steps (quiet is_priv) (install_sighandler cfg signum h).
Proof. quiet_body. Qed.

Lemma acceptconnection_quiet_priv : steps (quiet is_priv) (acceptconnection cfg).
Proof. quiet_body. Qed.

Lemma serve_quiet_priv fuel : steps (quiet is_priv) (serve cfg fuel).
Proof.
  induction fuel as [|n IH]; cbn [serve]; [quiet_body|].
  steps_with quiet_prim; [apply acceptconnection_quiet_priv | exact IH].
Qed.

Lemma exithandler_quiet_priv : steps (quiet is_priv) (exithandler cfg).
Proof. quiet_body. Qed.

(* ----------------------------------------------------------------- *)
(** *** The calls of the privilege drop, in their order *)

(** case analysis on the next answer of the system *)
Ltac next_answer :=
  match goal with
  | |- context [ask ?c ?s] =>
      let ws := eval cbn [after_ask set_debugging set_exitsignal
                          set_serversocket set_errno set_getopt set_sigactions
                          set_atexit_fns set_files set_world set_trace world]
                in (world s) in
      let a := fresh "a" in let w := fresh "w" in let H := fresh "Hw" in
      destruct ws as [|a w] eqn:H;
      [ match goal with
        | |- context [ask ?c' ?s'] =>
            rewrite (ask_nil c' s') by (simp_state; first [assumption | reflexivity])
        end
      | match goal with
        | |- context [ask ?c' ?s'] =>
            rewrite (ask_cons c' s' a w)
              by (simp_state; first [assumption | reflexivity])
        end ];
      cbv beta iota
  end.

Ltac filter_trace :=
  simp_state; repeat rewrite filter_app; simpl filter;
  repeat rewrite app_nil_r.

Lemma drop_privileges_calls (mygid myuid : Z) (s : state) :
  filter is_priv (trace s) = [] ->
  drop_shape cfg mygid myuid
    (filter is_priv (trace (final (drop_privileges cfg mygid myuid s)))).
Proof.
  intro Hs. unfold drop_privileges, drop_shape, id_shape. fold id_none.
  destruct (HAVE_SETGROUPS cfg); run_prog;
    repeat first
      [ next_answer
      | match goal with
        | |- context [if negb (?x =? ?y) then _ else _] =>
            let E := fresh "E" in
            destruct (Z.eqb_spec x y) as [E|E]; cbn [negb]
        | |- context [if ?b then _ else _] => destruct b
        end ];
    filter_trace; rewrite Hs; cbn [app]; subst;
    repeat match goal with H : a_ret _ = 0 |- _ => rewrite H end;
    eauto 12.
Qed.

Lemma quiet_triple {A} (f : event -> bool) (X : list event -> Prop) (m : M A) :
  steps (quiet f) m ->
  triple (fun s => X (filter f (trace s))) m (fun s => X (filter f (trace s))).
Proof. intros H s Hs. rewrite (H s). exact Hs. Qed.

Ltac quiet_known :=
  first [ apply parse_cmdline_quiet_priv | apply write_pidfile_quiet_priv
        | apply install_sighandler_quiet_priv | apply acceptconnection_quiet_priv
        | apply serve_quiet_priv | apply exithandler_quiet_priv ].

Ltac quiet_main :=
  unfold atexit, nslcd_server_open, strerror_errno, log_log, lib, sys;
  steps_with ltac:(first [quiet_known | quiet_prim]).

Lemma drop_shape_nil mygid myuid : drop_shape cfg mygid myuid [].
Proof. unfold drop_shape, id_shape. destruct (HAVE_SETGROUPS cfg); auto. Qed.

Lemma startup_priv_calls (mygid myuid : Z) :
  triple (fun s => filter is_priv (trace s) = [])
         (startup cfg mygid myuid)
         (fun s => drop_shape cfg mygid myuid (filter is_priv (trace s))).
Proof.
  unfold startup.
  repeat (eapply (triple_bind _ (fun s => filter is_priv (trace s) = []));
          [ apply (quiet_triple is_priv (fun l => l = [])); solve [quiet_main]
          | intros s0 H0; rewrite H0; apply drop_shape_nil
          | intro ]).
  eapply (triple_bind _ (fun s => drop_shape cfg mygid myuid (filter is_priv (trace s))));
    [ intros s0 H0; apply drop_privileges_calls, H0
    | intros s0 H0; exact H0
    | intro ].
  apply (quiet_triple is_priv (drop_shape cfg mygid myuid)). quiet_main.
Qed.

Lemma main_from_priv_calls (mygid myuid : Z) (s : state) :
  filter is_priv (trace s) = [] ->
  drop_shape cfg mygid myuid
    (filter is_priv (trace (final (main_from cfg mygid myuid s)))).
Proof.
  revert s.
  change (triple (fun s => filter is_priv (trace s) = [])
                 (main_from cfg mygid myuid)
                 (fun s => drop_shape cfg mygid myuid (filter is_priv (trace s)))).
  unfold main_from.
  eapply (triple_bind _ (fun s => drop_shape cfg mygid myuid (filter is_priv (trace s))));
    [ apply startup_priv_calls | intros s0 H0; exact H0 | intro ].
  apply (quiet_triple is_priv (drop_shape cfg mygid myuid)). quiet_main.
Qed.

Lemma filter_split (f : event -> bool) (t t1 t2 : list event) (e : event) :
  t = t1 ++ e :: t2 -> f e = true ->
  filter f t = filter f t1 ++ e :: filter f t2.
Proof. intros -> He. rewrite filter_app. simpl. rewrite He. reflexivity. Qed.

Lemma preceded_by_filter (f p q : event -> bool) (t : list event) :
  (forall e, q e = true -> f e = true) ->
  preceded_by p q (filter f t) -> preceded_by p q t.
Proof.
  intros Hq H t1 e t2 Ht He.
  destruct (H _ _ _ (filter_split f t t1 t2 e Ht (Hq e He)) He) as [e' [Hin Hp]].
  exists e'. split; [|assumption]. apply filter_In in Hin. tauto.
Qed.

Lemma never_after_filter (f p q : event -> bool) (t : list event) :
  (forall e, p e = true -> f e = true) ->
  (forall e, q e = true -> f e = true) ->
  never_after p q (filter f t) -> never_after p q t.
Proof.
  intros Hp Hq H t1 e t2 Ht He e' Hin.
  destruct (q e') eqn:Hq'; [|reflexivity].
  rewrite <- Hq'. apply (H _ _ _ (filter_split f t t1 t2 e Ht (Hp e He)) He).
  apply filter_In. split; [assumption | apply Hq, Hq'].
Qed.

(** the ways to cut a short list in two around one of its elements *)
Ltac cut_list H :=
  match type of H with
  | _ = ?t1 ++ _ :: _ =>
      destruct t1; simpl in H;
      [ first [discriminate H | injection H as; subst]
      | first [discriminate H
              | let H1 := fresh in injection H as H1 H; subst; cut_list H] ]
  end.

Lemma drop_shape_order (mygid myuid : Z) (l : list event) :
  drop_shape cfg mygid myuid l ->
  (HAVE_SETGROUPS cfg = true -> preceded_by is_setgroups is_idchange l)
  /\ (mygid <> id_none -> preceded_by (setgid_done mygid) is_setuid l)
  /\ never_after is_setuid is_setgid l.
Proof.
  unfold drop_shape, id_shape. intro H.
  assert (Hg : setgid_done mygid (Call (c_setgid mygid) 0) = true)
    by (simpl; rewrite Z.eqb_refl; reflexivity).
  repeat split.
  - intros Hh t1 e t2 Ht He. rewrite Hh in H.
    destruct H as [->|[r [l' [-> [->|[[_ [r' ->]]|[[_ [r' ->]]|[_ [r' ->]]]]]]]]];
      destruct t1; simpl in Ht; try discriminate Ht;
      injection Ht as; subst; try discriminate He;
      exists (Call (c_setgroups 0) r); (split; [left; reflexivity|reflexivity]).
  - intros Hn t1 e t2 Ht He.
    destruct (HAVE_SETGROUPS cfg);
      [ destruct H as [->|[r [l' [-> H]]]]; [destruct t1; discriminate Ht|] |];
      destruct H as [->|[[_ [r' ->]]|[[_ [r' ->]]|[He' _]]]];
      try contradiction; cut_list Ht; try discriminate He;
      exists (Call (c_setgid mygid) 0); (split; [simpl; auto | exact Hg]).
  - intros t1 e t2 Ht He e' Hin.
    destruct (HAVE_SETGROUPS cfg);
      [ destruct H as [->|[r [l' [-> H]]]]; [destruct t1; discriminate Ht|] |];
      destruct H as [->|[[_ [r' ->]]|[[_ [r' ->]]|[_ [r' ->]]]]];
      cut_list Ht; try discriminate He; destruct Hin.
Qed.

(** C1: in every startup sequence the attempt to drop the supplementary
    groups (in a build that has setgroups()) comes before any setgid() or
    setuid(); when a target group is set, setgid() has returned 0 before
    setuid() is called; and no setgid() call ever follows a setuid()
    call. *)
Theorem privilege_drop_order (mygid myuid : Z) (s : state) :
  filter is_priv (trace s) = [] ->
  let t := trace (final (main_from cfg mygid myuid s)) in
  (HAVE_SETGROUPS cfg = true -> preceded_by is_setgroups is_idchange t)
  /\ (mygid <> id_none -> preceded_by (setgid_done mygid) is_setuid t)
  /\ never_after is_setuid is_setgid t.
Proof.
  intros Hs t.
  destruct (drop_shape_order mygid myuid _ (main_from_priv_calls mygid myuid s Hs))
    as [H1 [H2 H3]].
  assert (Sgid : forall e, is_setgid e = true -> is_priv e = true)
    by (intros e He; unfold is_priv; rewrite He; destruct (is_setgroups e); reflexivity).
  assert (Suid : forall e, is_setuid e = true -> is_priv e = true)
    by (intros e He; unfold is_priv; rewrite He;
        destruct (is_setgroups e), (is_setgid e); reflexivity).
  assert (Sid : forall e, is_idchange e = true -> is_priv e = true).
  { intros e He. unfold is_idchange in He. apply orb_true_iff in He.
    destruct He; auto. }
  repeat split.
  - intro Hh. apply (preceded_by_filter is_priv); auto.
  - intro Hn. apply (preceded_by_filter is_priv); auto.
  - apply (never_after_filter is_priv); auto.
Qed.

(* ----------------------------------------------------------------- *)
(** *** The program as built never changes its IDs *)

Lemma steps_quiet_sub {A} (f g : event -> bool) (m : M A) :
  (forall e, f e = true -> g e = true) ->
  steps (quiet g) m -> steps (quiet f) m.
Proof. intros Hsub H s. apply (quiet_sub f g); auto. Qed.

Lemma idchange_priv (e : event) : is_idchange e = true -> is_priv e = true.
Proof.
  unfold is_idchange, is_priv. intro H. apply orb_true_iff in H.
  destruct H as [H|H]; rewrite H; destruct (is_setgroups e);
    try destruct (is_setgid e); reflexivity.
Qed.

Lemma drop_privileges_none_quiet :
  steps (quiet is_idchange) (drop_privileges cfg id_none id_none).
Proof.
  unfold drop_privileges. fold id_none. rewrite Z.eqb_refl. cbn [negb].
  unfold strerror_errno, log_log, sys. steps_with quiet_prim.
Qed.

Ltac quiet_id :=
  first [ apply drop_privileges_none_quiet
        | apply (steps_quiet_sub is_idchange is_priv _ idchange_priv); quiet_known
        | quiet_prim ].

Lemma main_quiet_idchange : steps (quiet is_idchange) (main cfg).
Proof.
  unfold main, main_from, startup. fold id_none.
  unfold atexit, nslcd_server_open, strerror_errno, log_log, lib, sys.
  steps_with quiet_id.
Qed.

Lemma run_finalizers_quiet_idchange fs :
  steps (quiet is_idchange) (run_finalizers cfg fs).
Proof.
  induction fs as [|[] fs IH]; cbn [run_finalizers run_finalizer];
    steps_with quiet_id. exact IH.
Qed.

(** C10: the two locals of main hold (gid_t)-1 and (uid_t)-1 and are never
    assigned, so whatever the system answers, a run of the program adds
    no setgid() and no setuid() call to the trace - neither before it
    stops or waits, nor in its exit handler. *)
Theorem ids_never_changed (s : state) :
  id_none = 4294967295
  /\ main cfg = main_from cfg id_none id_none
  /\ filter is_idchange (trace (final (main cfg s)))
     = filter is_idchange (trace s)
  /\ filter is_idchange (trace (end_state (run cfg (main cfg) s)))
     = filter is_idchange (trace s).
Proof.
  split; [reflexivity|]. split; [reflexivity|].
  pose proof (main_quiet_idchange s) as Hm. unfold quiet in Hm.
  split; [exact Hm|].
  unfold run, c_exit.
  destruct (main cfg s) as [c s'|c s'|s'] eqn:E; cbn [final] in Hm;
    try (pose proof (run_finalizers_quiet_idchange (atexit_fns s') s') as Hf;
         unfold quiet in Hf;
         destruct (run_finalizers cfg (atexit_fns s') s');
         cbn [final end_state] in *; congruence).
Qed.

(* ----------------------------------------------------------------- *)
(** *** The accept loop *)

Lemma serve_step (n : nat) (s : state) :
  nslcd_exitsignal s = 0 ->
  serve cfg (S n) s = bind (acceptconnection cfg) (fun _ => serve cfg n) s.
Proof.
  intro H. cbn [serve]. unfold bind at 1. unfold gets. rewrite H. reflexivity.
Qed.

Lemma serve_stop (n : nat) (s : state) :
  nslcd_exitsignal s <> 0 -> serve cfg (S n) s = Ret tt s.
Proof.
  intro H. cbn [serve]. unfold bind, gets.
  destruct (Z.eqb_spec (nslcd_exitsignal s) 0); [contradiction | reflexivity].
Qed.

Lemma handleconnection_grows csock : steps grows (handleconnection cfg csock).
Proof. grows_body. Qed.

Lemma acceptconnection_grows : steps grows (acceptconnection cfg).
Proof. grows_body. Qed.

Lemma serve_grows n : steps grows (serve cfg n).
Proof.
  induction n as [|n IH]; cbn [serve]; [apply steps_blocked; exact _|].
  steps_with grows_prim; [apply acceptconnection_grows | exact IH].
Qed.

(** A round of the loop starts with accept() on the server socket. *)
Lemma serve_calls_accept (n : nat) (s : state) (a : answer) (w : list answer) :
  nslcd_exitsignal s = 0 -> world s = a :: w ->
  exists l, trace (final (serve cfg (S n) s))
            = trace s ++ Call (c_accept (nslcd_serversocket s)) (a_ret a) :: l.
Proof.
  intros Hf Hw. rewrite serve_step by assumption.
  unfold acceptconnection. rewrite bind_assoc, bind_gets, bind_assoc.
  apply (first_event_sys _ _ s a w); [|assumption].
  intro csock. refine (steps_bind _ _ _ _ _); [|intro; apply serve_grows].
  unfold close_socket, strerror_errno, log_log, sys.
  steps_with ltac:(first [apply handleconnection_grows | grows_prim]).
Qed.

(** C3: when accept() fails, acceptconnection logs the failure - at debug
    level for EINTR, EAGAIN and EWOULDBLOCK, at error level for any other
    errno - and returns to the loop; it neither exits nor touches the exit
    flag (only a signal delivered meanwhile does), and the next thing the
    loop does is to call accept() again on the server socket. *)
Theorem accept_failure_retried (s : state) (a : answer) (w : list answer) (n : nat) :
  world s = a :: w -> a_ret a < 0 ->
  exists s',
    acceptconnection cfg s = Ret tt s'
    /\ trace s' = trace s ++
         [Call (c_accept (nslcd_serversocket s)) (a_ret a);
          if transient (errno_after a s)
          then Log LOG_DEBUG "debug: accept() failed (ignored): %s"
                   [AStr (strerror cfg (errno_after a s))]
          else Log LOG_ERR "accept() failed: %s"
                   [AStr (strerror cfg (errno_after a s))]]
    /\ nslcd_exitsignal s'
       = flag_after (sigactions s) (a_sigs a) (nslcd_exitsignal s)
    /\ (a_sigs a = [] -> nslcd_exitsignal s' = nslcd_exitsignal s)
    /\ (nslcd_exitsignal s = 0 -> serve cfg (S n) s = serve cfg n s')
    /\ (nslcd_exitsignal s' = 0 ->
        forall a' w', w = a' :: w' ->
        exists l, trace (final (serve cfg (S n) s'))
                  = trace s' ++ Call (c_accept (nslcd_serversocket s)) (a_ret a') :: l).
Proof.
  intros Hw Hneg.
  destruct (acceptconnection_accept_failed s a w Hw Hneg)
    as [s' [Hret [Htr [Hworld [Hflag [Hsock [Hsig Hat]]]]]]].
  exists s'. repeat split; try assumption.
  - intro Hs. rewrite Hflag, Hs. reflexivity.
  - intro H0. rewrite serve_step by assumption. unfold bind. rewrite Hret.
    reflexivity.
  - intros H0 a' w' Hw'. rewrite <- Hsock.
    apply (serve_calls_accept n s' a' w'); [assumption | congruence].
Qed.

(* ----------------------------------------------------------------- *)
(** *** Dropping and dispatching a connection *)

Lemma close_socket_run (csock : Z) (s : state) (a : answer) (w : list answer) :
  world s = a :: w ->
  exists s',
    close_socket cfg csock s = Ret tt s'
    /\ trace s' = trace s ++ close_events cfg csock a (errno s)
    /\ world s' = w.
Proof.
  intro Hw. unfold close_socket. run_prog. answer_next. unfold close_events.
  destruct (a_ret a =? 0); cbn [negb];
    (eexists; split; [reflexivity|]; simp_state; split; [|reflexivity]).
  - reflexivity.
  - rewrite <- app_assoc. reflexivity.
Qed.

Lemma filter_new (f : event -> bool) (t l : list event) :
  filter f l = [] -> filter f (t ++ l) = filter f t.
Proof. intro H. rewrite filter_app, H. apply app_nil_r. Qed.

Lemma close_events_no_handler csock a e :
  filter is_handlerequest (close_events cfg csock a e) = [].
Proof. unfold close_events. destruct (a_ret a =? 0); reflexivity. Qed.

(** C5: handleconnection asks the kernel for the peer's credentials.  When
    the query fails it logs the error and closes the connection, and the
    request handler is not called; when it succeeds it logs pid, uid and
    gid at informational level and hands the connection to the request
    handler, and does not close it. *)
Theorem dispatch_by_peer_credentials (csock : Z) (s : state)
    (a a2 : answer) (w : list answer) :
  world s = a :: a2 :: w ->
  exists s',
    handleconnection cfg csock s = Ret tt s'
    /\ world s' = w
    /\ (a_ret a < 0 ->
        trace s' = trace s ++
          [Call (c_getsockopt_peercred csock) (a_ret a);
           Log LOG_ERR "getsockopt(SO_PEERCRED) failed: %s"
               [AStr (strerror cfg (errno_after a s))]]
          ++ close_events cfg csock a2 (errno_after a s)
        /\ filter is_handlerequest (trace s') = filter is_handlerequest (trace s))
    /\ (0 <= a_ret a ->
        trace s' = trace s ++
          [Call (c_getsockopt_peercred csock) (a_ret a);
           Log LOG_INFO "connection from pid=%d uid=%d gid=%d"
               [AInt (to_int (pid (a_cred a))); AInt (to_int (uid (a_cred a)));
                AInt (to_int (gid (a_cred a)))];
           Call (c_nslcd_server_handlerequest csock) (a_ret a2)]
        /\ filter is_close (trace s') = filter is_close (trace s)).
Proof.
  intro Hw. unfold handleconnection.
  cbv beta iota zeta delta [bind ret gets modify emit exit log_log lib sys
                            strerror_errno nslcd_server_handlerequest].
  answer_next.
  destruct (Z.ltb_spec (a_ret a) 0) as [Hneg|Hpos].
  - match goal with
    | |- context [close_socket cfg csock ?s1] =>
        destruct (close_socket_run csock s1 a2 w eq_refl) as [s' [Hc [Ht Hw']]]
    end.
    exists s'. split; [exact Hc|]. split; [exact Hw'|].
    split; [|intro; lia]. intros _. simp_state.
    assert (E : trace s' = trace s ++
          [Call (c_getsockopt_peercred csock) (a_ret a);
           Log LOG_ERR "getsockopt(SO_PEERCRED) failed: %s"
               [AStr (strerror cfg (errno_after a s))]]
          ++ close_events cfg csock a2 (errno_after a s)).
    { rewrite Ht. repeat rewrite <- app_assoc. reflexivity. }
    split; [exact E|]. rewrite E. apply filter_new.
    cbn [app filter is_handlerequest]. apply close_events_no_handler.
  - answer_next. eexists. split; [reflexivity|]. simp_state.
    split; [reflexivity|]. split; [intro; lia|]. intros _.
    repeat rewrite <- app_assoc. cbn [app]. split; [reflexivity|].
    apply filter_new. reflexivity.
Qed.

(* ----------------------------------------------------------------- *)
(** *** An accepted connection *)

Lemma clear_nonblock_bits (j : Z) :
  Z.testbit (Z.land j (Z.lnot O_NONBLOCK)) O_NONBLOCK_bit = false
  /\ forall i, 0 <= i -> i <> O_NONBLOCK_bit ->
     Z.testbit (Z.land j (Z.lnot O_NONBLOCK)) i = Z.testbit j i.
Proof.
  change O_NONBLOCK with (2 ^ O_NONBLOCK_bit). unfold O_NONBLOCK_bit. split.
  - rewrite Z.land_spec, Z.lnot_spec, Z.pow2_bits_true by lia.
    apply andb_false_r.
  - intros i Hi Hne.
    rewrite Z.land_spec, Z.lnot_spec, Z.pow2_bits_false by lia.
    apply andb_true_r.
Qed.

(** C4: after a successful accept() the flags of the new descriptor are
    read, and written back with O_NONBLOCK cleared and every other flag
    kept, before the connection is handled; when F_GETFL or F_SETFL
    fails the error is logged, the descriptor is closed, the request
    handler is not called, and acceptconnection returns to the loop. *)
Theorem nonblocking_cleared_before_handling (s : state)
    (a1 a2 a3 a4 : answer) (w : list answer) :
  world s = a1 :: a2 :: a3 :: a4 :: w -> 0 <= a_ret a1 ->
  let sock := nslcd_serversocket s in
  let csock := a_ret a1 in
  let flags := Z.land (a_ret a2) (Z.lnot O_NONBLOCK) in
  let e2 := errno_next a2 (errno_after a1 s) in
  let e3 := errno_next a3 e2 in
  (Z.testbit flags O_NONBLOCK_bit = false
   /\ forall i, 0 <= i -> i <> O_NONBLOCK_bit ->
      Z.testbit flags i = Z.testbit (a_ret a2) i)
  /\ (a_ret a2 < 0 ->
      exists s',
        acceptconnection cfg s = Ret tt s'
        /\ trace s' = trace s ++
             [Call (c_accept sock) csock;
              Call (c_fcntl_getfl csock) (a_ret a2);
              Log LOG_ERR "fctnl(F_GETFL) failed: %s" [AStr (strerror cfg e2)]]
             ++ close_events cfg csock a3 e2
        /\ filter is_handlerequest (trace s') = filter is_handlerequest (trace s))
  /\ (0 <= a_ret a2 -> a_ret a3 < 0 ->
      exists s',
        acceptconnection cfg s = Ret tt s'
        /\ trace s' = trace s ++
             [Call (c_accept sock) csock;
              Call (c_fcntl_getfl csock) (a_ret a2);
              Call (c_fcntl_setfl csock flags) (a_ret a3);
              Log LOG_ERR "fctnl(F_SETFL,~O_NONBLOCK) failed: %s"
                  [AStr (strerror cfg e3)]]
             ++ close_events cfg csock a4 e3
        /\ filter is_handlerequest (trace s') = filter is_handlerequest (trace s))
  /\ (0 <= a_ret a2 -> 0 <= a_ret a3 ->
      exists s3,
        acceptconnection cfg s = handleconnection cfg csock s3
        /\ trace s3 = trace s ++
             [Call (c_accept sock) csock;
              Call (c_fcntl_getfl csock) (a_ret a2);
              Call (c_fcntl_setfl csock flags) (a_ret a3)]
        /\ world s3 = a4 :: w).
Proof.
  intros Hw Hok sock csock flags e2 e3.
  split; [apply clear_nonblock_bits|].
  assert (Hacc : (a_ret a1 <? 0) = false) by (apply Z.ltb_ge; assumption).
  unfold acceptconnection.
  cbv beta iota zeta delta [bind ret gets modify emit exit log_log lib sys
                            strerror_errno].
  answer_next. rewrite Hacc. answer_next.
  split; [|split].
  - intro Hneg. apply Z.ltb_lt in Hneg. rewrite Hneg.
    match goal with
    | |- context [close_socket cfg ?c ?s1] =>
        destruct (close_socket_run c s1 a3 (a4 :: w) eq_refl) as [s' [Hc [Ht _]]]
    end.
    exists s'. split; [exact Hc|].
    assert (E : trace s' = trace s ++
             [Call (c_accept sock) csock;
              Call (c_fcntl_getfl csock) (a_ret a2);
              Log LOG_ERR "fctnl(F_GETFL) failed: %s" [AStr (strerror cfg e2)]]
             ++ close_events cfg csock a3 e2).
    { rewrite Ht. simp_state. repeat rewrite <- app_assoc. reflexivity. }
    split; [exact E|]. rewrite E. apply filter_new.
    cbn [app filter is_handlerequest]. apply close_events_no_handler.
  - intros Hpos Hneg. apply Z.ltb_ge in Hpos. rewrite Hpos.
    answer_next. apply Z.ltb_lt in Hneg. rewrite Hneg.
    match goal with
    | |- context [close_socket cfg ?c ?s1] =>
        destruct (close_socket_run c s1 a4 w eq_refl) as [s' [Hc [Ht _]]]
    end.
    exists s'. split; [exact Hc|].
    assert (E : trace s' = trace s ++
             [Call (c_accept sock) csock;
              Call (c_fcntl_getfl csock) (a_ret a2);
              Call (c_fcntl_setfl csock flags) (a_ret a3);
              Log LOG_ERR "fctnl(F_SETFL,~O_NONBLOCK) failed: %s"
                  [AStr (strerror cfg e3)]]
             ++ close_events cfg csock a4 e3).
    { rewrite Ht. simp_state. repeat rewrite <- app_assoc. reflexivity. }
    split; [exact E|]. rewrite E. apply filter_new.
    cbn [app filter is_handlerequest]. apply close_events_no_handler.
  - intros Hpos Hpos3. apply Z.ltb_ge in Hpos, Hpos3. rewrite Hpos.
    answer_next. rewrite Hpos3.
    eexists. split; [reflexivity|]. simp_state.
    repeat rewrite <- app_assoc. split; reflexivity.
Qed.

(* ----------------------------------------------------------------- *)
(** *** The PID file *)

Lemma fs_read_write (path c : string) (fs : list (string * string)) :
  fs_read path (fs_write path c fs) = Some c.
Proof.
  unfold fs_read. induction fs as [|[p c0] fs IH]; cbn [fs_write].
  - cbn [find fst]. rewrite String.eqb_refl. reflexivity.
  - destruct (String.eqb p path) eqn:E; cbn [find fst].
    + rewrite String.eqb_refl. reflexivity.
    + rewrite E. exact IH.
Qed.

Lemma chop_newline_app (d : string) : chop_newline (d ++ nl) = Some d.
Proof.
  induction d as [|c d IH]; [reflexivity|].
  change (String c d ++ nl)%string with (String c (d ++ nl)%string).
  cbn [chop_newline]. rewrite IH.
  destruct d; reflexivity.
Qed.

Lemma to_int_not_nil (z : Z) :
  Z.to_int z <> Decimal.Pos Decimal.Nil /\ Z.to_int z <> Decimal.Neg Decimal.Nil.
Proof.
  assert (E : Z.to_int z = Decimal.norm (Z.to_int z)).
  { rewrite <- (DecimalZ.to_of (Z.to_int z)), DecimalZ.of_to. reflexivity. }
  split; intro H; rewrite H in E; discriminate E.
Qed.

Lemma to_int_idem (z : Z) : to_int (to_int z) = to_int z.
Proof.
  unfold to_int.
  replace ((z + 2 ^ 31) mod 2 ^ 32 - 2 ^ 31 + 2 ^ 31) with ((z + 2 ^ 31) mod 2 ^ 32) by lia.
  rewrite Z.mod_mod by lia. reflexivity.
Qed.

Lemma length_line_pos (d : string) : (0 < String.length (d ++ nl))%nat.
Proof. destruct d; cbn [append nl String.length]; lia. Qed.

(** reading back what "%d\n" printed *)
Lemma read_pid_decimal (z : Z) : read_pid (decimal z ++ nl) = Some z.
Proof.
  unfold read_pid, decimal. rewrite chop_newline_app.
  destruct (to_int_not_nil z) as [H1 H2].
  rewrite NilZero.isi by assumption. cbn [option_map].
  rewrite DecimalZ.of_to. reflexivity.
Qed.

(** C7: write_pidfile leaves in the file the decimal PID that getpid()
    returned, followed by one newline, and nothing else, so that reading
    the file back gives the PID; and when fopen, fprintf or fclose fails
    it logs an error and calls exit(1). *)
Theorem pidfile_written_or_fatal (path : string) (s : state)
    (a1 a2 a3 a4 : answer) (w : list answer) :
  world s = a1 :: a2 :: a3 :: a4 :: w ->
  let mypid := to_int (a_ret a2) in
  (a_ret a1 <> 0 -> 0 <= a_ret a3 -> a_ret a4 = 0 ->
   exists s',
     write_pidfile cfg (Some path) s = Ret tt s'
     /\ fs_read path (files s') = Some (decimal mypid ++ nl)%string
     /\ read_pid (decimal mypid ++ nl) = Some mypid)
  /\ (a_ret a1 = 0 ->
      exists s',
        write_pidfile cfg (Some path) s = Exit 1 s'
        /\ trace s' = trace s ++
             [Call (c_fopen path "w") 0;
              Log LOG_ERR "cannot open pid file (%s): %s"
                  [AStr path; AStr (strerror cfg (errno_after a1 s))]])
  /\ (a_ret a1 <> 0 -> a_ret a3 < 0 ->
      exists s' t,
        write_pidfile cfg (Some path) s = Exit 1 s'
        /\ trace s' = t ++ [Log LOG_ERR "error writing pid file (%s)" [AStr path]])
  /\ (a_ret a1 <> 0 -> 0 <= a_ret a3 -> a_ret a4 <> 0 ->
      exists s' t e,
        write_pidfile cfg (Some path) s = Exit 1 s'
        /\ trace s' = t ++ [Log LOG_ERR "error writing pid file (%s): %s"
                                [AStr path; AStr (strerror cfg e)]]).
Proof.
  intros Hw mypid.
  unfold write_pidfile, fopen, fprintf, fclose.
  cbv beta iota zeta delta [bind ret gets modify emit exit log_log lib sys
                            strerror_errno].
  answer_next.
  repeat split.
  - intros H1 H3 H4. apply Z.eqb_neq in H1. rewrite !H1.
    answer_next. answer_next.
    apply Z.ltb_ge in H3. rewrite !H3.
    assert (Hlen : (Z.of_nat (String.length
                      (sprintf ("%d" ++ nl) [AInt (to_int (a_ret a2))])) <=? 0) = false).
    { apply Z.leb_gt. cbn [sprintf append nl Ascii.eqb Bool.eqb].
      pose proof (length_line_pos (decimal (to_int (to_int (a_ret a2))))).
      unfold nl in *. lia. }
    cbv beta iota. rewrite !Hlen.
    unfold stream_path. simp_state. cbn [find fst snd option_map].
    rewrite !Z.eqb_refl. cbn [option_map snd]. rewrite !fs_read_write.
    answer_next. rewrite !H4. cbn [Z.eqb negb].
    eexists. split; [reflexivity|]. split; [|apply read_pid_decimal].
    simp_state. rewrite fs_read_write.
    cbn [sprintf append nl Ascii.eqb Bool.eqb].
    rewrite to_int_idem. reflexivity.
  - intros H1. rewrite !H1. cbn [Z.eqb].
    eexists. split; [reflexivity|]. simp_state. rewrite <- app_assoc.
    rewrite H1. reflexivity.
  - intros H1 H3. apply Z.eqb_neq in H1. rewrite !H1.
    answer_next. answer_next. apply Z.ltb_lt in H3. rewrite !H3.
    cbv beta iota.
    assert (Hr : (a_ret a3 <=? 0) = true) by (apply Z.leb_le; apply Z.ltb_lt in H3; lia).
    rewrite Hr. eexists. eexists. split; reflexivity.
  - intros H1 H3 H4. apply Z.eqb_neq in H1. rewrite !H1.
    answer_next. answer_next. apply Z.ltb_ge in H3. rewrite !H3.
    assert (Hlen : (Z.of_nat (String.length
                      (sprintf ("%d" ++ nl) [AInt (to_int (a_ret a2))])) <=? 0) = false).
    { apply Z.leb_gt. cbn [sprintf append nl Ascii.eqb Bool.eqb].
      pose proof (length_line_pos (decimal (to_int (to_int (a_ret a2))))).
      unfold nl in *. lia. }
    cbv beta iota. rewrite !Hlen.
    unfold stream_path. simp_state. cbn [find fst snd option_map].
    rewrite !Z.eqb_refl. cbn [option_map snd]. rewrite !fs_read_write.
    answer_next. apply Z.eqb_neq in H4. rewrite !H4. cbn [negb].
    eexists. eexists. eexists. split; reflexivity.
Qed.

(* ----------------------------------------------------------------- *)
(** *** Leaving the loop *)

Lemma serve_returns_flagged (n : nat) (s s' : state) :
  serve cfg n s = Ret tt s' -> nslcd_exitsignal s' <> 0.
Proof.
  revert s. induction n as [|n IH]; intros s H; [discriminate H|].
  destruct (Z.eq_dec (nslcd_exitsignal s) 0) as [E|E].
  - rewrite serve_step in H by assumption. unfold bind in H.
    destruct (acceptconnection cfg s) as [[] s1|c s1|s1]; try discriminate H.
    apply (IH s1 H).
  - rewrite serve_stop in H by assumption. injection H as <-. assumption.
Qed.

Lemma signame_unknown (signum : Z) :
  ~ In signum known_signals -> signame signum = "UNKNOWN".
Proof.
  intro H. unfold signame.
  repeat match goal with
         | |- (if signum =? ?c then _ else _) = _ =>
             destruct (Z.eqb_spec signum c) as [->|_];
             [ exfalso; apply H; unfold known_signals;
               repeat first [left; reflexivity | right] | ]
         end.
  reflexivity.
Qed.

Lemma main_from_returns (mygid myuid : Z) (s s' : state) (code : Z) :
  main_from cfg mygid myuid s = Ret code s' ->
  code = 1
  /\ nslcd_exitsignal s' <> 0
  /\ exists t, trace s' = t ++ [caught_signal (nslcd_exitsignal s')].
Proof.
  unfold main_from. intro H.
  unfold bind at 1 in H.
  destruct (startup cfg mygid myuid s) as [[] s1|c s1|s1]; try discriminate H.
  rewrite bind_gets in H. unfold bind at 1 in H.
  destruct (serve cfg (S (List.length (world s1))) s1) as [[] s2|c s2|s2] eqn:Hserve;
    try discriminate H.
  apply serve_returns_flagged in Hserve.
  rewrite bind_gets in H.
  destruct (Z.eqb_spec (nslcd_exitsignal s2) 0) as [E|E]; [contradiction|].
  cbn [negb] in H. unfold log_log, emit, modify, bind, ret in H.
  injection H as <- <-. simp_state.
  split; [reflexivity|]. split; [assumption|].
  exists (trace s2). reflexivity.
Qed.

(** C8: the loop is left only with the exit flag set; main then logs
    "caught signal NAME (N), shutting down" for the flag's value N, where
    NAME is "UNKNOWN" for a number signame has no case for, and returns
    1, so the process ends with the nonzero exit status 1. *)
Theorem shutdown_logs_signal_and_fails (mygid myuid : Z) (s s' : state) (code : Z) :
  main_from cfg mygid myuid s = Ret code s' ->
  let sig := nslcd_exitsignal s' in
  sig <> 0
  /\ (exists t, trace s' = t ++ [caught_signal sig])
  /\ rendered (caught_signal sig)
     = ("caught signal " ++ signame sig ++ " (" ++ decimal (to_int sig)
        ++ "), shutting down")%string
  /\ (~ In sig known_signals -> signame sig = "UNKNOWN")
  /\ rendered (caught_signal SIGTERM) = "caught signal SIGTERM (15), shutting down"
  /\ code = 1
  /\ (forall status s'', run cfg (main_from cfg mygid myuid) s = Terminated status s'' ->
      status = 1).
Proof.
  intros H sig.
  destruct (main_from_returns mygid myuid s s' code H) as [Hc [Hf Ht]].
  split; [exact Hf|]. split; [exact Ht|]. split; [reflexivity|].
  split; [apply signame_unknown|]. split; [reflexivity|]. split; [exact Hc|].
  intros status s'' Hrun. unfold run in Hrun. rewrite H, Hc in Hrun.
  unfold c_exit in Hrun.
  destruct (run_finalizers cfg (atexit_fns s') s'); try discriminate Hrun;
    injection Hrun as <- _; reflexivity.
Qed.

(* ----------------------------------------------------------------- *)
(** *** The signal bridge *)

Lemma bind_ret_inv {A B} (m : M A) (k : A -> M B) (s s' : state) (b : B) :
  bind m k s = Ret b s' -> exists a s1, m s = Ret a s1 /\ k a s1 = Ret b s'.
Proof.
  unfold bind. destruct (m s) as [a s1|c s1|s1]; intro H; try discriminate H.
  exists a, s1. split; [reflexivity | exact H].
Qed.

Lemma handled_cons (s s1 : state) (signum sg : Z) :
  sigactions s1 = (signum, h_sigexit_handler) :: sigactions s ->
  handled s sg -> handled s1 sg.
Proof.
  unfold handled. intros -> H. cbn [find fst].
  destruct (Z.eqb_spec signum sg) as [->|_]; [reflexivity | exact H].
Qed.

Lemma install_sighandler_ret (signum : Z) (s s' : state) :
  install_sighandler cfg signum h_sigexit_handler s = Ret tt s' ->
  handled s' signum /\ (forall sg, handled s sg -> handled s' sg).
Proof.
  unfold install_sighandler, sigaction, sys. intro H.
  destruct (world s) as [|a w] eqn:Hw.
  - cbv beta iota delta [bind] in H. rewrite (ask_nil _ s Hw) in H. discriminate H.
  - cbv beta iota delta [bind ret] in H. rewrite (ask_cons _ s a w Hw) in H.
    cbv beta iota in H.
    destruct (a_ret a =? 0) eqn:E;
      cbv beta iota delta [bind ret modify strerror_errno log_log emit
                           gets exit] in H;
      rewrite E in H; cbn [negb] in H; [|discriminate H].
    + injection H as <-. split.
      * unfold handled. simp_state. cbn [find fst]. rewrite Z.eqb_refl. reflexivity.
      * intros sg Hsg. apply (handled_cons s _ signum); [reflexivity | exact Hsg].
Qed.

Lemma startup_installs (mygid myuid : Z) (s0 s : state) :
  startup cfg mygid myuid s0 = Ret tt s ->
  forall sg, In sg exit_signals -> handled s sg.
Proof.
  unfold startup. intro H.
  do 11 (apply bind_ret_inv in H; destruct H as (? & ? & _ & H)).
  repeat match type of H with
         | bind (install_sighandler _ _ _) _ _ = _ =>
             let I := fresh "I" in
             apply bind_ret_inv in H; destruct H as ([] & ? & I & H);
             apply install_sighandler_ret in I
         end.
  unfold log_log, emit, modify in H. injection H as <-.
  unfold handled in *. simp_state.
  intros sg Hsg. unfold exit_signals in Hsg. cbn [In] in Hsg.
  repeat match goal with
         | I : _ /\ _ |- _ => destruct I
         end.
  repeat (destruct Hsg as [<-|Hsg]; [auto 20|]). contradiction.
Qed.

Lemma exit_signals_nonzero (sg : Z) : In sg exit_signals -> sg <> 0.
Proof.
  unfold exit_signals. cbn [In]. intro H.
  repeat (destruct H as [<-|H]; [discriminate|]). contradiction.
Qed.

(** the flag survives every function that runs once it may be set *)
Lemma acceptconnection_kept : steps kept (acceptconnection cfg).
Proof. kept_body. Qed.

Lemma serve_kept n : steps kept (serve cfg n).
Proof.
  induction n as [|n IH]; cbn [serve]; [apply steps_blocked; exact _|].
  steps_with kept_prim; [apply acceptconnection_kept | exact IH].
Qed.

Lemma exithandler_kept : steps kept (exithandler cfg).
Proof. kept_body. Qed.

Lemma acceptconnection_during : steps during (acceptconnection cfg).
Proof. during_body. Qed.

Lemma kept_sigaction_modify (signum : Z) (h : handler) :
  signum <> 0 ->
  steps kept (modify (fun s => set_sigactions ((signum, h) :: sigactions s) s)).
Proof.
  intro Hn. apply steps_modify. intros s H. unfold handlers_nonzero in *.
  simp_state. split; [|auto]. constructor; assumption.
Qed.

Lemma install_sighandler_kept (signum : Z) (h : handler) :
  signum <> 0 -> steps kept (install_sighandler cfg signum h).
Proof.
  intro Hn. open_bodies.
  steps_with ltac:(first [apply kept_sigaction_modify; exact Hn | kept_prim]).
Qed.

Lemma scan_argv_kept optstring longopts todo :
  steps kept (scan_argv optstring longopts todo).
Proof.
  induction todo as [|w rest IH]; cbn [scan_argv]; [kept_body|].
  destruct (classify w); kept_body. exact IH.
Qed.

Lemma parse_cmdline_loop_kept fuel : steps kept (parse_cmdline_loop cfg fuel).
Proof.
  induction fuel as [|n IH]; cbn [parse_cmdline_loop]; [kept_body|].
  kept_body; try apply scan_argv_kept; exact IH.
Qed.

Lemma parse_cmdline_kept : steps kept (parse_cmdline cfg).
Proof. kept_body. apply parse_cmdline_loop_kept. Qed.

Lemma write_pidfile_kept filename : steps kept (write_pidfile cfg filename).
Proof. kept_body. Qed.

Lemma drop_privileges_kept mygid myuid :
  steps kept (drop_privileges cfg mygid myuid).
Proof. unfold drop_privileges. kept_body. Qed.

Lemma startup_kept mygid myuid : steps kept (startup cfg mygid myuid).
Proof.
  unfold startup, atexit, nslcd_server_open, strerror_errno, log_log, lib, sys.
  steps_with ltac:(first
    [ apply parse_cmdline_kept | apply write_pidfile_kept
    | apply drop_privileges_kept
    | apply install_sighandler_kept; discriminate
    | kept_prim ]).
Qed.

Lemma main_from_kept mygid myuid : steps kept (main_from cfg mygid myuid).
Proof.
  unfold main_from, log_log.
  steps_with ltac:(first [apply startup_kept | apply serve_kept | kept_prim]).
Qed.

(** C2: once main has installed its handlers, delivering one of the eight
    signals runs sigexit_handler, which stores the signal's number in
    nslcd_exitsignal and changes nothing else; nothing the program does
    afterwards brings a set flag back to 0; and the loop stops at its next
    test of the flag: at once when the flag is set, and right after the
    acceptconnection call in progress when the signal arrives during
    it. *)
Theorem exit_signal_sets_flag_for_good (mygid myuid : Z) (s0 s : state) (sg : Z) :
  handlers_nonzero s0 ->
  startup cfg mygid myuid s0 = Ret tt s ->
  In sg exit_signals ->
  sg <> 0
  /\ (forall s1, sigactions s1 = sigactions s ->
      deliver s1 sg = sigexit_handler sg s1
      /\ nslcd_exitsignal (deliver s1 sg) = sg
      /\ set_exitsignal (nslcd_exitsignal s1) (deliver s1 sg) = s1)
  /\ handlers_nonzero s
  /\ (forall s1, handlers_nonzero s1 -> nslcd_exitsignal s1 <> 0 ->
      (forall sg', nslcd_exitsignal (deliver s1 sg') <> 0)
      /\ (forall c, nslcd_exitsignal (final (ask c s1)) <> 0)
      /\ nslcd_exitsignal (final (acceptconnection cfg s1)) <> 0
      /\ (forall n, nslcd_exitsignal (final (serve cfg n s1)) <> 0)
      /\ nslcd_exitsignal (final (exithandler cfg s1)) <> 0
      /\ nslcd_exitsignal (final (main_from cfg mygid myuid s1)) <> 0)
  /\ (forall s1 n, nslcd_exitsignal s1 <> 0 -> serve cfg (S n) s1 = Ret tt s1)
  /\ (forall s1 s2 used n,
      sigactions s1 = sigactions s -> nslcd_exitsignal s1 = 0 ->
      acceptconnection cfg s1 = Ret tt s2 -> world s1 = used ++ world s2 ->
      (exists a, In a used /\ In sg (a_sigs a)) ->
      nslcd_exitsignal s2 <> 0 /\ serve cfg (S (S n)) s1 = Ret tt s2).
Proof.
  intros H0 Hstart Hsg.
  pose proof (startup_installs mygid myuid s0 s Hstart sg Hsg) as Hh.
  pose proof (startup_kept mygid myuid s0 H0) as [Hnz _].
  rewrite Hstart in Hnz. cbn [final] in Hnz.
  split; [apply exit_signals_nonzero, Hsg|].
  split; [|split; [exact Hnz|split; [|split]]].
  - intros s1 Hs1.
    assert (E : deliver s1 sg = sigexit_handler sg s1).
    { unfold deliver. unfold handled in Hh. rewrite Hs1, Hh. reflexivity. }
    rewrite E. split; [reflexivity|]. split; [reflexivity|].
    destruct s1; reflexivity.
  - intros s1 H1 Hf. repeat split.
    + intro sg'. rewrite deliver_flag. simp_state.
      apply flag_after_nonzero; assumption.
    + intro c. apply (kept_ask c s1 H1), Hf.
    + apply (acceptconnection_kept s1 H1), Hf.
    + intro n. apply (serve_kept n s1 H1), Hf.
    + apply (exithandler_kept s1 H1), Hf.
    + apply (main_from_kept mygid myuid s1 H1), Hf.
  - intros s1 n Hf. apply serve_stop, Hf.
  - intros s1 s2 used n Hacts Hf Hret Hused [a [Ha Hin]].
    destruct (acceptconnection_during s1) as [Hsame [used' [Hw Hflag]]].
    rewrite Hret in Hsame, Hw, Hflag. cbn [final] in Hsame, Hw, Hflag.
    assert (used' = used) by (apply (app_inv_tail (world s2)); congruence).
    subst used'.
    assert (Hset : nslcd_exitsignal s2 <> 0).
    { rewrite Hflag, Hacts. apply (flag_after_handled _ _ _ sg).
      - exact Hnz.
      - apply in_flat_map. exists a. split; assumption.
      - exact Hh. }
    split; [exact Hset|].
    rewrite serve_step by assumption. unfold bind. rewrite Hret.
    apply serve_stop, Hset.
Qed.

(* ----------------------------------------------------------------- *)
(** *** The exit handler *)

Lemma scan_argv_same_atexit optstring longopts todo :
  steps same_atexit (scan_argv optstring longopts todo).
Proof.
  induction todo as [|w rest IH]; cbn [scan_argv]; [same_atexit_body|].
  destruct (classify w); same_atexit_body. exact IH.
Qed.

Lemma parse_cmdline_same_atexit : steps same_atexit (parse_cmdline cfg).
Proof.
  assert (L : forall fuel, steps same_atexit (parse_cmdline_loop cfg fuel)).
  { induction fuel as [|n IH]; cbn [parse_cmdline_loop]; [same_atexit_body|].
    same_atexit_body; try apply scan_argv_same_atexit; exact IH. }
  same_atexit_body. apply L.
Qed.

Lemma serve_same_atexit n : steps same_atexit (serve cfg n).
Proof.
  induction n as [|n IH]; cbn [serve]; [apply steps_blocked; exact _|].
  same_atexit_body. exact IH.
Qed.

Lemma same_atexit_triple {A} (X : list finalizer -> Prop) (m : M A) :
  steps same_atexit m ->
  triple (fun s => X (atexit_fns s)) m (fun s => X (atexit_fns s)).
Proof. intros Hm s Hs. rewrite (Hm s). exact Hs. Qed.

Lemma startup_atexit (mygid myuid : Z) :
  triple (fun s => atexit_fns s = [])
         (startup cfg mygid myuid)
         (fun s => registered (atexit_fns s)).
Proof.
  unfold startup.
  repeat (eapply (triple_bind _ (fun s => atexit_fns s = []));
          [ apply (same_atexit_triple (fun l => l = []));
            solve [first [apply parse_cmdline_same_atexit | same_atexit_body]]
          | intros s0 H0; left; exact H0
          | intro ]).
  eapply (triple_bind _ (fun s => atexit_fns s = [f_exithandler]));
    [ intros s0 H0; unfold atexit, lib, emit, modify, bind; simp_state;
      rewrite H0; reflexivity
    | intros s0 H0; right; exact H0
    | intro ].
  eapply triple_weaken;
    [ apply (same_atexit_triple (fun l => l = [f_exithandler]))
    | intros s0 H0; exact H0
    | intros s0 H0; right; exact H0 ].
  same_atexit_body.
Qed.

(** main registers exithandler once and nothing else *)
Lemma main_from_atexit (mygid myuid : Z) (s : state) :
  atexit_fns s = [] ->
  registered (atexit_fns (final (main_from cfg mygid myuid s))).
Proof.
  revert s.
  change (triple (fun s => atexit_fns s = [])
                 (main_from cfg mygid myuid)
                 (fun s => registered (atexit_fns s))).
  unfold main_from.
  eapply (triple_bind _ (fun s => registered (atexit_fns s)));
    [ apply startup_atexit | intros s0 H0; exact H0 | intro ].
  apply (same_atexit_triple registered).
  same_atexit_body; apply serve_same_atexit.
Qed.

(** C9 (as the code has it): with an invalid (negative) descriptor the
    exit handler makes no close() call and only logs its last line; with
    a valid one every invocation makes one close() call on it and leaves
    the handle as it was - the handler does not invalidate it, so it is
    not idempotent; main registers it with atexit() once, so exit() runs
    it once. *)
Theorem listener_closed_once_per_invocation (s : state) :
  (nslcd_serversocket s < 0 ->
   exithandler cfg s
   = Ret tt (set_trace (trace s ++ [Log LOG_INFO "version %s bailing out"
                                        [AStr (VERSION cfg)]]) s))
  /\ (0 <= nslcd_serversocket s ->
      forall a w, world s = a :: w ->
      exists s',
        exithandler cfg s = Ret tt s'
        /\ filter is_close (trace s')
           = filter is_close (trace s)
             ++ [Call (c_close (nslcd_serversocket s)) (a_ret a)]
        /\ nslcd_serversocket s' = nslcd_serversocket s)
  /\ (forall mygid myuid,
      atexit_fns s = [] ->
      registered (atexit_fns (final (main_from cfg mygid myuid s))))
  /\ run_finalizers cfg [f_exithandler] s
     = bind (exithandler cfg) (fun _ => ret tt) s.
Proof.
  split; [|split; [|split]].
  - intro Hneg. unfold exithandler.
    cbv beta iota zeta delta [bind ret gets modify emit log_log].
    assert (E : (nslcd_serversocket s >=? 0) = false)
      by (rewrite Z.geb_leb; apply Z.leb_gt; lia).
    rewrite E. reflexivity.
  - intros Hpos a w Hw. unfold exithandler.
    cbv beta iota zeta delta [bind ret gets modify emit log_log sys strerror_errno].
    assert (E : (nslcd_serversocket s >=? 0) = true)
      by (rewrite Z.geb_leb; apply Z.leb_le; lia).
    rewrite E. answer_next.
    destruct (a_ret a =? 0); cbn [negb];
      (eexists; split; [reflexivity|]; simp_state; split; [|reflexivity]);
      repeat rewrite filter_app; cbn [filter is_close];
      repeat rewrite app_nil_r; reflexivity.
  - intros mygid myuid. apply main_from_atexit.
  - reflexivity.
Qed.

(* ----------------------------------------------------------------- *)
(** *** getopt_long and the loop of parse_cmdline *)

Lemma classify_short (w : string) (c : ascii) (cs : string) :
  classify w = ShortOpts c cs -> w = String "-" (String c cs).
Proof.
  destruct w as [|a [|b r]]; try discriminate. cbn [classify].
  destruct (Ascii.eqb_spec a "-"); [|discriminate].
  destruct (Ascii.eqb_spec b "-"); [destruct r; discriminate|].
  intro H. injection H as <- <-. subst a. reflexivity.
Qed.

Lemma scan_argv_returns optstring longopts todo s :
  exists optc s1,
    scan_argv optstring longopts todo s = Ret optc s1
    /\ (optc <> -1 -> (getopt_measure s1 < todo_measure todo)%nat).
Proof.
  revert s. induction todo as [|w rest IH]; intro s; cbn [scan_argv].
  - eexists. eexists. split; [reflexivity|]. intro H; contradiction H; reflexivity.
  - destruct (classify w) eqn:Hc.
    + unfold bind at 1, modify.
      destruct (IH (set_getopt (g_done s) (g_skipped s ++ [w]) rest "" s))
        as [optc [s1 [H1 H2]]].
      exists optc, s1. split; [exact H1|]. intro Hn. specialize (H2 Hn).
      cbn [todo_measure fold_right]. unfold todo_measure in H2. lia.
    + eexists. eexists. split; [reflexivity|]. intro H; contradiction H; reflexivity.
    + unfold bind at 1, modify, long_option.
      destruct (split_eq body) as [nm has_eq].
      destruct (lookup_long longopts nm) as [o|];
        [destruct (has_eq && (has_arg o =? no_argument))|];
        (eexists; eexists; split; [reflexivity|]; intros _;
         unfold getopt_measure; simp_state;
         cbn [todo_measure fold_right String.length]; lia).
    + apply classify_short in Hc. subst w.
      unfold bind at 1, modify, short_option.
      destruct (in_optstring c optstring);
        (eexists; eexists; split; [reflexivity|]; intros _;
         unfold getopt_measure; simp_state;
         cbn [todo_measure fold_right String.length]; lia).
Qed.

Lemma getopt_long_returns optstring longopts s :
  exists optc s1,
    getopt_long optstring longopts s = Ret optc s1
    /\ (optc <> -1 -> (getopt_measure s1 < getopt_measure s)%nat).
Proof.
  unfold getopt_long. rewrite bind_gets.
  destruct (g_nextchar s) as [|c cs] eqn:Hn.
  - rewrite bind_gets.
    destruct (scan_argv_returns optstring longopts (g_todo s) s) as [optc [s1 [H1 H2]]].
    exists optc, s1. split; [exact H1|]. intro H. specialize (H2 H).
    unfold getopt_measure at 2. rewrite Hn. exact H2.
  - unfold short_option.
    destruct (in_optstring c optstring);
      (eexists; eexists; split; [reflexivity|]; intros _;
       unfold getopt_measure; simp_state; rewrite Hn;
       cbn [String.length]; lia).
Qed.

Lemma parse_cmdline_loop_S (n : nat) :
  parse_cmdline_loop cfg (S n)
  = (optc <- getopt_long NSLCD_OPTIONSTRING nslcd_options ;;
     if optc =? -1 then ret tt
     else switch_on cfg optc ;; parse_cmdline_loop cfg n).
Proof. reflexivity. Qed.

Lemma switch_on_ret (optc : Z) (s s' : state) :
  switch_on cfg optc s = Ret tt s' -> getopt_measure s' = getopt_measure s.
Proof.
  unfold switch_on.
  destruct (optc =? char_code "d");
    [|destruct (optc =? char_code "h"); [|destruct (optc =? char_code "V")]];
    cbv beta iota zeta delta [bind ret gets modify emit exit lib fprintf
                              display_usage display_version];
    intro H; try discriminate H.
  injection H as <-. reflexivity.
Qed.

(** More fuel than getopt_long has left to read is never used up. *)
Lemma parse_cmdline_loop_fuel (n m : nat) (s : state) :
  (getopt_measure s < n)%nat -> (getopt_measure s < m)%nat ->
  parse_cmdline_loop cfg n s = parse_cmdline_loop cfg m s.
Proof.
  revert m s. induction n as [|n IH]; intros m s Hn Hm; [lia|].
  destruct m as [|m]; [lia|].
  rewrite !parse_cmdline_loop_S. unfold bind at 1 3.
  destruct (getopt_long_returns NSLCD_OPTIONSTRING nslcd_options s)
    as [optc [s1 [H1 H2]]].
  rewrite H1. destruct (Z.eqb_spec optc (-1)) as [E|E]; [reflexivity|].
  specialize (H2 E). unfold bind.
  destruct (switch_on cfg optc s1) as [[] s2|c s2|s2] eqn:Hsw; try reflexivity.
  apply switch_on_ret in Hsw. apply IH; lia.
Qed.

Lemma parse_cmdline_unfold (s : state) :
  parse_cmdline cfg s
  = bind (parse_cmdline_loop cfg (S (getopt_measure s)))
         (fun _ => check_remaining cfg) s.
Proof. reflexivity. Qed.

Lemma parse_cmdline_option (s s1 : state) (optc : Z) :
  getopt_long NSLCD_OPTIONSTRING nslcd_options s = Ret optc s1 ->
  optc <> -1 ->
  parse_cmdline cfg s = bind (switch_on cfg optc) (fun _ => parse_cmdline cfg) s1.
Proof.
  intros H Hn.
  destruct (getopt_long_returns NSLCD_OPTIONSTRING nslcd_options s)
    as [optc' [s1' [H1 H2]]].
  rewrite H in H1. injection H1 as <- <-. specialize (H2 Hn).
  rewrite parse_cmdline_unfold, parse_cmdline_loop_S, bind_assoc.
  unfold bind at 1. rewrite H. cbv beta iota.
  destruct (Z.eqb_spec optc (-1)) as [E|_]; [contradiction|].
  rewrite bind_assoc. unfold bind at 1 3.
  destruct (switch_on cfg optc s1) as [[] s2|c s2|s2] eqn:Hsw; try reflexivity.
  apply switch_on_ret in Hsw.
  rewrite parse_cmdline_unfold. unfold bind.
  rewrite (parse_cmdline_loop_fuel (getopt_measure s) (S (getopt_measure s2)) s2) by lia.
  reflexivity.
Qed.

Lemma parse_cmdline_done (s s1 : state) :
  getopt_long NSLCD_OPTIONSTRING nslcd_options s = Ret (-1) s1 ->
  parse_cmdline cfg s = check_remaining cfg s1.
Proof.
  intro H.
  rewrite parse_cmdline_unfold, parse_cmdline_loop_S, bind_assoc.
  unfold bind at 1. rewrite H. reflexivity.
Qed.

(* ----------------------------------------------------------------- *)
(** *** What getopt_long finds next *)

(** scan_argv sets the four getopt fields before it reads them *)
Lemma scan_argv_normal optstring longopts todo s x y :
  scan_argv optstring longopts todo (set_getopt (g_done s) (g_skipped s) x y s)
  = scan_argv optstring longopts todo s.
Proof. destruct todo as [|w rest]; cbn [scan_argv]; [|destruct (classify w)]; reflexivity. Qed.

Lemma scan_argv_skip optstring longopts ops tl s :
  Forall (fun w => is_operand w = true) ops ->
  scan_argv optstring longopts (ops ++ tl) s
  = scan_argv optstring longopts tl
      (set_getopt (g_done s) (g_skipped s ++ ops) tl "" s).
Proof.
  intro H. revert s. induction H as [|w ops Hw _ IH]; intro s.
  - cbn [app]. rewrite app_nil_r. symmetry. apply scan_argv_normal.
  - cbn [app scan_argv]. unfold is_operand in Hw.
    destruct (classify w); try discriminate Hw.
    unfold bind at 1, modify. rewrite IH. simp_state.
    rewrite <- app_assoc. reflexivity.
Qed.

Lemma getopt_long_at_word (s : state) (ops : list string) (w : string)
    (rest : list string) :
  g_nextchar s = "" -> g_todo s = ops ++ w :: rest ->
  Forall (fun w => is_operand w = true) ops ->
  classify w <> Operand -> classify w <> Terminator ->
  getopt_long NSLCD_OPTIONSTRING nslcd_options s
  = word_outcome w (set_getopt (g_done s ++ [w]) (g_skipped s ++ ops) rest "" s).
Proof.
  intros Hn Ht Hops Ho Hterm.
  unfold getopt_long. rewrite bind_gets, Hn, bind_gets, Ht.
  rewrite scan_argv_skip by assumption. cbn [scan_argv]. unfold word_outcome.
  destruct (classify w); try contradiction; reflexivity.
Qed.

Lemma getopt_long_no_option (s : state) (ops : list string) :
  g_nextchar s = "" -> g_todo s = ops ->
  Forall (fun w => is_operand w = true) ops ->
  getopt_long NSLCD_OPTIONSTRING nslcd_options s
  = Ret (-1) (set_getopt (g_done s) (g_skipped s ++ ops) [] "" s).
Proof.
  intros Hn Ht Hops.
  unfold getopt_long. rewrite bind_gets, Hn, bind_gets, Ht.
  rewrite <- (app_nil_r ops) at 1. rewrite scan_argv_skip by assumption.
  reflexivity.
Qed.

(** the beginnings of a name *)
Lemma prefix_cons (p : string) (b : ascii) (nm : string) :
  prefix p (String b nm) = true ->
  p = "" \/ exists p', p = String b p' /\ prefix p' nm = true.
Proof.
  destruct p as [|a p']; [left; reflexivity|]. cbn [prefix].
  destruct (ascii_dec a b) as [->|]; [|discriminate].
  intro H. right. exists p'. split; [reflexivity | exact H].
Qed.

Lemma prefix_nil (p : string) : prefix p "" = true -> p = "".
Proof. destruct p; [reflexivity | discriminate]. Qed.

Ltac prefixes H :=
  repeat match type of H with
         | prefix ?p (String _ _) = true =>
             apply prefix_cons in H;
             destruct H as [->|[? [-> H]]]
         | prefix ?p EmptyString = true => apply prefix_nil in H; subst
         end.

Lemma in_optstring_other (c : ascii) :
  c <> "d"%char -> c <> "h"%char -> c <> "V"%char ->
  in_optstring c NSLCD_OPTIONSTRING = false.
Proof.
  intros Hd Hh HV. unfold in_optstring, NSLCD_OPTIONSTRING.
  cbn [list_ascii_of_string existsb].
  apply Ascii.eqb_neq in Hd, Hh, HV. rewrite Hd, Hh, HV. reflexivity.
Qed.

Lemma lookup_long_unknown (nm : string) :
  prefix nm "debug" = false -> prefix nm "help" = false ->
  prefix nm "version" = false ->
  lookup_long nslcd_options nm = None.
Proof.
  intros Hd Hh Hv. unfold lookup_long, nslcd_options.
  cbn [find filter name]. rewrite Hd, Hh, Hv.
  destruct (String.eqb_spec "debug" nm) as [<-|_]; [discriminate Hd|].
  destruct (String.eqb_spec "help" nm) as [<-|_]; [discriminate Hh|].
  destruct (String.eqb_spec "version" nm) as [<-|_]; [discriminate Hv|].
  reflexivity.
Qed.

Lemma nth_after (a : string) (d l : list string) :
  nth (Z.to_nat (1 + Z.of_nat (List.length d))) (a :: d ++ l) "" = hd "" l.
Proof.
  replace (Z.to_nat (1 + Z.of_nat (List.length d))) with (S (List.length d)) by lia.
  cbn [nth]. rewrite app_nth2 by lia. rewrite Nat.sub_diag. destruct l; reflexivity.
Qed.

(* ----------------------------------------------------------------- *)
(** *** The command line *)

(** closed comparisons of option codes *)
Ltac decide_codes :=
  repeat match goal with
         | |- context [?a =? ?b] =>
             let v := eval vm_compute in (a =? b) in
             match v with
             | true => change (a =? b) with true
             | false => change (a =? b) with false
             end
         end;
  cbv beta iota.

Lemma parse_help (s s1 : state) :
  getopt_long NSLCD_OPTIONSTRING nslcd_options s = Ret (char_code "h") s1 ->
  trace s1 = trace s ->
  exists s' l,
    parse_cmdline cfg s = Exit 0 s'
    /\ trace s' = trace s ++ l /\ l <> []
    /\ Forall (fun e => prints_to stdout e = true) l.
Proof.
  intros H Ht. rewrite (parse_cmdline_option s s1 _ H) by discriminate.
  unfold switch_on. decide_codes.
  cbv beta iota zeta delta [bind ret gets modify emit exit fprintf display_usage].
  eexists. eexists. split; [reflexivity|]. simp_state. rewrite Ht.
  repeat rewrite <- app_assoc. split; [reflexivity|].
  split; [discriminate | repeat constructor].
Qed.

Lemma parse_version (s s1 : state) :
  getopt_long NSLCD_OPTIONSTRING nslcd_options s = Ret (char_code "V") s1 ->
  trace s1 = trace s ->
  exists s' l,
    parse_cmdline cfg s = Exit 0 s'
    /\ trace s' = trace s ++ l /\ l <> []
    /\ Forall (fun e => prints_to stdout e = true) l.
Proof.
  intros H Ht. rewrite (parse_cmdline_option s s1 _ H) by discriminate.
  unfold switch_on. decide_codes.
  cbv beta iota zeta delta [bind ret gets modify emit exit fprintf display_version].
  eexists. eexists. split; [reflexivity|]. simp_state. rewrite Ht.
  repeat rewrite <- app_assoc. split; [reflexivity|].
  split; [discriminate | repeat constructor].
Qed.

Lemma parse_other (s s1 : state) (m : string) :
  getopt_long NSLCD_OPTIONSTRING nslcd_options s = Ret question_mark s1 ->
  trace s1 = trace s ++ [GetoptMessage m] -> argv0 s1 = argv0 s ->
  exists s',
    parse_cmdline cfg s = Exit 1 s'
    /\ trace s' = trace s ++ [GetoptMessage m; hint (argv0 s)].
Proof.
  intros H Ht Ha. rewrite (parse_cmdline_option s s1 _ H) by discriminate.
  unfold switch_on. decide_codes.
  cbv beta iota zeta delta [bind ret gets modify emit exit fprintf].
  eexists. split; [reflexivity|]. simp_state. rewrite Ht, Ha.
  rewrite <- app_assoc. reflexivity.
Qed.

Lemma parse_debug (s s1 : state) :
  getopt_long NSLCD_OPTIONSTRING nslcd_options s = Ret (char_code "d") s1 ->
  parse_cmdline cfg s
  = parse_cmdline cfg
      (set_trace (trace s1 ++ [Call (c_log_setdefaultloglevel LOG_DEBUG) 0])
                 (set_debugging 1 s1)).
Proof.
  intros H. rewrite (parse_cmdline_option s s1 _ H) by discriminate.
  unfold switch_on. decide_codes. reflexivity.
Qed.

(** C6 (as the code has it): the options of the command line are
    -d/--debug, -h/--help and -V/--version, a long name being accepted
    from any nonempty beginning of it.  Reading the next option word
    (operands before it are stepped over): a debug option sets debug mode
    and the parsing goes on; a help or version option prints to stdout
    only and exits with status 0; a word that starts with another option
    (-f and --config are left aside) gets getopt_long's message, the
    one-line hint on stderr and exit status 1.  With no option word left,
    the program goes on when there is no operand, and names the first
    operand, prints the hint on stderr and exits with status 1 when
    there is one. *)
Theorem command_line_options (s : state) (ops : list string) :
  g_nextchar s = "" ->
  Forall (fun w => is_operand w = true) ops ->
  (forall w rest,
     g_todo s = ops ++ w :: rest ->
     (debug_word w ->
      parse_cmdline cfg s
      = parse_cmdline cfg
          (set_trace (trace s ++ [Call (c_log_setdefaultloglevel LOG_DEBUG) 0])
             (set_debugging 1
                (set_getopt (g_done s ++ [w]) (g_skipped s ++ ops) rest "" s))))
     /\ (help_word w \/ version_word w ->
         exists s' l,
           parse_cmdline cfg s = Exit 0 s'
           /\ trace s' = trace s ++ l /\ l <> []
           /\ Forall (fun e => prints_to stdout e = true) l)
     /\ (other_word w ->
         exists s' m,
           parse_cmdline cfg s = Exit 1 s'
           /\ trace s' = trace s ++ [GetoptMessage m; hint (argv0 s)]))
  /\ (g_todo s = ops ->
      (g_skipped s ++ ops = [] ->
       exists s',
         parse_cmdline cfg s = Ret tt s'
         /\ trace s' = trace s /\ nslcd_debugging s' = nslcd_debugging s)
      /\ (g_skipped s ++ ops <> [] ->
          exists s',
            parse_cmdline cfg s = Exit 1 s'
            /\ trace s' = trace s ++
                 [unrecognized (argv0 s) (hd "" (g_skipped s ++ ops));
                  hint (argv0 s)])).
Proof.
  intros Hn Hops. split.
  - intros w rest Ht.
    assert (G : forall w', w = w' -> classify w' <> Operand ->
                classify w' <> Terminator ->
                getopt_long NSLCD_OPTIONSTRING nslcd_options s
                = word_outcome w'
                    (set_getopt (g_done s ++ [w']) (g_skipped s ++ ops) rest "" s)).
    { intros w' <- Ho Hterm. apply getopt_long_at_word; assumption. }
    split; [|split].
    + intros [->|[p [-> [Hne Hp]]]].
      * rewrite (parse_debug s _ (G _ eq_refl ltac:(discriminate) ltac:(discriminate))).
        reflexivity.
      * prefixes Hp; try contradiction;
          (rewrite (parse_debug s _ (G _ eq_refl ltac:(discriminate) ltac:(discriminate)));
           reflexivity).
    + intros [[[cs ->]|[p [-> [Hne Hp]]]]|[[cs ->]|[p [-> [Hne Hp]]]]].
      * apply (parse_help s _ (G _ eq_refl ltac:(discriminate) ltac:(discriminate))).
        reflexivity.
      * prefixes Hp; try contradiction;
          (apply (parse_help s _ (G _ eq_refl ltac:(discriminate) ltac:(discriminate)));
           reflexivity).
      * apply (parse_version s _ (G _ eq_refl ltac:(discriminate) ltac:(discriminate))).
        reflexivity.
      * prefixes Hp; try contradiction;
          (apply (parse_version s _ (G _ eq_refl ltac:(discriminate) ltac:(discriminate)));
           reflexivity).
    + intros [[c [cs [-> [Hm [Hd [Hh [HV Hf]]]]]]]
             |[body [-> [Hne [Hd [Hh [Hv Hc]]]]]]].
      * assert (Hcl : classify (String "-" (String c cs)) = ShortOpts c cs).
        { cbn [classify Ascii.eqb Bool.eqb]. apply Ascii.eqb_neq in Hm.
          rewrite Hm. reflexivity. }
        destruct (parse_other s
                   (set_trace (trace s ++ [GetoptMessage (String c "")])
                      (set_getopt (g_done s ++ [String "-" (String c cs)])
                                  (g_skipped s ++ ops) rest cs s))
                   (String c "")) as [s' [H1 H2]].
        { rewrite (G _ eq_refl) by (rewrite Hcl; discriminate).
          unfold word_outcome. rewrite Hcl. unfold short_option.
          rewrite in_optstring_other by assumption.
          reflexivity. }
        { reflexivity. } { reflexivity. }
        exists s', (String c ""). split; assumption.
      * assert (Hcl : classify (String "-" (String "-" body)) = LongOpt body).
        { destruct body; [contradiction | reflexivity]. }
        destruct (parse_other s
                   (set_trace (trace s ++ [GetoptMessage body])
                      (set_getopt (g_done s ++ [String "-" (String "-" body)])
                                  (g_skipped s ++ ops) rest "" s))
                   body) as [s' [H1 H2]].
        { rewrite (G _ eq_refl) by (rewrite Hcl; discriminate).
          unfold word_outcome. rewrite Hcl. unfold long_option.
          destruct (split_eq body) as [nm has_eq]. cbn [fst] in Hd, Hh, Hv.
          rewrite lookup_long_unknown by assumption. reflexivity. }
        { reflexivity. } { reflexivity. }
        exists s', body. split; assumption.
  - intro Ht. rewrite (parse_cmdline_done s _ (getopt_long_no_option s ops Hn Ht Hops)).
    unfold check_remaining.
    cbv beta iota zeta delta [bind ret gets modify emit exit fprintf].
    unfold optind, argc, argv. simp_state. rewrite !app_nil_r.
    split.
    + intro He. rewrite He, app_nil_r.
      assert (E : (1 + Z.of_nat (List.length (g_done s))
                   <? Z.of_nat (List.length (argv0 s :: g_done s))) = false)
        by (apply Z.ltb_ge; cbn [List.length]; lia).
      rewrite E. eexists. split; [reflexivity|]. split; reflexivity.
    + intro He.
      assert (E : (1 + Z.of_nat (List.length (g_done s))
                   <? Z.of_nat (List.length
                        (argv0 s :: g_done s ++ g_skipped s ++ ops))) = true).
      { apply Z.ltb_lt. cbn [List.length]. rewrite length_app.
        destruct (g_skipped s ++ ops); [contradiction|]. cbn [List.length]. lia. }
      rewrite E. rewrite !nth_after.
      eexists. split; [reflexivity|]. simp_state.
      rewrite <- app_assoc, ?app_nil_r. unfold unrecognized, hint. reflexivity.
Qed.

(* ----------------------------------------------------------------- *)
(** *** The names of the signals *)

Lemma signame_known (signum : Z) :
  In signum known_signals -> signame signum <> "UNKNOWN".
Proof.
  unfold known_signals. cbn [In]. intro H.
  repeat (destruct H as [<-|H]; [vm_compute; discriminate|]). contradiction.
Qed.

Lemma signame_distinct :
  forallb (fun a =>
             forallb (fun b => implb (String.eqb (signame a) (signame b)) (a =? b))
                     known_signals)
          known_signals = true.
Proof. vm_compute. reflexivity. Qed.

(** X1: signame gives "UNKNOWN" for the numbers it has no case for and
    for no other number, and no two of the signals it has a case for get
    the same name: the name in a log line tells which signal it was. *)
Theorem signame_names_each_signal :
  (forall n, signame n = "UNKNOWN" <-> ~ In n known_signals)
  /\ (forall a b, In a known_signals -> signame a = signame b -> a = b).
Proof.
  split.
  - intro n. split.
    + intros H Hin. exact (signame_known n Hin H).
    + apply signame_unknown.
  - intros a b Ha Hab.
    assert (Hb : In b known_signals).
    { destruct (in_dec Z.eq_dec b known_signals) as [Hb|Hb]; [exact Hb|].
      exfalso. apply (signame_known a Ha).
      rewrite Hab. apply signame_unknown, Hb. }
    pose proof signame_distinct as D.
    rewrite forallb_forall in D. specialize (D a Ha).
    rewrite forallb_forall in D. specialize (D b Hb).
    apply String.eqb_eq in Hab. rewrite Hab in D. cbn [implb] in D.
    apply Z.eqb_eq, D.
Qed.

(* ----------------------------------------------------------------- *)
(** *** Installing a handler *)

(** X2: install_sighandler makes one sigaction() call.  When the call
    returns 0 the handler is in the table for the signal and the function
    returns, having logged nothing; when it returns anything else the
    table is as before, an error naming the signal is logged and the
    program calls exit(1). *)
Theorem install_sighandler_installs_or_fatal (signum : Z) (h : handler)
    (s : state) (a : answer) (w : list answer) :
  world s = a :: w ->
  (a_ret a = 0 ->
   exists s',
     install_sighandler cfg signum h s = Ret tt s'
     /\ sigactions s' = (signum, h) :: sigactions s
     /\ trace s' = trace s ++ [Call (c_sigaction signum h) 0])
  /\ (a_ret a <> 0 ->
      exists s',
        install_sighandler cfg signum h s = Exit 1 s'
        /\ sigactions s' = sigactions s
        /\ trace s' = trace s ++
             [Call (c_sigaction signum h) (a_ret a);
              Log LOG_ERR "error installing signal handler for '%s': %s"
                  [AStr (signame signum); AStr (strerror cfg (errno_after a s))]]).
Proof.
  intro Hw. unfold install_sighandler, sigaction.
  cbv beta iota zeta delta [bind ret gets modify emit exit log_log lib sys
                            strerror_errno].
  answer_next. split.
  - intro H0. rewrite !H0. cbn [Z.eqb negb].
    eexists. split; [reflexivity|]. simp_state. rewrite H0.
    split; reflexivity.
  - intro Hn. apply Z.eqb_neq in Hn. rewrite !Hn. cbn [negb].
    eexists. split; [reflexivity|]. simp_state. rewrite <- app_assoc.
    split; reflexivity.
Qed.

(* ----------------------------------------------------------------- *)
(** *** A connection leaves acceptconnection one way *)

(** case analysis on the tests of a function's body *)
Ltac next_test :=
  match goal with
  | |- context [if ?x <? ?y then _ else _] =>
      destruct (Z.ltb_spec x y)
  | |- context [if ?x <=? ?y then _ else _] =>
      destruct (Z.leb_spec x y)
  | |- context [if negb (?x =? ?y) then _ else _] =>
      destruct (Z.eqb_spec x y); cbn [negb]
  | |- context [if ?x =? ?y then _ else _] =>
      destruct (Z.eqb_spec x y)
  | |- context [if ?b then _ else _] => destruct b
  end.

(** acceptconnection never calls exit(): it returns, one answer of the
    system or more used up, or it waits for an answer that is not
    there. *)
Lemma acceptconnection_outcome (s : state) :
  (exists s', acceptconnection cfg s = Ret tt s'
              /\ (List.length (world s') < List.length (world s))%nat)
  \/ (exists s', acceptconnection cfg s = Blocked s' /\ world s' = []).
Proof.
  unfold acceptconnection, handleconnection. run_prog.
  repeat first [next_answer | next_test];
    first [ right; eexists; split; [reflexivity|]; simp_state;
            first [assumption | reflexivity]
          | left; eexists; split; [reflexivity|]; simp_state;
            cbn [List.length]; lia ].
Qed.

(** X3: of a connection that accept() returned, acceptconnection disposes
    in one way and once: it either closes the descriptor or hands it to
    the request handler, never both and never neither, and it touches no
    other descriptor; when accept() failed there is nothing to close or
    to hand over. *)
Theorem accepted_connection_disposed_once (s s' : state) (a : answer)
    (w : list answer) :
  world s = a :: w ->
  acceptconnection cfg s = Ret tt s' ->
  exists l,
    trace s' = trace s ++ Call (c_accept (nslcd_serversocket s)) (a_ret a) :: l
    /\ (a_ret a < 0 -> filter hands_off l = [])
    /\ (0 <= a_ret a ->
        exists e, filter hands_off l = [e] /\ disposes (a_ret a) e = true).
Proof.
  intros Hw. unfold acceptconnection, handleconnection. run_prog.
  answer_next.
  repeat first [next_answer | next_test];
    intro Hret; first [discriminate Hret | injection Hret as <-];
    simp_state; repeat rewrite <- app_assoc; cbn [app];
    (eexists; split; [reflexivity|]);
    (split; [intro; try lia; reflexivity | intro; try lia]);
    cbn [filter hands_off is_close is_handlerequest orb];
    eexists; (split; [reflexivity|]);
    cbn [disposes]; apply Z.eqb_refl.
Qed.

(* ----------------------------------------------------------------- *)
(** *** The accept loop ends by a signal only *)

Lemma serve_fuel (n m : nat) (s : state) :
  (List.length (world s) < n)%nat -> (List.length (world s) < m)%nat ->
  serve cfg n s = serve cfg m s.
Proof.
  revert m s. induction n as [|n IH]; intros m s Hn Hm; [lia|].
  destruct m as [|m]; [lia|].
  destruct (Z.eq_dec (nslcd_exitsignal s) 0) as [E|E].
  - rewrite !serve_step by assumption. unfold bind.
    destruct (acceptconnection_outcome s) as [[s' [H1 H2]]|[s' [H1 H2]]];
      rewrite H1; [|reflexivity].
    apply IH; lia.
  - rewrite !serve_stop by assumption. reflexivity.
Qed.

Lemma serve_outcome (n : nat) (s : state) :
  (List.length (world s) < n)%nat ->
  (exists s', serve cfg n s = Ret tt s' /\ nslcd_exitsignal s' <> 0)
  \/ (exists s', serve cfg n s = Blocked s' /\ world s' = []).
Proof.
  revert s. induction n as [|n IH]; intros s Hn; [lia|].
  destruct (Z.eq_dec (nslcd_exitsignal s) 0) as [E|E].
  - rewrite serve_step by assumption. unfold bind.
    destruct (acceptconnection_outcome s) as [[s' [H1 H2]]|[s' [H1 H2]]];
      rewrite H1.
    + apply IH. lia.
    + right. exists s'. split; [reflexivity | exact H2].
  - rewrite serve_stop by assumption. left. exists s. split; [reflexivity | exact E].
Qed.

(** X4: the loop [while (nslcd_exitsignal==0) acceptconnection();] never
    calls exit(), whatever goes wrong with a connection.  Given more fuel
    than the system has answers (what main gives it), it returns with
    the exit flag set, or it waits in a call the system has not answered,
    every answer used up; and the amount of fuel makes no difference. *)
Theorem accept_loop_ends_by_signal_only (n : nat) (s : state) :
  (List.length (world s) < n)%nat ->
  ((exists s', serve cfg n s = Ret tt s' /\ nslcd_exitsignal s' <> 0)
   \/ (exists s', serve cfg n s = Blocked s' /\ world s' = []))
  /\ (forall m, (List.length (world s) < m)%nat -> serve cfg m s = serve cfg n s).
Proof.
  intro Hn. split; [apply serve_outcome, Hn|].
  intros m Hm. apply serve_fuel; assumption.
Qed.

(* ----------------------------------------------------------------- *)
(** *** parse_cmdline comes to an end *)

Lemma scan_argv_unchanged {A} (f : state -> A) optstring longopts todo :
  (forall d k t n s, f (set_getopt d k t n s) = f s) ->
  (forall t s, f (set_trace t s) = f s) ->
  steps (unchanged f) (scan_argv optstring longopts todo).
Proof.
  intros Hg Ht.
  assert (Hm : forall d k t n,
             steps (unchanged f)
                   (modify (fun s => set_getopt (d s) (k s) (t s) n s)))
    by (intros; apply steps_modify; intro; apply Hg).
  assert (He : forall e, steps (unchanged f) (emit e))
    by (intros; apply steps_modify; intro; apply Ht).
  induction todo as [|w rest IH]; cbn [scan_argv].
  - steps_with ltac:(first [apply Hm | apply He]).
  - destruct (classify w); unfold long_option, short_option;
      steps_with ltac:(first [apply Hm | apply He | exact IH]).
Qed.

Lemma getopt_long_unchanged {A} (f : state -> A) optstring longopts :
  (forall d k t n s, f (set_getopt d k t n s) = f s) ->
  (forall t s, f (set_trace t s) = f s) ->
  steps (unchanged f) (getopt_long optstring longopts).
Proof.
  intros Hg Ht. unfold getopt_long, short_option.
  steps_with ltac:(first
    [ apply scan_argv_unchanged; assumption
    | apply steps_modify; intro; first [apply Hg | apply Ht] ]).
Qed.

Lemma getopt_long_quiet (f : event -> bool) optstring longopts :
  (forall w, f (GetoptMessage w) = false) ->
  steps (quiet f) (getopt_long optstring longopts).
Proof.
  intro Hf.
  assert (S : forall todo, steps (quiet f) (scan_argv optstring longopts todo)).
  { induction todo as [|w rest IH]; cbn [scan_argv].
    - steps_with quiet_prim.
    - destruct (classify w); unfold long_option, short_option;
        steps_with ltac:(first [apply quiet_emit, Hf | exact IH | quiet_prim]). }
  unfold getopt_long, short_option.
  steps_with ltac:(first [apply S | apply quiet_emit, Hf | quiet_prim]).
Qed.

Lemma parse_cmdline_outcome_below (n : nat) (s : state) :
  (getopt_measure s < n)%nat ->
  exists s',
    ((parse_cmdline cfg s = Ret tt s'
      /\ optind s' = argc s'
      /\ filter is_print (trace s') = filter is_print (trace s))
     \/ (parse_cmdline cfg s = Exit 0 s'
         /\ filter (prints_to stderr) (trace s')
            = filter (prints_to stderr) (trace s))
     \/ (parse_cmdline cfg s = Exit 1 s'
         /\ exists t, trace s' = t ++ [hint (argv0 s)]))
    /\ world s' = world s.
Proof.
  revert s. induction n as [|n IH]; intros s Hn; [lia|].
  destruct (getopt_long_returns NSLCD_OPTIONSTRING nslcd_options s)
    as [optc [s1 [H1 H2]]].
  pose proof (getopt_long_unchanged (fun s => (world s, argv0 s))
                NSLCD_OPTIONSTRING nslcd_options
                ltac:(reflexivity) ltac:(reflexivity) s) as Hu.
  rewrite H1 in Hu. unfold unchanged in Hu. cbn [final] in Hu.
  injection Hu as Hworld Hargv0.
  pose proof (getopt_long_quiet is_print NSLCD_OPTIONSTRING nslcd_options
                ltac:(reflexivity) s) as Hq.
  rewrite H1 in Hq. unfold quiet in Hq. cbn [final] in Hq.
  pose proof (getopt_long_quiet (prints_to stderr) NSLCD_OPTIONSTRING nslcd_options
                ltac:(reflexivity) s) as Hq2.
  rewrite H1 in Hq2. unfold quiet in Hq2. cbn [final] in Hq2.
  destruct (Z.eq_dec optc (-1)) as [->|Hne].
  - rewrite (parse_cmdline_done s s1 H1). unfold check_remaining.
    cbv beta iota zeta delta [bind ret gets modify emit exit fprintf].
    destruct (Z.ltb_spec (optind s1) (argc s1)) as [Hlt|Hge].
    + eexists. split; [right; right; split; [reflexivity|]|].
      * simp_state. rewrite <- Hargv0. eexists. unfold hint. reflexivity.
      * simp_state. exact Hworld.
    + exists s1. split; [left|exact Hworld].
      split; [reflexivity|]. split; [|exact Hq].
      unfold optind, argc, argv in *. cbn [List.length] in *.
      rewrite !length_app in *. lia.
  - specialize (H2 Hne).
    rewrite (parse_cmdline_option s s1 optc H1 Hne). unfold switch_on.
    destruct (optc =? char_code "d");
      [|destruct (optc =? char_code "h"); [|destruct (optc =? char_code "V")]];
      cbv beta iota zeta delta [bind ret gets modify emit exit lib fprintf
                                display_usage display_version].
    + match goal with
      | |- context [parse_cmdline cfg ?s2] =>
          destruct (IH s2) as [s' [[[R1 [R2 R3]]|[[R1 R2]|[R1 R2]]] Rw]];
            [ unfold getopt_measure in *; simp_state; lia | | | ]
      end; exists s'; simp_state.
      * split; [left|congruence]. split; [exact R1|]. split; [exact R2|].
        rewrite R3, filter_app. cbn [filter is_print]. rewrite app_nil_r. exact Hq.
      * split; [right; left|congruence]. split; [exact R1|].
        rewrite R2, filter_app. cbn [filter prints_to]. rewrite app_nil_r. exact Hq2.
      * split; [right; right|congruence]. split; [exact R1|].
        rewrite <- Hargv0. exact R2.
    + eexists. split; [right; left; split; [reflexivity|]|].
      * simp_state. repeat rewrite filter_app. cbn [filter prints_to].
        repeat rewrite app_nil_r. exact Hq2.
      * simp_state. exact Hworld.
    + eexists. split; [right; left; split; [reflexivity|]|].
      * simp_state. repeat rewrite filter_app. cbn [filter prints_to].
        repeat rewrite app_nil_r. exact Hq2.
      * simp_state. exact Hworld.
    + eexists. split; [right; right; split; [reflexivity|]|].
      * simp_state. rewrite <- Hargv0. eexists. unfold hint. reflexivity.
      * simp_state. exact Hworld.
Qed.

(** X5: parse_cmdline comes to an end on every command line, and asks
    nothing of the system on the way.  It returns when every word was an
    option it took (optind has reached argc), having printed nothing; it
    exits with status 0 having printed nothing to stderr; or it exits
    with status 1, the hint naming --help being the last thing it
    wrote. *)
Theorem parse_cmdline_ends (s : state) :
  exists s',
    ((parse_cmdline cfg s = Ret tt s'
      /\ optind s' = argc s'
      /\ filter is_print (trace s') = filter is_print (trace s))
     \/ (parse_cmdline cfg s = Exit 0 s'
         /\ filter (prints_to stderr) (trace s')
            = filter (prints_to stderr) (trace s))
     \/ (parse_cmdline cfg s = Exit 1 s'
         /\ exists t, trace s' = t ++ [hint (argv0 s)]))
    /\ world s' = world s.
Proof. apply (parse_cmdline_outcome_below (S (getopt_measure s))). lia. Qed.

(* ----------------------------------------------------------------- *)
(** *** What holds of every step holds of the loops *)

Lemma serve_steps (R : state -> state -> Prop) {R_pre : PreOrder R} (n : nat) :
  steps R (acceptconnection cfg) -> steps R (serve cfg n).
Proof.
  intro Ha. induction n as [|n IH]; cbn [serve]; [apply steps_blocked; exact _|].
  refine (steps_bind _ _ _ _ _); [apply steps_gets; exact _ | intro sig].
  destruct (sig =? 0); [|apply steps_ret; exact _].
  refine (steps_bind _ _ _ _ _); [exact Ha | intro; exact IH].
Qed.

Lemma parse_cmdline_unchanged {A} (f : state -> A) :
  (forall d k t n s, f (set_getopt d k t n s) = f s) ->
  (forall t s, f (set_trace t s) = f s) ->
  (forall v s, f (set_debugging v s) = f s) ->
  steps (unchanged f) (parse_cmdline cfg).
Proof.
  intros Hg Ht Hd.
  assert (He : forall e, steps (unchanged f) (emit e))
    by (intros; apply steps_modify; intro; apply Ht).
  assert (L : forall fuel, steps (unchanged f) (parse_cmdline_loop cfg fuel)).
  { induction fuel as [|n IH]; cbn [parse_cmdline_loop];
      unfold display_usage, display_version, fprintf, lib; cbv beta iota zeta;
      steps_with ltac:(first
        [ apply getopt_long_unchanged; assumption
        | apply He
        | apply steps_modify; intro; apply Hd
        | exact IH ]). }
  unfold parse_cmdline, fprintf. cbv beta iota zeta.
  steps_with ltac:(first [apply L | apply He]).
Qed.

Lemma parse_cmdline_quiet (f : event -> bool) :
  (forall w, f (GetoptMessage w) = false) ->
  (forall fp text, f (Print fp text) = false) ->
  (forall l r, f (Call (c_log_setdefaultloglevel l) r) = false) ->
  steps (quiet f) (parse_cmdline cfg).
Proof.
  intros Hg Hp Hl.
  assert (L : forall fuel, steps (quiet f) (parse_cmdline_loop cfg fuel)).
  { induction fuel as [|n IH]; cbn [parse_cmdline_loop];
      unfold display_usage, display_version, fprintf, lib; cbv beta iota zeta;
      steps_with ltac:(first
        [ apply getopt_long_quiet; assumption
        | apply quiet_emit; first [apply Hp | apply Hl]
        | exact IH
        | quiet_prim ]). }
  unfold parse_cmdline, fprintf. cbv beta iota zeta.
  steps_with ltac:(first [apply L | apply quiet_emit, Hp | quiet_prim]).
Qed.

Lemma steps_sub {A} (R R' : state -> state -> Prop) (m : M A) :
  (forall s s', R s s' -> R' s s') -> steps R m -> steps R' m.
Proof. intros H Hm s. apply H, Hm. Qed.

(* ----------------------------------------------------------------- *)
(** *** The flag holds a signal main asked for *)

Lemma tame_flag_after acts sigs f :
  Forall (fun p : Z * handler => In (fst p) exit_signals) acts ->
  f = 0 \/ In f exit_signals ->
  flag_after acts sigs f = 0 \/ In (flag_after acts sigs f) exit_signals.
Proof.
  intros Hacts. revert f. induction sigs as [|sg sigs IH]; intros f Hf; [exact Hf|].
  unfold flag_after in *. cbn [fold_left]. apply IH.
  destruct (find (fun p => fst p =? sg) acts) as [[n []]|] eqn:E; [|exact Hf].
  apply find_some in E. destruct E as [Hin Heq]. cbn [fst] in Heq.
  apply Z.eqb_eq in Heq. subst n. right.
  rewrite Forall_forall in Hacts. apply (Hacts _ Hin).
Qed.

Lemma tame_same (s s' : state) :
  sigactions s' = sigactions s -> nslcd_exitsignal s' = nslcd_exitsignal s ->
  keeps tame s s'.
Proof. intros Ha Hf H. unfold tame in *. rewrite Ha, Hf. exact H. Qed.

Lemma tame_emit e : steps (keeps tame) (emit e).
Proof. apply steps_modify. intro s. apply tame_same; reflexivity. Qed.

Lemma tame_modify g :
  (forall s, sigactions (g s) = sigactions s
             /\ nslcd_exitsignal (g s) = nslcd_exitsignal s) ->
  steps (keeps tame) (modify g).
Proof. intros Hg. apply steps_modify. intro s. apply tame_same; apply Hg. Qed.

Lemma tame_ask c : steps (keeps tame) (ask c).
Proof.
  refine (steps_ask _ _ _). intros s a w _ [H1 H2]. unfold tame. simp_state.
  split; [exact H1|]. apply tame_flag_after; assumption.
Qed.

Lemma tame_sigaction_modify (signum : Z) (h : handler) :
  In signum exit_signals ->
  steps (keeps tame)
        (modify (fun s => set_sigactions ((signum, h) :: sigactions s) s)).
Proof.
  intro Hin. apply steps_modify. intros s [H1 H2]. unfold tame. simp_state.
  split; [constructor; assumption | exact H2].
Qed.

Ltac tame_prim :=
  first [ apply tame_emit | apply tame_ask
        | apply tame_modify; intro; split; reflexivity
        | apply tame_modify; let st := fresh "st" in
          intro st; destruct (stream_path _ st); split; reflexivity ].

Lemma parse_cmdline_tame : steps (keeps tame) (parse_cmdline cfg).
Proof.
  apply (steps_sub (unchanged (fun s => (sigactions s, nslcd_exitsignal s)))).
  - intros s s' H. unfold unchanged in H. injection H as Ha Hf.
    apply tame_same; assumption.
  - apply parse_cmdline_unchanged; reflexivity.
Qed.

(** the primitive steps, also where a state is in the context *)
Ltac quiet_step :=
  first [ quiet_prim
        | apply quiet_modify; let st := fresh "st" in
          intro st; destruct (stream_path _ st); reflexivity ].

Ltac grows_step :=
  first [ grows_prim
        | apply grows_modify; let st := fresh "st" in
          intro st; destruct (stream_path _ st); reflexivity ].

(** the body of main, parse_cmdline and the loop apart *)
Ltac open_main :=
  unfold main_from, startup, drop_privileges, write_pidfile, fopen, fprintf,
    fclose, install_sighandler, sigaction, nslcd_server_open, atexit,
    strerror_errno, log_log, lib, sys;
  cbv beta iota zeta.

Lemma main_from_tame (mygid myuid : Z) :
  steps (keeps tame) (main_from cfg mygid myuid).
Proof.
  open_main.
  steps_with ltac:(first
    [ apply parse_cmdline_tame
    | apply serve_steps; [exact _ | open_bodies; steps_with tame_prim]
    | apply tame_sigaction_modify; unfold exit_signals; cbn [In]; auto 10
    | tame_prim ]).
Qed.

(** X6: in a process that starts with no handler installed and the flag
    at 0, the flag only ever holds 0 or one of the eight signals main
    installs sigexit_handler for; so when main leaves the loop the line
    it logs names one of these signals, and never says "UNKNOWN". *)
Theorem shutdown_signal_is_named (mygid myuid : Z) (s s' : state) (code : Z) :
  sigactions s = [] -> nslcd_exitsignal s = 0 ->
  main_from cfg mygid myuid s = Ret code s' ->
  In (nslcd_exitsignal s') exit_signals
  /\ signame (nslcd_exitsignal s') <> "UNKNOWN"
  /\ exists t, trace s' = t ++ [caught_signal (nslcd_exitsignal s')].
Proof.
  intros Ha Hf Hret.
  assert (Ht : tame s) by (unfold tame; rewrite Ha, Hf; split; [constructor | left; reflexivity]).
  pose proof (main_from_tame mygid myuid s Ht) as [_ H2].
  rewrite Hret in H2. cbn [final] in H2.
  destruct (main_from_returns mygid myuid s s' code Hret) as [_ [Hnz Htr]].
  destruct H2 as [H2|H2]; [contradiction|].
  split; [exact H2|]. split; [|exact Htr].
  apply signame_known. unfold exit_signals in H2. unfold known_signals.
  cbn [In] in *.
  repeat (destruct H2 as [<-|H2]; [auto 30|]). contradiction.
Qed.

(* ----------------------------------------------------------------- *)
(** *** The exit status *)





(* ----------------------------------------------------------------- *)
(** *** Going to the background *)

(** X8: what main does after parse_cmdline depends on the debug flag.
    With the flag set it never calls daemon() nor log_startlogging().
    With the flag at 0 its first call is daemon(0,0); when that fails it
    logs the error and calls exit(1) - before umask(), before logging is
    started and before the exit handler is registered, so the process
    ends there with status 1. *)
Theorem foreground_or_background (mygid myuid : Z) (s s1 : state) :
  parse_cmdline cfg s = Ret tt s1 ->
  (nslcd_debugging s1 <> 0 ->
   filter daemonizes (trace (final (main_from cfg mygid myuid s)))
   = filter daemonizes (trace s1))
  /\ (nslcd_debugging s1 = 0 ->
      forall a w, world s1 = a :: w ->
      (exists l, trace (final (main_from cfg mygid myuid s))
                 = trace s1 ++ Call (c_daemon 0 0) (a_ret a) :: l)
      /\ (a_ret a < 0 ->
          exists s',
            main_from cfg mygid myuid s = Exit 1 s'
            /\ trace s' = trace s1 ++
                 [Call (c_daemon 0 0) (a_ret a);
                  Log LOG_ERR "unable to daemonize: %s"
                      [AStr (strerror cfg (errno_after a s1))]]
            /\ (atexit_fns s = [] ->
                run cfg (main_from cfg mygid myuid) s = Terminated 1 s'))).
Proof.
  intro Hparse. split.
  - intro Hdbg. unfold main_from, startup.
    rewrite bind_assoc. unfold bind at 1. rewrite Hparse. cbv beta iota.
    rewrite bind_assoc, bind_gets.
    destruct (Z.eqb_spec (nslcd_debugging s1) 0) as [E|_]; [contradiction|].
    cbv beta iota.
    match goal with
    | |- context [final (?m s1)] =>
        assert (Hq : steps (quiet daemonizes) m)
    end.
    { open_main.
      steps_with ltac:(first
        [ apply serve_steps; [exact _ | quiet_body] | quiet_step ]). }
    exact (Hq s1).
  - intros Hdbg a w Hw. split.
    + unfold main_from, startup.
      rewrite bind_assoc. unfold bind at 1. rewrite Hparse. cbv beta iota.
      rewrite bind_assoc, bind_gets, Hdbg. change (0 =? 0) with true.
      cbv beta iota. rewrite !bind_assoc.
      apply (first_event_sys _ _ s1 a w); [|exact Hw].
      intro r. open_main.
      steps_with ltac:(first
        [ apply serve_steps; [exact _ | grows_body] | grows_step ]).
    + intro Hneg. apply Z.ltb_lt in Hneg.
      assert (Ha : atexit_fns s1 = atexit_fns s).
      { pose proof (parse_cmdline_same_atexit s) as Hs. rewrite Hparse in Hs.
        exact Hs. }
      unfold run, main_from, startup. run_prog. rewrite Hparse. cbv beta iota.
      rewrite Hdbg. change (0 =? 0) with true. cbv beta iota.
      answer_next. rewrite Hneg.
      eexists. split; [reflexivity|]. simp_state. rewrite <- app_assoc.
      split; [reflexivity|]. intro H0. unfold c_exit. simp_state.
      rewrite Ha, H0. reflexivity.
Qed.

(* ----------------------------------------------------------------- *)
(** *** How far startup has come *)

Lemma hoare_steps_ret {A} (R : state -> state -> Prop) (P Q : state -> Prop)
    (m : M A) :
  steps R m -> (forall s s', P s -> R s s' -> Q s') ->
  hoare P m (fun _ => Q) (fun _ _ => True) (fun _ => True).
Proof.
  intros Hm H s Hs. specialize (Hm s).
  destruct (m s); cbn [meets final] in *; [eapply H; eassumption | exact I | exact I].
Qed.

Lemma started_stable a0 fn o evs (s s' : state) :
  started a0 fn o evs s -> unchanged core s s' -> grows s s' ->
  started a0 fn o evs s'.
Proof.
  intros [H1 [H2 [H3 H4]]] Hc [l Hl]. unfold unchanged, core in Hc.
  injection Hc as Ha Hk Hf.
  unfold started. rewrite Ha, Hk, Hf, Hl.
  split; [exact H1|]. split; [|split].
  - intros path Hp. destruct (H2 path Hp) as [p [Hin Hr]]. exists p.
    split; [apply in_or_app; left; exact Hin | exact Hr].
  - intro Ho. destruct (H3 Ho) as [Hs Hin].
    split; [exact Hs | apply in_or_app; left; exact Hin].
  - eapply Forall_impl; [|exact H4]. intros e He. apply in_or_app; left; exact He.
Qed.

Lemma started_frame {A} a0 fn o evs (m : M A) :
  steps (unchanged core) m -> steps grows m ->
  hoare (started a0 fn o evs) m (fun _ => started a0 fn o evs)
        (fun _ _ => True) (fun _ => True).
Proof.
  intros H1 H2 s Hs. specialize (H1 s). specialize (H2 s).
  destruct (m s); cbn [meets final] in *; try exact I.
  eapply started_stable; eassumption.
Qed.

Lemma started_more a0 fn o evs evs' (s : state) :
  started a0 fn o evs s -> Forall (fun e => In e (trace s)) evs' ->
  started a0 fn o (evs' ++ evs) s.
Proof.
  intros [H1 [H2 [H3 H4]]] H. unfold started.
  split; [exact H1|]. split; [exact H2|]. split; [exact H3|].
  apply Forall_app. split; assumption.
Qed.

Lemma atexit_started a0 :
  hoare (fun s => atexit_fns s = a0) (atexit f_exithandler)
        (fun _ => started a0 None false []) (fun _ _ => True) (fun _ => True).
Proof.
  intros s H. unfold atexit, lib, emit, modify, bind. cbn [meets].
  unfold started. simp_state. rewrite H. split; [reflexivity|].
  split; [intros path Hp; discriminate Hp|].
  split; [intro Ho; discriminate Ho | constructor].
Qed.

(** the stream that fopen() has just returned *)
Ltac own_stream :=
  progress (unfold stream_path; simp_state; cbn [find fst snd option_map];
            rewrite ?Z.eqb_refl; cbn [option_map snd]).

Lemma write_pidfile_started a0 fn :
  hoare (started a0 None false []) (write_pidfile cfg fn)
        (fun _ => started a0 fn false []) (fun _ _ => True) (fun _ => True).
Proof.
  intros s [H1 _]. destruct fn as [path|].
  - unfold write_pidfile, fopen, fprintf, fclose. run_prog.
    repeat first [own_stream | next_answer | next_test]; cbn [meets];
      try exact I; try (exfalso; lia).
    unfold started. simp_state. split; [exact H1|].
    split; [|split; [intro Ho; discriminate Ho | constructor]].
    intros path' Hp. injection Hp as <-.
    rewrite !fs_read_write.
    cbn [sprintf append nl Ascii.eqb Bool.eqb]. rewrite to_int_idem.
    eexists. split; [|reflexivity].
    repeat rewrite <- app_assoc. apply in_or_app. right.
    cbn [app In]. right. left. reflexivity.
  - cbn [write_pidfile meets ret]. unfold started. split; [exact H1|].
    split; [intros path Hp; discriminate Hp|].
    split; [intro Ho; discriminate Ho | constructor].
Qed.

Lemma nslcd_server_open_started a0 fn :
  hoare (started a0 fn false []) nslcd_server_open
        (fun r s => started a0 fn false [] s /\ 0 <= r
                    /\ In (Call c_nslcd_server_open r) (trace s))
        (fun _ _ => True) (fun _ => True).
Proof.
  intros s H. unfold nslcd_server_open. run_prog.
  next_answer; [exact I|]. next_test; cbn [meets]; [exact I|].
  split; [|split; [assumption|]].
  - eapply started_stable; [exact H | reflexivity | eexists; reflexivity].
  - simp_state. apply in_or_app. right. left. reflexivity.
Qed.

Lemma set_serversocket_started a0 fn (r : Z) :
  hoare (fun s => started a0 fn false [] s /\ 0 <= r
                  /\ In (Call c_nslcd_server_open r) (trace s))
        (modify (set_serversocket r))
        (fun _ => started a0 fn true []) (fun _ _ => True) (fun _ => True).
Proof.
  intros s [[H1 [H2 _]] [Hr Hin]]. cbn [meets modify]. unfold started.
  simp_state. split; [exact H1|]. split; [exact H2|].
  split; [intros _; split; assumption | constructor].
Qed.

Lemma drop_privileges_core mygid myuid :
  steps (unchanged core) (drop_privileges cfg mygid myuid).
Proof. unfold drop_privileges. unchanged_body. Qed.

Lemma drop_privileges_grows mygid myuid :
  steps grows (drop_privileges cfg mygid myuid).
Proof. unfold drop_privileges. grows_body. Qed.

(** drop_privileges returns only when the ID changes it was asked for
    have succeeded. *)
Lemma drop_privileges_ret (mygid myuid : Z) (s s' : state) :
  drop_privileges cfg mygid myuid s = Ret tt s' ->
  Forall (fun e => In e (trace s')) (id_calls mygid myuid).
Proof.
  unfold drop_privileges, id_calls, id_none.
  destruct (HAVE_SETGROUPS cfg); run_prog;
    repeat first [next_answer | next_test];
    intro Hret; first [discriminate Hret | injection Hret as <-];
    simp_state; repeat rewrite <- app_assoc;
    repeat match goal with
           | |- context [if ?x =? ?y then _ else _] =>
               destruct (Z.eqb_spec x y); try contradiction
           end;
    repeat match goal with H : a_ret _ = 0 |- _ => rewrite H end;
    cbn [app]; repeat constructor;
    apply in_or_app; right; cbn [app In]; auto 10.
Qed.

Lemma drop_privileges_started a0 fn mygid myuid :
  hoare (started a0 fn true []) (drop_privileges cfg mygid myuid)
        (fun _ => started a0 fn true (id_calls mygid myuid))
        (fun _ _ => True) (fun _ => True).
Proof.
  intros s H.
  pose proof (drop_privileges_core mygid myuid s) as Hc.
  pose proof (drop_privileges_grows mygid myuid s) as Hg.
  destruct (drop_privileges cfg mygid myuid s) as [[] s'|c s'|s'] eqn:E;
    cbn [meets final] in *; try exact I.
  rewrite <- (app_nil_r (id_calls mygid myuid)).
  apply started_more; [|apply (drop_privileges_ret _ _ _ _ E)].
  eapply started_stable; eassumption.
Qed.

Lemma install_sighandler_core signum h :
  steps (unchanged core) (install_sighandler cfg signum h).
Proof. unchanged_body. Qed.

Lemma install_sighandler_grows signum h :
  steps grows (install_sighandler cfg signum h).
Proof. grows_body. Qed.

Lemma install_sighandler_event (signum : Z) (h : handler) (s s' : state) :
  install_sighandler cfg signum h s = Ret tt s' ->
  In (Call (c_sigaction signum h) 0) (trace s').
Proof.
  unfold install_sighandler, sigaction. run_prog.
  repeat first [next_answer | next_test];
    intro Hret; first [discriminate Hret | contradiction | injection Hret as <-].
  simp_state. apply in_or_app. right. left.
  match goal with H : a_ret _ = 0 |- _ => rewrite H end. reflexivity.
Qed.

Lemma install_sighandler_started a0 fn evs (sg : Z) :
  hoare (started a0 fn true evs)
        (install_sighandler cfg sg h_sigexit_handler)
        (fun _ => started a0 fn true (installs [sg] ++ evs))
        (fun _ _ => True) (fun _ => True).
Proof.
  intros s H.
  pose proof (install_sighandler_core sg h_sigexit_handler s) as Hc.
  pose proof (install_sighandler_grows sg h_sigexit_handler s) as Hg.
  destruct (install_sighandler cfg sg h_sigexit_handler s) as [[] s'|c s'|s'] eqn:E;
    cbn [meets final] in *; try exact I.
  apply started_more; [eapply started_stable; eassumption|].
  repeat constructor. apply (install_sighandler_event _ _ _ _ E).
Qed.

(** startup returns with the exit handler registered, the PID file
    written, the socket open, the IDs changed as asked and the eight
    handlers installed. *)
Lemma startup_started (mygid myuid : Z) (a0 : list finalizer) :
  hoare (fun s => atexit_fns s = a0) (startup cfg mygid myuid)
        (fun _ => started a0 (NSLCD_PIDFILE cfg) true
                          (installs (rev exit_signals) ++ id_calls mygid myuid))
        (fun _ _ => True) (fun _ => True).
Proof.
  unfold startup.
  do 6 (eapply hoare_bind;
        [ apply (hoare_steps_ret same_atexit (fun s => atexit_fns s = a0)
                                 (fun s => atexit_fns s = a0));
          [ solve [first [apply parse_cmdline_same_atexit | same_atexit_body]]
          | intros s s' H H'; unfold same_atexit in H'; congruence ]
        | intro ]).
  eapply hoare_bind; [apply atexit_started | intro].
  eapply hoare_bind; [apply write_pidfile_started | intro].
  eapply hoare_bind; [apply nslcd_server_open_started | intro sock].
  eapply hoare_bind; [apply set_serversocket_started | intro].
  eapply hoare_bind; [apply drop_privileges_started | intro].
  do 8 (eapply hoare_bind; [apply install_sighandler_started | intro]).
  eapply hoare_weaken;
    [ apply started_frame; [unchanged_body | grows_body]
    | intros ? H; exact H
    | intros ? ? H; exact H
    | intros; exact I
    | intros; exact I ].
Qed.

Lemma main_from_unfold (mygid myuid : Z) :
  main_from cfg mygid myuid
  = bind (startup cfg mygid myuid) (fun _ => serve_and_leave cfg).
Proof. reflexivity. Qed.

Lemma serve_and_leave_core : steps (unchanged core) (serve_and_leave cfg).
Proof.
  unfold serve_and_leave, log_log.
  steps_with ltac:(first
    [ apply serve_steps; [exact _ | unchanged_body] | unchanged_prim ]).
Qed.

Lemma serve_and_leave_grows : steps grows (serve_and_leave cfg).
Proof.
  unfold serve_and_leave, log_log.
  steps_with ltac:(first
    [ apply serve_steps; [exact _ | grows_body] | grows_prim ]).
Qed.

Lemma startup_quiet_accept (mygid myuid : Z) :
  steps (quiet is_accept) (startup cfg mygid myuid).
Proof.
  open_main.
  steps_with ltac:(first
    [ apply parse_cmdline_quiet; intros; reflexivity | quiet_step ]).
Qed.

Lemma main_from_started (mygid myuid : Z) (s s1 : state) (code : Z) :
  main_from cfg mygid myuid s = Ret code s1 ->
  started (atexit_fns s) (NSLCD_PIDFILE cfg) true
          (installs (rev exit_signals) ++ id_calls mygid myuid) s1.
Proof.
  rewrite main_from_unfold. unfold bind. intro H.
  pose proof (startup_started mygid myuid (atexit_fns s) s eq_refl) as Hst.
  destruct (startup cfg mygid myuid s) as [[] s0|c s0|s0]; try discriminate H.
  cbn [meets] in Hst.
  pose proof (serve_and_leave_core s0) as Hc.
  pose proof (serve_and_leave_grows s0) as Hg.
  rewrite H in Hc, Hg. cbn [final] in Hc, Hg.
  eapply started_stable; eassumption.
Qed.

Lemma ready_before (p q : event -> bool) (e : event) (s s' : state) :
  In e (trace s) -> p e = true -> none_yet q s -> grows s s' ->
  preceded_by p q (trace s').
Proof.
  intros Hin Hp Hq Hg. apply passed_preceded.
  apply (passed_grows p q s); [|exact Hg].
  exists (trace s), []. split; [symmetry; apply app_nil_r|].
  split; [exact Hq|]. exists e. split; assumption.
Qed.

(* ----------------------------------------------------------------- *)
(** *** Nothing is accepted before the daemon is ready *)

(** X9: every accept() call of a run comes after nslcd_server_open() was
    called, after sigaction() has returned 0 for each of the eight
    signals, and - when main is to change the group or the user - after
    setgid() and setuid() have returned 0: no connection is accepted
    before the handlers are in place and the privileges dropped. *)
Theorem no_accept_before_ready (mygid myuid : Z) (s : state) :
  filter is_accept (trace s) = [] ->
  let t := trace (final (main_from cfg mygid myuid s)) in
  preceded_by is_server_open is_accept t
  /\ (forall sg, In sg exit_signals ->
      preceded_by (sigaction_done sg) is_accept t)
  /\ (mygid <> id_none -> preceded_by (setgid_done mygid) is_accept t)
  /\ (myuid <> id_none -> preceded_by (setuid_done myuid) is_accept t).
Proof.
  intros Hs t. subst t. rewrite main_from_unfold. unfold bind.
  pose proof (startup_quiet_accept mygid myuid s) as Hq. unfold quiet in Hq.
  pose proof (startup_started mygid myuid (atexit_fns s) s eq_refl) as Hst.
  destruct (startup cfg mygid myuid s) as [[] s0|c s0|s0];
    cbn [meets final] in *.
  - assert (Hn : none_yet is_accept s0) by (unfold none_yet; rewrite Hq; exact Hs).
    pose proof (serve_and_leave_grows s0) as Hg.
    destruct Hst as [_ [_ [Ho Hev]]]. destruct (Ho eq_refl) as [_ Hopen].
    rewrite Forall_forall in Hev.
    split; [|split; [|split]].
    + apply (ready_before _ _ _ s0 _ Hopen); [reflexivity | exact Hn | exact Hg].
    + intros sg Hsg.
      apply (ready_before _ _ (Call (c_sigaction sg h_sigexit_handler) 0) s0);
        [ | cbn [sigaction_done]; rewrite Z.eqb_refl; reflexivity
          | exact Hn | exact Hg ].
      apply Hev. apply in_or_app. left. unfold installs.
      apply (in_map (fun x => Call (c_sigaction x h_sigexit_handler) 0)).
      apply -> in_rev. exact Hsg.
    + intro Hne.
      apply (ready_before _ _ (Call (c_setgid mygid) 0) s0);
        [ | cbn [setgid_done]; rewrite Z.eqb_refl; reflexivity
          | exact Hn | exact Hg ].
      apply Hev. apply in_or_app. right. unfold id_calls.
      destruct (Z.eqb_spec mygid id_none); [contradiction|].
      left. reflexivity.
    + intro Hne.
      apply (ready_before _ _ (Call (c_setuid myuid) 0) s0);
        [ | cbn [setuid_done]; rewrite Z.eqb_refl; reflexivity
          | exact Hn | exact Hg ].
      apply Hev. apply in_or_app. right. unfold id_calls.
      apply in_or_app. right.
      destruct (Z.eqb_spec myuid id_none); [contradiction|].
      left. reflexivity.
  - assert (Hn : none_yet is_accept s0) by (unfold none_yet; rewrite Hq; exact Hs).
    repeat split; intros; apply none_yet_preceded; exact Hn.
  - assert (Hn : none_yet is_accept s0) by (unfold none_yet; rewrite Hq; exact Hs).
    repeat split; intros; apply none_yet_preceded; exact Hn.
Qed.

(* ----------------------------------------------------------------- *)
(** *** The shutdown on a signal *)

(** X10: when main returns, the exit handler registered at startup runs
    once: the server socket, which is the descriptor that
    nslcd_server_open() returned, is closed with one close() call (a
    failure gives a warning and is ignored), "bailing out" is the last
    line logged, and the process ends with status 1. *)
Theorem clean_shutdown_closes_listener (mygid myuid : Z) (s s1 : state)
    (code : Z) (a : answer) (w : list answer) :
  atexit_fns s = [] ->
  main_from cfg mygid myuid s = Ret code s1 ->
  world s1 = a :: w ->
  0 <= nslcd_serversocket s1
  /\ In (Call c_nslcd_server_open (nslcd_serversocket s1)) (trace s1)
  /\ exists s2,
       run cfg (main_from cfg mygid myuid) s = Terminated 1 s2
       /\ trace s2 = trace s1
                     ++ listener_close_events cfg (nslcd_serversocket s1) a (errno s1)
                     ++ [bailing_out cfg]
       /\ world s2 = w.
Proof.
  intros Ha Hret Hw.
  destruct (main_from_started mygid myuid s s1 code Hret) as [Hat [_ [Ho _]]].
  destruct (Ho eq_refl) as [Hsock Hopen].
  destruct (main_from_returns mygid myuid s s1 code Hret) as [-> _].
  split; [exact Hsock|]. split; [exact Hopen|].
  unfold run. rewrite Hret. unfold c_exit. rewrite Hat, Ha.
  cbn [run_finalizers run_finalizer]. unfold exithandler. run_prog.
  assert (E : (nslcd_serversocket s1 >=? 0) = true)
    by (rewrite Z.geb_leb; apply Z.leb_le; exact Hsock).
  rewrite E. answer_next.
  unfold listener_close_events, bailing_out, errno_next.
  destruct (a_ret a =? 0); cbn [negb];
    (eexists; split; [reflexivity|]; simp_state;
     repeat rewrite <- app_assoc; split; reflexivity).
Qed.

(* ----------------------------------------------------------------- *)
(** *** The PID file stays *)

Lemma run_finalizers_files fs : steps (unchanged files) (run_finalizers cfg fs).
Proof.
  induction fs as [|[] fs IH]; cbn [run_finalizers run_finalizer].
  - apply steps_ret. exact _.
  - refine (steps_bind _ _ _ _ _); [unchanged_body | intro; exact IH].
Qed.

(** X11: when main returns after a shutdown signal, the PID file still
    holds the line with the PID that getpid() returned at startup, and
    the exit handler leaves the files as they are: the program never
    empties or removes its PID file. *)
Theorem pidfile_outlives_the_daemon (mygid myuid : Z) (s s1 : state)
    (code : Z) (path : string) :
  NSLCD_PIDFILE cfg = Some path ->
  main_from cfg mygid myuid s = Ret code s1 ->
  (exists p, In (Call c_getpid p) (trace s1)
             /\ fs_read path (files s1) = Some (decimal (to_int p) ++ nl)%string)
  /\ (forall status s2,
      run cfg (main_from cfg mygid myuid) s = Terminated status s2 ->
      files s2 = files s1).
Proof.
  intros Hp Hret.
  destruct (main_from_started mygid myuid s s1 code Hret) as [_ [Hpid _]].
  split; [exact (Hpid path Hp)|].
  intros status s2 Hrun. unfold run in Hrun. rewrite Hret in Hrun.
  unfold c_exit in Hrun.
  pose proof (run_finalizers_files (atexit_fns s1) s1) as Hf.
  unfold unchanged in Hf.
  destruct (run_finalizers cfg (atexit_fns s1) s1); try discriminate Hrun;
    injection Hrun as _ <-; exact Hf.
Qed.

(* ----------------------------------------------------------------- *)
(** *** The order of startup *)

Lemma order_before {A} (p q : event -> bool) (m : M A) :
  steps (quiet q) m ->
  hoare (none_yet q) m (fun _ => none_yet q)
        (fun _ s => preceded_by p q (trace s))
        (fun s => preceded_by p q (trace s)).
Proof.
  intros Hm s Hs. specialize (Hm s).
  destruct (m s); cbn [meets final] in *;
    [ | apply none_yet_preceded | apply none_yet_preceded ];
    eapply none_yet_quiet; eassumption.
Qed.

Lemma order_after {A} (p q : event -> bool) (m : M A) :
  steps grows m ->
  hoare (passed p q) m (fun _ => passed p q)
        (fun _ s => preceded_by p q (trace s))
        (fun s => preceded_by p q (trace s)).
Proof.
  intros Hm s Hs. specialize (Hm s).
  destruct (m s); cbn [meets final] in *;
    [ | apply passed_preceded | apply passed_preceded ];
    eapply passed_grows; eassumption.
Qed.

Lemma order_emit (p q : event -> bool) (e : event) :
  p e = true -> q e = false ->
  hoare (none_yet q) (emit e) (fun _ => passed p q)
        (fun _ s => preceded_by p q (trace s))
        (fun s => preceded_by p q (trace s)).
Proof.
  intros Hp Hq s Hs. cbn [meets emit modify].
  apply (none_yet_passed p q s _ e Hs Hp Hq eq_refl).
Qed.

Lemma order_ask (p q : event -> bool) (c : call) :
  (forall r, p (Call c r) = true) -> (forall r, q (Call c r) = false) ->
  hoare (none_yet q) (ask c) (fun _ => passed p q)
        (fun _ s => preceded_by p q (trace s))
        (fun s => preceded_by p q (trace s)).
Proof.
  intros Hp Hq. apply hoare_ask.
  - intros s Hs _. apply none_yet_preceded, Hs.
  - intros s a w Hs _.
    destruct (none_yet_passed p q s _ (Call c (a_ret a)) Hs (Hp _) (Hq _) eq_refl)
      as [_ [t0 [l [Ht H]]]].
    exists t0, l. split; [exact Ht | exact H].
Qed.

(** the steps of main before and after the one that matters *)
Ltac before q :=
  eapply hoare_bind;
  [ apply (order_before _ q);
    solve [ first [ apply parse_cmdline_quiet; intros; reflexivity
                  | open_main; steps_with quiet_step ] ]
  | intro ].

Ltac grows_main :=
  open_main;
  steps_with ltac:(first
    [ apply serve_steps; [exact _ | grows_body] | grows_step ]).

Ltac after :=
  eapply hoare_bind; [ apply order_after; solve [grows_main] | intro ].

Lemma umask_before_creating (mygid myuid : Z) :
  hoare (none_yet creates) (main_from cfg mygid myuid)
        (fun _ => passed is_umask creates)
        (fun _ s => preceded_by is_umask creates (trace s))
        (fun s => preceded_by is_umask creates (trace s)).
Proof.
  unfold main_from, startup.
  eapply hoare_bind; [|intro; apply order_after; grows_main].
  do 3 before creates.
  eapply hoare_bind; [apply order_emit; reflexivity | intro].
  repeat after. apply order_after. grows_main.
Qed.

Lemma atexit_before_creating (mygid myuid : Z) :
  hoare (none_yet creates) (main_from cfg mygid myuid)
        (fun _ => passed is_atexit creates)
        (fun _ s => preceded_by is_atexit creates (trace s))
        (fun s => preceded_by is_atexit creates (trace s)).
Proof.
  unfold main_from, startup.
  eapply hoare_bind; [|intro; apply order_after; grows_main].
  do 6 before creates.
  eapply hoare_bind;
    [ unfold atexit;
      eapply hoare_bind;
      [ apply order_emit; reflexivity
      | intro; apply order_after; grows_main ]
    | intro ].
  repeat after. apply order_after. grows_main.
Qed.

Lemma open_before_dropping (mygid myuid : Z) :
  hoare (none_yet is_priv) (main_from cfg mygid myuid)
        (fun _ => passed is_server_open is_priv)
        (fun _ s => preceded_by is_server_open is_priv (trace s))
        (fun s => preceded_by is_server_open is_priv (trace s)).
Proof.
  unfold main_from, startup.
  eapply hoare_bind; [|intro; apply order_after; grows_main].
  do 8 before is_priv.
  eapply hoare_bind;
    [ unfold nslcd_server_open, sys;
      eapply hoare_bind;
      [ eapply hoare_bind;
        [ apply order_ask; intro; reflexivity
        | intro; apply order_after; grows_main ]
      | intro; apply order_after; grows_main ]
    | intro ].
  repeat after. apply order_after. grows_main.
Qed.

Lemma hoare_final {A} (P Q : state -> Prop) (Q' : A -> state -> Prop)
    (m : M A) (s : state) :
  hoare P m Q' (fun _ => Q) Q -> (forall a s', Q' a s' -> Q s') ->
  P s -> Q (final (m s)).
Proof.
  intros H HQ Hs. specialize (H s Hs).
  destruct (m s); cbn [meets final] in *; [eapply HQ; exact H | exact H | exact H].
Qed.

(** X12: whatever way a run goes, main has called umask(0022) and
    registered the exit handler before the first call that creates
    something - the fopen() of the PID file and nslcd_server_open() -
    and it has called nslcd_server_open() before any call of the
    privilege drop. *)
Theorem startup_order (mygid myuid : Z) (s : state) :
  filter creates (trace s) = [] -> filter is_priv (trace s) = [] ->
  let t := trace (final (main_from cfg mygid myuid s)) in
  preceded_by is_umask creates t
  /\ preceded_by is_atexit creates t
  /\ preceded_by is_server_open is_priv t.
Proof.
  intros Hc Hp t. subst t. split; [|split].
  - apply (hoare_final (none_yet creates)
             (fun s => preceded_by is_umask creates (trace s)) _ _ s
             (umask_before_creating mygid myuid));
      [intros ? ?; apply passed_preceded | exact Hc].
  - apply (hoare_final (none_yet creates)
             (fun s => preceded_by is_atexit creates (trace s)) _ _ s
             (atexit_before_creating mygid myuid));
      [intros ? ?; apply passed_preceded | exact Hc].
  - apply (hoare_final (none_yet is_priv)
             (fun s => preceded_by is_server_open is_priv (trace s)) _ _ s
             (open_before_dropping mygid myuid));
      [intros ? ?; apply passed_preceded | exact Hp].
Qed.

(* ----------------------------------------------------------------- *)
(** *** A PID file that could not be written *)

(** X13: when fopen() fails, write_pidfile leaves the files as they are
    and does not go on to getpid(); when fopen() succeeds and fprintf()
    fails, the program exits without fclose(), and the PID file is left
    behind empty: a PID it may have held before is gone. *)
Theorem pidfile_failure_leaves (path : string) (s : state)
    (a1 a2 a3 : answer) (w : list answer) :
  world s = a1 :: a2 :: a3 :: w ->
  (a_ret a1 = 0 ->
   exists s',
     write_pidfile cfg (Some path) s = Exit 1 s'
     /\ files s' = files s /\ world s' = a2 :: a3 :: w)
  /\ (a_ret a1 <> 0 -> a_ret a3 < 0 ->
      exists s',
        write_pidfile cfg (Some path) s = Exit 1 s'
        /\ fs_read path (files s') = Some ""
        /\ filter is_fclose (trace s') = filter is_fclose (trace s)
        /\ world s' = w).
Proof.
  intros Hw. unfold write_pidfile, fopen, fprintf, fclose. run_prog.
  answer_next. split.
  - intro H1. rewrite !H1. cbn [Z.eqb].
    eexists. split; [reflexivity|]. simp_state. split; reflexivity.
  - intros H1 H3. apply Z.eqb_neq in H1. rewrite !H1.
    answer_next. answer_next.
    assert (Hr : (a_ret a3 <=? 0) = true) by (apply Z.leb_le; lia).
    apply Z.ltb_lt in H3. rewrite !H3. cbv beta iota. rewrite Hr.
    eexists. split; [reflexivity|]. simp_state.
    split; [apply fs_read_write|]. split; [|reflexivity].
    repeat rewrite filter_app. cbn [filter is_fclose].
    repeat rewrite app_nil_r. reflexivity.
Qed.

(* ----------------------------------------------------------------- *)
(** *** The program waits for the system only *)

Ltac waits_prim := intros; first [exact I | assumption].

Lemma serve_and_leave_waits :
  hoare (fun _ => True) (serve_and_leave cfg)
        (fun _ _ => True) (fun _ _ => True) (fun s => world s = []).
Proof.
  intros s _. unfold serve_and_leave. rewrite bind_gets. unfold bind at 1.
  destruct (serve_outcome (S (List.length (world s))) s (Nat.lt_succ_diag_r _))
    as [[s' [H _]]|[s' [H Hw]]]; rewrite H; cbn [meets].
  - rewrite bind_gets. destruct (negb (nslcd_exitsignal s' =? 0));
      cbv [bind log_log emit modify ret]; exact I.
  - exact Hw.
Qed.

Lemma parse_cmdline_waits :
  hoare (fun _ => True) (parse_cmdline cfg)
        (fun _ _ => True) (fun _ _ => True) (fun s => world s = []).
Proof.
  intros s _.
  destruct (parse_cmdline_outcome_below _ s (Nat.lt_succ_diag_r _))
    as [s' [[[E _]|[[E _]|[E _]]] _]]; rewrite E; exact I.
Qed.

(** X14: main stops short of returning or calling exit() only in a call
    that the system has not answered, every answer there was used up:
    neither the option loop nor the accept loop gets stuck by itself. *)
Theorem main_waits_for_the_system_only (mygid myuid : Z) (s s' : state) :
  main_from cfg mygid myuid s = Blocked s' -> world s' = [].
Proof.
  intro H.
  assert (X : hoare (fun _ => True) (main_from cfg mygid myuid)
                    (fun _ _ => True) (fun _ _ => True) (fun s => world s = [])).
  { rewrite main_from_unfold.
    eapply (hoare_bind _ (fun _ _ => True));
      [|intro; apply serve_and_leave_waits].
    open_main. hoare_with ltac:(first [apply parse_cmdline_waits | waits_prim]). }
  specialize (X s I). rewrite H in X. exact X.
Qed.

(* ----------------------------------------------------------------- *)
(** *** The loop accepts on the server socket *)

#[local] Instance serving_on_pre (v : Z) : PreOrder (serving_on v).
Proof.
  split.
  - intros s Hv. split; [exact Hv|]. exists [].
    split; [symmetry; apply app_nil_r | reflexivity].
  - intros s1 s2 s3 H12 H23 Hv.
    destruct (H12 Hv) as [Hv2 [l1 [Ht1 Hl1]]].
    destruct (H23 Hv2) as [Hv3 [l2 [Ht2 Hl2]]].
    split; [exact Hv3|]. exists (l1 ++ l2). split.
    + rewrite Ht2, Ht1. symmetry. apply app_assoc.
    + rewrite forallb_app, Hl1, Hl2. reflexivity.
Qed.

Lemma serving_on_emit (v : Z) (e : event) :
  accept_on v e = true -> steps (serving_on v) (emit e).
Proof.
  intro He. apply steps_modify. intros s Hv. split; [exact Hv|].
  exists [e]. split; [reflexivity|]. cbn [forallb]. rewrite He. reflexivity.
Qed.

Lemma serving_on_ask (v : Z) (c : call) :
  (forall r, accept_on v (Call c r) = true) -> steps (serving_on v) (ask c).
Proof.
  intro Hc. refine (steps_ask _ _ _). intros s a w _ Hv. split; [exact Hv|].
  exists [Call c (a_ret a)]. split; [reflexivity|].
  cbn [forallb]. rewrite Hc. reflexivity.
Qed.

Ltac serving_prim :=
  first [ apply serving_on_emit; reflexivity
        | apply serving_on_ask; intro; reflexivity
        | apply serving_on_ask; intro; apply Z.eqb_refl ].

Lemma acceptconnection_serving (v : Z) :
  steps (serving_on v) (acceptconnection cfg).
Proof.
  intro s.
  destruct (Z.eq_dec (nslcd_serversocket s) v) as [Hv|Hv];
    [|intro H; contradiction].
  unfold acceptconnection. rewrite bind_gets, Hv.
  match goal with
  | |- serving_on v s (final (?m s)) => assert (X : steps (serving_on v) m)
  end.
  { open_bodies; cbv beta iota zeta. steps_with serving_prim. }
  exact (X s).
Qed.

Lemma serve_and_leave_serving (v : Z) :
  steps (serving_on v) (serve_and_leave cfg).
Proof.
  unfold serve_and_leave, log_log.
  steps_with ltac:(first
    [ apply serve_steps; [exact _ | apply acceptconnection_serving]
    | serving_prim ]).
Qed.

(** X15: every accept() call of a run is made on the descriptor that
    nslcd_server_open() returned: the loop never accepts on another
    socket. *)
Theorem accepts_on_the_listener (mygid myuid : Z) (s : state) (fd r : Z) :
  filter is_accept (trace s) = [] ->
  let t := trace (final (main_from cfg mygid myuid s)) in
  In (Call (c_accept fd) r) t ->
  0 <= fd /\ In (Call c_nslcd_server_open fd) t.
Proof.
  intros Hs t. subst t. rewrite main_from_unfold. unfold bind.
  pose proof (startup_quiet_accept mygid myuid s) as Hq. unfold quiet in Hq.
  pose proof (startup_started mygid myuid (atexit_fns s) s eq_refl) as Hst.
  assert (No : forall s0, filter is_accept (trace s0) = [] ->
                          ~ In (Call (c_accept fd) r) (trace s0)).
  { intros s0 H0 Hin.
    assert (Hf : In (Call (c_accept fd) r) (filter is_accept (trace s0)))
      by (apply filter_In; split; [exact Hin | reflexivity]).
    rewrite H0 in Hf. exact Hf. }
  destruct (startup cfg mygid myuid s) as [[] s0|c s0|s0];
    cbn [meets final] in *; rewrite Hs in Hq;
    [|intro Hin; exfalso; exact (No s0 Hq Hin)..].
  destruct Hst as [_ [_ [Ho _]]]. destruct (Ho eq_refl) as [Hsock Hopen].
  destruct (serve_and_leave_serving (nslcd_serversocket s0) s0 eq_refl)
    as [_ [l [Ht Hl]]].
  rewrite Ht. intro Hin. apply in_app_or in Hin.
  destruct Hin as [Hin|Hin]; [exfalso; exact (No s0 Hq Hin)|].
  rewrite forallb_forall in Hl. specialize (Hl _ Hin).
  cbn [accept_on] in Hl. apply Z.eqb_eq in Hl. subst fd.
  split; [exact Hsock|]. apply in_or_app. left. exact Hopen.
Qed.

(* ----------------------------------------------------------------- *)
(** *** Which ends run the exit handler *)

Lemma unregistered_kept {A} (m : M A) :
  steps same_atexit m -> steps (quiet is_atexit) m ->
  hoare unregistered m (fun _ => unregistered)
        (fun _ s => unregistered s \/ registered_by_call s)
        (fun s => unregistered s \/ registered_by_call s).
Proof.
  intros H1 H2 s [Ha Hn]. specialize (H1 s). specialize (H2 s).
  unfold same_atexit, quiet in *.
  assert (U : unregistered (final (m s)))
    by (split; [congruence | unfold none_yet in *; congruence]).
  destruct (m s); cbn [meets final] in *; auto.
Qed.

Lemma registered_kept {A} (m : M A) :
  steps same_atexit m -> steps grows m ->
  hoare registered_by_call m (fun _ => registered_by_call)
        (fun _ s => unregistered s \/ registered_by_call s)
        (fun s => unregistered s \/ registered_by_call s).
Proof.
  intros H1 H2 s [Ha Hin]. specialize (H1 s). specialize (H2 s).
  unfold same_atexit in *. destruct H2 as [l Hl].
  assert (U : registered_by_call (final (m s))).
  { split; [congruence|]. rewrite Hl. apply in_or_app. left. exact Hin. }
  destruct (m s); cbn [meets final] in *; auto.
Qed.

Lemma atexit_registers :
  hoare unregistered (atexit f_exithandler) (fun _ => registered_by_call)
        (fun _ s => unregistered s \/ registered_by_call s)
        (fun s => unregistered s \/ registered_by_call s).
Proof.
  intros s [Ha _]. unfold atexit, lib, emit, modify, bind. cbn [meets].
  split; simp_state; [rewrite Ha; reflexivity|].
  apply in_or_app. right. left. reflexivity.
Qed.

Ltac same_atexit_main :=
  first [ apply parse_cmdline_same_atexit
        | apply serve_same_atexit
        | unfold drop_privileges; same_atexit_body ].

Lemma main_from_registers (mygid myuid : Z) :
  hoare unregistered (main_from cfg mygid myuid) (fun _ => registered_by_call)
        (fun _ s => unregistered s \/ registered_by_call s)
        (fun s => unregistered s \/ registered_by_call s).
Proof.
  rewrite main_from_unfold.
  eapply hoare_bind;
    [ | intro; apply registered_kept;
        [ unfold serve_and_leave; same_atexit_body; apply serve_same_atexit
        | apply serve_and_leave_grows ] ].
  unfold startup.
  do 6 (eapply hoare_bind;
        [ apply unregistered_kept;
          [ solve [same_atexit_main]
          | solve [ first [ apply parse_cmdline_quiet; intros; reflexivity
                          | open_main; steps_with quiet_step ] ] ]
        | intro ]).
  eapply hoare_bind; [apply atexit_registers | intro].
  repeat (eapply hoare_bind;
          [ apply registered_kept; [solve [same_atexit_main] | solve [grows_main]]
          | intro ]).
  apply registered_kept; [same_atexit_main | grows_main].
Qed.

Lemma exithandler_ret (s s' : state) :
  exithandler cfg s = Ret tt s' ->
  grows s s' /\ exists t, trace s' = t ++ [bailing_out cfg].
Proof.
  intro H. split.
  - assert (G : steps grows (exithandler cfg)) by grows_body.
    specialize (G s). rewrite H in G. exact G.
  - unfold exithandler in H. rewrite bind_gets in H.
    apply bind_ret_inv in H. destruct H as [[] [s1 [_ H]]].
    unfold log_log, emit, modify in H. injection H as <-.
    exists (trace s1). reflexivity.
Qed.

Lemma exithandler_no_exit (s s' : state) (c : Z) :
  exithandler cfg s <> Exit c s'.
Proof.
  unfold exithandler. run_prog.
  repeat first [next_answer | next_test]; discriminate.
Qed.

(** X16: a process ends with the exit handler run exactly when main got
    as far as atexit(): then "bailing out" is the last thing in the
    trace.  An end before that - an exit() of parse_cmdline, or
    daemon() failing - runs no handler: the trace is as main left it. *)
Theorem exit_handler_runs_once_registered (mygid myuid : Z) (s s2 : state)
    (status : Z) :
  atexit_fns s = [] -> filter is_atexit (trace s) = [] ->
  run cfg (main_from cfg mygid myuid) s = Terminated status s2 ->
  (In (Call (c_atexit f_exithandler) 0) (trace s2) ->
   exists t, trace s2 = t ++ [bailing_out cfg])
  /\ (~ In (Call (c_atexit f_exithandler) 0) (trace s2) ->
      s2 = final (main_from cfg mygid myuid s)).
Proof.
  intros Ha Hn Hrun.
  pose proof (main_from_registers mygid myuid s (conj Ha Hn)) as H.
  assert (Reg : forall st s1,
             registered_by_call s1 -> c_exit cfg st s1 = Terminated status s2 ->
             (exists t, trace s2 = t ++ [bailing_out cfg])
             /\ In (Call (c_atexit f_exithandler) 0) (trace s2)).
  { intros st s1 [R1 R2] Hx. unfold c_exit in Hx. rewrite R1 in Hx.
    cbn [run_finalizers run_finalizer] in Hx. unfold bind, ret in Hx.
    destruct (exithandler cfg s1) as [[] s3|c s3|s3] eqn:E;
      [ | exfalso; exact (exithandler_no_exit _ _ _ E) | discriminate Hx ].
    injection Hx as _ <-.
    destruct (exithandler_ret s1 s3 E) as [[l Hl] Ht].
    split; [exact Ht|]. rewrite Hl. apply in_or_app. left. exact R2. }
  assert (Unreg : forall st s1,
             unregistered s1 -> c_exit cfg st s1 = Terminated status s2 ->
             s2 = s1 /\ ~ In (Call (c_atexit f_exithandler) 0) (trace s2)).
  { intros st s1 [U1 U2] Hx. unfold c_exit in Hx. rewrite U1 in Hx.
    cbn [run_finalizers] in Hx. unfold ret in Hx. injection Hx as _ <-.
    split; [reflexivity|]. intro Hin. unfold none_yet in U2.
    assert (Hf : In (Call (c_atexit f_exithandler) 0) (filter is_atexit (trace s1)))
      by (apply filter_In; split; [exact Hin | reflexivity]).
    rewrite U2 in Hf. exact Hf. }
  unfold run in Hrun.
  destruct (main_from cfg mygid myuid s) as [code s1|c s1|s1];
    cbn [meets final] in *; [| |discriminate Hrun].
  - destruct (Reg _ _ H Hrun) as [Ht Hin].
    split; [intros _; exact Ht | intro Hno; contradiction].
  - destruct H as [H|H].
    + destruct (Unreg _ _ H Hrun) as [-> Hno].
      split; [intro Hin; contradiction | reflexivity].
    + destruct (Reg _ _ H Hrun) as [Ht Hin].
      split; [intros _; exact Ht | intro Hno; contradiction].
Qed.

(* ----------------------------------------------------------------- *)
(** *** The privilege drop of the program as built *)

(** X17: with both IDs at -1, as main has them, the privilege drop is the
    setgroups(0,NULL) call alone, and its failure is not fatal: main logs
    a warning (a debug line on success) and goes on.  In a build without
    setgroups() it logs one debug line and asks nothing of the system. *)
Theorem setgroups_failure_is_ignored (s : state) :
  (HAVE_SETGROUPS cfg = true ->
   forall a w, world s = a :: w ->
   exists s',
     drop_privileges cfg id_none id_none s = Ret tt s'
     /\ trace s' = trace s ++
          [Call (c_setgroups 0) (a_ret a);
           if a_ret a <? 0
           then Log LOG_WARNING "cannot setgroups(0,NULL) (ignored): %s"
                    [AStr (strerror cfg (errno_after a s))]
           else Log LOG_DEBUG "debug: setgroups(0,NULL) done" []]
     /\ world s' = w)
  /\ (HAVE_SETGROUPS cfg = false ->
      drop_privileges cfg id_none id_none s
      = Ret tt (set_trace
                  (trace s ++ [Log LOG_DEBUG "debug: setgroups() not available" []])
                  s)).
Proof.
  unfold drop_privileges. fold id_none. rewrite Z.eqb_refl. cbn [negb].
  split.
  - intros Hh a w Hw. rewrite Hh. run_prog. answer_next.
    destruct (a_ret a <? 0);
      (eexists; split; [reflexivity|]; simp_state; rewrite <- app_assoc;
       split; reflexivity).
  - intro Hh. rewrite Hh. reflexivity.
Qed.

(* ----------------------------------------------------------------- *)
(** *** More command lines *)

Lemma getopt_long_in_cluster (s : state) (c : ascii) (cs : string) :
  g_nextchar s = String c cs ->
  getopt_long NSLCD_OPTIONSTRING nslcd_options s
  = short_option NSLCD_OPTIONSTRING c cs s.
Proof. intro Hn. unfold getopt_long. rewrite bind_gets, Hn. reflexivity. Qed.

(** X18: short options can be written in one word.  A word "-d..." sets
    debug mode and the letters after the "d" are read as further short
    options; of a letter inside such a word, "d" sets debug mode, "h"
    and "V" print to stdout and exit with status 0, and any other
    letter gets getopt_long's message, the hint and exit status 1. *)
Theorem clustered_short_options (s : state) :
  (forall ops cs rest,
     g_nextchar s = "" -> Forall (fun w => is_operand w = true) ops ->
     g_todo s = ops ++ String "-" (String "d" cs) :: rest ->
     parse_cmdline cfg s
     = parse_cmdline cfg
         (set_trace (trace s ++ [Call (c_log_setdefaultloglevel LOG_DEBUG) 0])
            (set_debugging 1
               (set_getopt (g_done s ++ [String "-" (String "d" cs)])
                           (g_skipped s ++ ops) rest cs s))))
  /\ (forall c cs,
      g_nextchar s = String c cs ->
      (c = "d"%char ->
       parse_cmdline cfg s
       = parse_cmdline cfg
           (set_trace (trace s ++ [Call (c_log_setdefaultloglevel LOG_DEBUG) 0])
              (set_debugging 1
                 (set_getopt (g_done s) (g_skipped s) (g_todo s) cs s))))
      /\ (c = "h"%char \/ c = "V"%char ->
          exists s' l,
            parse_cmdline cfg s = Exit 0 s'
            /\ trace s' = trace s ++ l /\ l <> []
            /\ Forall (fun e => prints_to stdout e = true) l)
      /\ (c <> "d"%char -> c <> "h"%char -> c <> "V"%char ->
          exists s',
            parse_cmdline cfg s = Exit 1 s'
            /\ trace s' = trace s ++ [GetoptMessage (String c ""); hint (argv0 s)])).
Proof.
  split.
  - intros ops cs rest Hn Hops Ht.
    rewrite (parse_debug s
               (set_getopt (g_done s ++ [String "-" (String "d" cs)])
                           (g_skipped s ++ ops) rest cs s)).
    + reflexivity.
    + rewrite (getopt_long_at_word s ops _ rest Hn Ht Hops)
        by (cbn [classify Ascii.eqb Bool.eqb]; discriminate).
      reflexivity.
  - intros c cs Hn. pose proof (getopt_long_in_cluster s c cs Hn) as G.
    split; [|split].
    + intros ->.
      rewrite (parse_debug s (set_getopt (g_done s) (g_skipped s) (g_todo s) cs s));
        [reflexivity | rewrite G; reflexivity].
    + intros [->| ->].
      * apply (parse_help s (set_getopt (g_done s) (g_skipped s) (g_todo s) cs s));
          [rewrite G; reflexivity | reflexivity].
      * apply (parse_version s (set_getopt (g_done s) (g_skipped s) (g_todo s) cs s));
          [rewrite G; reflexivity | reflexivity].
    + intros Hd Hh HV.
      apply (parse_other s
               (set_trace (trace s ++ [GetoptMessage (String c "")])
                  (set_getopt (g_done s) (g_skipped s) (g_todo s) cs s))
               (String c ""));
        [|reflexivity|reflexivity].
      rewrite G. unfold short_option.
      rewrite in_optstring_other by assumption. reflexivity.
Qed.

Lemma split_eq_value (p v : string) :
  forallb (fun c => negb (Ascii.eqb c "=")) (list_ascii_of_string p) = true ->
  split_eq (p ++ String "=" v) = (p, true).
Proof.
  induction p as [|c p IH]; cbn [append split_eq list_ascii_of_string forallb].
  - intros _. rewrite Ascii.eqb_refl. reflexivity.
  - intro H. apply andb_true_iff in H. destruct H as [Hc Hp].
    apply negb_true_iff in Hc. rewrite Hc, (IH Hp). reflexivity.
Qed.

(** the names of the option table, all of them [no_argument], from a
    nonempty beginning *)
Lemma lookup_long_prefix (p : string) :
  p <> "" ->
  prefix p "debug" = true \/ prefix p "help" = true \/ prefix p "version" = true ->
  forallb (fun c => negb (Ascii.eqb c "=")) (list_ascii_of_string p) = true
  /\ exists o, lookup_long nslcd_options p = Some o /\ has_arg o = no_argument.
Proof.
  intros Hne [H|[H|H]]; prefixes H; try contradiction;
    (split; [reflexivity | eexists; split; [vm_compute; reflexivity | reflexivity]]).
Qed.

(** X19: no option of the table takes a value: a long option written as
    --NAME=VALUE, the name in full or shortened, is refused with
    getopt_long's message, the hint and exit status 1, and the debug
    flag is left as it was. *)
Theorem long_option_with_value_is_refused (s : state) (ops : list string)
    (p v : string) (rest : list string) :
  g_nextchar s = "" -> Forall (fun w => is_operand w = true) ops ->
  p <> "" ->
  prefix p "debug" = true \/ prefix p "help" = true \/ prefix p "version" = true ->
  g_todo s = ops ++ String "-" (String "-" (p ++ String "=" v)) :: rest ->
  exists s',
    parse_cmdline cfg s = Exit 1 s'
    /\ trace s' = trace s ++ [GetoptMessage (p ++ String "=" v); hint (argv0 s)]
    /\ nslcd_debugging s' = nslcd_debugging s.
Proof.
  intros Hn Hops Hne Hp Ht.
  destruct (lookup_long_prefix p Hne Hp) as [Hq [o [Ho Ha]]].
  assert (Hcl : classify (String "-" (String "-" (p ++ String "=" v)))
                = LongOpt (p ++ String "=" v)).
  { destruct p; [contradiction | reflexivity]. }
  assert (G : getopt_long NSLCD_OPTIONSTRING nslcd_options s
              = Ret question_mark
                  (set_trace (trace s ++ [GetoptMessage (p ++ String "=" v)])
                     (set_getopt
                        (g_done s ++ [String "-" (String "-" (p ++ String "=" v))])
                        (g_skipped s ++ ops) rest "" s))).
  { rewrite (getopt_long_at_word s ops _ rest Hn Ht Hops)
      by (rewrite Hcl; discriminate).
    unfold word_outcome. rewrite Hcl. unfold long_option.
    rewrite (split_eq_value p v Hq), Ho, Ha. reflexivity. }
  rewrite (parse_cmdline_option s _ _ G) by discriminate.
  unfold switch_on. decide_codes.
  cbv beta iota zeta delta [bind ret gets modify emit exit fprintf].
  eexists. split; [reflexivity|]. simp_state.
  rewrite <- app_assoc. split; reflexivity.
Qed.

(** X20: the word "--" ends the options.  Alone (or after options only)
    it is accepted and the program goes on; every word after it is an
    operand, even one that looks like an option, so the first word left
    is named as an unrecognized option and the program exits with
    status 1. *)
Theorem words_after_double_dash (s : state) (ops rest : list string) :
  g_nextchar s = "" -> Forall (fun w => is_operand w = true) ops ->
  g_todo s = ops ++ "--" :: rest ->
  (g_skipped s ++ ops ++ rest = [] ->
   exists s',
     parse_cmdline cfg s = Ret tt s'
     /\ trace s' = trace s /\ nslcd_debugging s' = nslcd_debugging s)
  /\ (g_skipped s ++ ops ++ rest <> [] ->
      exists s',
        parse_cmdline cfg s = Exit 1 s'
        /\ trace s' = trace s ++
             [unrecognized (argv0 s) (hd "" (g_skipped s ++ ops ++ rest));
              hint (argv0 s)]).
Proof.
  intros Hn Hops Ht.
  assert (G : getopt_long NSLCD_OPTIONSTRING nslcd_options s
              = Ret (-1) (set_getopt (g_done s ++ ["--"])
                                     (g_skipped s ++ ops ++ rest) [] "" s)).
  { unfold getopt_long. rewrite bind_gets, Hn, bind_gets, Ht.
    rewrite scan_argv_skip by assumption. cbn [scan_argv].
    change (classify "--") with Terminator. cbv beta iota.
    unfold bind, modify, ret. simp_state. rewrite <- app_assoc. reflexivity. }
  rewrite (parse_cmdline_done s _ G). unfold check_remaining.
  cbv beta iota zeta delta [bind ret gets modify emit exit fprintf].
  unfold optind, argc, argv. simp_state. rewrite !app_nil_r.
  split.
  - intro He. rewrite He, app_nil_r.
    assert (E : (1 + Z.of_nat (List.length (g_done s ++ ["--"]))
                 <? Z.of_nat (List.length (argv0 s :: g_done s ++ ["--"]))) = false)
      by (apply Z.ltb_ge; cbn [List.length]; lia).
    rewrite E. eexists. split; [reflexivity|]. split; reflexivity.
  - intro He.
    assert (E : (1 + Z.of_nat (List.length (g_done s ++ ["--"]))
                 <? Z.of_nat (List.length
                      (argv0 s :: (g_done s ++ ["--"])
                                  ++ g_skipped s ++ ops ++ rest))) = true).
    { apply Z.ltb_lt. cbn [List.length]. rewrite (length_app (g_done s ++ ["--"])).
      destruct (g_skipped s ++ ops ++ rest); [contradiction|].
      cbn [List.length]. lia. }
    rewrite E. rewrite !nth_after.
    eexists. split; [reflexivity|]. simp_state.
    rewrite <- app_assoc, ?app_nil_r. unfold unrecognized, hint. reflexivity.
Qed.

End Facts.

(* ================================================================= *)
(** ** The statements at work on the example system *)

Example drop_order_example :
  filter is_priv
    (trace (final (main_from example_build 100 1000
                     (foreground (start_ok 2 ++ one_client_then_sigterm)))))
  = [Call (c_setgroups 0) 0; Call (c_setgid 100) 0; Call (c_setuid 1000) 0].
Proof. vm_compute. reflexivity. Qed.

Lemma privilege_drop_order_witness :
  let s := foreground (start_ok 2 ++ one_client_then_sigterm) in
  let t := trace (final (main_from example_build 100 1000 s)) in
  filter is_priv (trace s) = []
  /\ preceded_by is_setgroups is_idchange t
  /\ preceded_by (setgid_done 100) is_setuid t
  /\ never_after is_setuid is_setgid t.
Proof.
  intros s t. split; [reflexivity|].
  destruct (privilege_drop_order example_build 100 1000 s eq_refl) as [H1 [H2 H3]].
  split; [apply H1; reflexivity|].
  split; [apply H2; vm_compute; discriminate | exact H3].
Defined.

Lemma exit_signal_sets_flag_for_good_witness :
  let s0 := foreground (start_ok 0 ++ repeat (ok 0) 8) in
  let s := final (startup example_build id_none id_none s0) in
  handlers_nonzero s0
  /\ startup example_build id_none id_none s0 = Ret tt s
  /\ In SIGTERM exit_signals
  /\ nslcd_exitsignal (deliver s SIGTERM) = SIGTERM
  /\ handlers_nonzero s.
Proof.
  intros s0 s.
  assert (H0 : handlers_nonzero s0) by constructor.
  assert (Hs : startup example_build id_none id_none s0 = Ret tt s)
    by (vm_compute; reflexivity).
  assert (Hin : In SIGTERM exit_signals)
    by (unfold exit_signals; simpl; auto 10).
  destruct (exit_signal_sets_flag_for_good example_build id_none id_none s0 s
              SIGTERM H0 Hs Hin) as [_ [Hd [Hnz _]]].
  destruct (Hd s eq_refl) as [_ [Hflag _]].
  exact (conj H0 (conj Hs (conj Hin (conj Hflag Hnz)))).
Defined.

Lemma accept_failure_retried_witness :
  a_ret (failed EINTR) < 0
  /\ exists s',
       acceptconnection example_build (serving_state [failed EINTR; ok 5]) = Ret tt s'
       /\ nslcd_exitsignal s' = 0
       /\ serve example_build 2 (serving_state [failed EINTR; ok 5])
          = serve example_build 1 s'.
Proof.
  split; [reflexivity|].
  destruct (accept_failure_retried example_build
              (serving_state [failed EINTR; ok 5]) (failed EINTR) [ok 5] 1%nat
              eq_refl eq_refl) as [s' [H1 [_ [H3 [_ [H5 _]]]]]].
  exists s'. split; [exact H1|]. split; [rewrite H3; reflexivity|].
  apply H5. reflexivity.
Defined.

Lemma nonblocking_cleared_before_handling_witness :
  0 <= a_ret (ok 5)
  /\ exists s3,
       acceptconnection example_build
         (serving_state [ok 5; ok 2050; ok 0; peer 10 1000 100; ok 0])
       = handleconnection example_build 5 s3
       /\ trace s3 = [Call (c_accept 3) 5; Call (c_fcntl_getfl 5) 2050;
                      Call (c_fcntl_setfl 5 2) 0].
Proof.
  split; [discriminate|].
  destruct (nonblocking_cleared_before_handling example_build
              (serving_state [ok 5; ok 2050; ok 0; peer 10 1000 100; ok 0])
              (ok 5) (ok 2050) (ok 0) (peer 10 1000 100) [ok 0] eq_refl)
    as [_ [_ [_ H]]]; [discriminate|].
  destruct H as [s3 [H1 [H2 _]]]; [discriminate | discriminate |].
  exists s3. split; [exact H1 | exact H2].
Defined.

Lemma dispatch_by_peer_credentials_witness :
  exists s',
    handleconnection example_build 5 (serving_state [peer 10 1000 100; ok 0])
    = Ret tt s'
    /\ trace s' = [Call (c_getsockopt_peercred 5) 0;
                   Log LOG_INFO "connection from pid=%d uid=%d gid=%d"
                       [AInt 10; AInt 1000; AInt 100];
                   Call (c_nslcd_server_handlerequest 5) 0].
Proof.
  destruct (dispatch_by_peer_credentials example_build 5
              (serving_state [peer 10 1000 100; ok 0])
              (peer 10 1000 100) (ok 0) [] eq_refl) as [s' [H1 [_ [_ H2]]]].
  exists s'. split; [exact H1|].
  destruct H2 as [H2 _]; [discriminate | exact H2].
Defined.

Lemma pidfile_written_or_fatal_witness :
  exists s',
    write_pidfile example_build (Some "/var/run/nslcd.pid")
      (foreground [ok 7; ok 4242; ok 0; ok 0]) = Ret tt s'
    /\ fs_read "/var/run/nslcd.pid" (files s') = Some ("4242" ++ nl)%string
    /\ read_pid ("4242" ++ nl) = Some 4242.
Proof.
  destruct (pidfile_written_or_fatal example_build "/var/run/nslcd.pid"
              (foreground [ok 7; ok 4242; ok 0; ok 0])
              (ok 7) (ok 4242) (ok 0) (ok 0) [] eq_refl) as [H _].
  destruct H as [s' [H1 [H2 H3]]];
    [discriminate | discriminate | reflexivity |].
  exists s'. split; [exact H1|]. split; [exact H2 | exact H3].
Defined.

Lemma shutdown_logs_signal_and_fails_witness :
  let s := foreground (start_ok 0 ++ one_client_then_sigterm) in
  let s' := final (main_from example_build id_none id_none s) in
  main_from example_build id_none id_none s = Ret 1 s'
  /\ nslcd_exitsignal s' = SIGTERM
  /\ (exists t, trace s' = t ++ [caught_signal SIGTERM])
  /\ rendered (caught_signal SIGTERM) = "caught signal SIGTERM (15), shutting down".
Proof.
  intros s s'.
  assert (H : main_from example_build id_none id_none s = Ret 1 s')
    by (vm_compute; reflexivity).
  destruct (shutdown_logs_signal_and_fails example_build id_none id_none s s' 1 H)
    as [_ [Ht [_ [_ [Hr _]]]]].
  split; [exact H|]. split; [reflexivity|]. split; [exact Ht | exact Hr].
Defined.

Lemma listener_closed_once_per_invocation_witness :
  exists s',
    exithandler example_build (serving_state [ok 0]) = Ret tt s'
    /\ filter is_close (trace s') = [Call (c_close 3) 0]
    /\ nslcd_serversocket s' = 3.
Proof.
  destruct (listener_closed_once_per_invocation example_build (serving_state [ok 0]))
    as [_ [H _]].
  destruct (H ltac:(discriminate) (ok 0) [] eq_refl) as [s' [H1 [H2 H3]]].
  exists s'. split; [exact H1|]. split; [exact H2 | exact H3].
Defined.

(** C9 as the specification states it fails: run twice on a valid handle,
    the exit handler calls close() twice on descriptor 3; the second call
    fails with EBADF and a warning is logged. *)
Lemma exithandler_twice_closes_twice :
  let twice := bind (exithandler example_build) (fun _ => exithandler example_build) in
  let s' := final (twice (serving_state [ok 0; failed EBADF])) in
  filter is_close (trace s') = [Call (c_close 3) 0; Call (c_close 3) (-1)]
  /\ In (Log LOG_WARNING "problem closing server socket (ignored): %s"
             [AStr (strerror example_build EBADF)]) (trace s')
  /\ trace s'
     <> trace (final (exithandler example_build (serving_state [ok 0; failed EBADF]))).
Proof.
  vm_compute. split; [reflexivity|]. split; [auto 10 | discriminate].
Qed.

Lemma command_line_options_witness :
  exists s' l,
    parse_cmdline example_build (initial_state ["nslcd"; "foo"; "--help"] [] [])
    = Exit 0 s'
    /\ trace s' = l /\ l <> []
    /\ Forall (fun e => prints_to stdout e = true) l.
Proof.
  assert (Hops : Forall (fun w => is_operand w = true) ["foo"])
    by (repeat constructor).
  destruct (command_line_options example_build
              (initial_state ["nslcd"; "foo"; "--help"] [] []) ["foo"]
              eq_refl Hops) as [H _].
  destruct (H "--help" [] eq_refl) as [_ [Hhelp _]].
  destruct Hhelp as [s' [l [H1 [H2 [H3 H4]]]]].
  - left. right. exists "help". split; [reflexivity|]. split; [discriminate | reflexivity].
  - exists s', l. split; [exact H1|]. split; [exact H2|]. split; [exact H3 | exact H4].
Defined.

(** C6 as the specification states it fails: -h, -V and the shortened
    --he are not among the options it lists, yet the program takes them:
    it prints to stdout, nothing to stderr, and exits with status 0. *)
Lemma short_and_shortened_options_are_taken :
  Forall (fun w =>
            exists s',
              parse_cmdline example_build (initial_state ["nslcd"; w] [] [])
              = Exit 0 s'
              /\ filter (prints_to stdout) (trace s') <> []
              /\ filter (prints_to stderr) (trace s') = [])
         ["-h"; "-V"; "--he"].
Proof.
  repeat constructor;
    (eexists; split; [vm_compute; reflexivity|];
     split; vm_compute; [discriminate | reflexivity]).
Qed.

(** The usage text names -f and --config=FILE, but neither the option
    string nor the option table has them: the word is refused like any
    unknown option. *)
Example config_option_is_refused :
  In (Print stdout ("  -f, --config=FILE  use FILE as configfile (default /etc/nss-ldapd.conf)" ++ nl))
     (trace (final (display_usage example_build stdout "nslcd"
                      (initial_state ["nslcd"] [] []))))
  /\ exists s',
       parse_cmdline example_build
         (initial_state ["nslcd"; "-f"; "/etc/nss-ldapd.conf"] [] [])
       = Exit 1 s'
       /\ trace s' = [GetoptMessage "f"; hint "nslcd"].
Proof.
  split; [vm_compute; auto 10|].
  eexists. split; vm_compute; reflexivity.
Qed.

(** The clean start of the specification's scenario: in the foreground,
    one client served, then SIGTERM. *)
Example clean_start_then_sigterm :
  exists s',
    run example_build (main example_build)
        (foreground (start_ok 0 ++ one_client_then_sigterm))
    = Terminated 1 s'
    /\ In (Log LOG_INFO "accepting connections" []) (trace s')
    /\ In "caught signal SIGTERM (15), shutting down" (map rendered (trace s'))
    /\ fs_read "/var/run/nslcd.pid" (files s') = Some ("4242" ++ nl)%string
    /\ world s' = [].
Proof.
  eexists. split; [vm_compute; reflexivity|].
  repeat split; vm_compute; auto 40.
Qed.

(* ----------------------------------------------------------------- *)
(** *** More of the program at work *)

Lemma install_sighandler_installs_or_fatal_witness :
  exists s',
    install_sighandler example_build SIGTERM h_sigexit_handler
      (foreground [failed EAGAIN]) = Exit 1 s'
    /\ sigactions s' = []
    /\ trace s' = [Call (c_sigaction SIGTERM h_sigexit_handler) (-1);
                   Log LOG_ERR "error installing signal handler for '%s': %s"
                       [AStr "SIGTERM"; AStr "error 11"]].
Proof.
  destruct (install_sighandler_installs_or_fatal example_build SIGTERM
              h_sigexit_handler (foreground [failed EAGAIN]) (failed EAGAIN) []
              eq_refl) as [_ H].
  destruct (H ltac:(discriminate)) as [s' [H1 [H2 H3]]].
  exists s'. split; [exact H1|]. split; [exact H2 | exact H3].
Defined.

Lemma accepted_connection_disposed_once_witness :
  let s := serving_state [ok 5; failed EBADF; ok 0] in
  let s' := final (acceptconnection example_build s) in
  acceptconnection example_build s = Ret tt s'
  /\ exists l,
       trace s' = Call (c_accept 3) 5 :: l
       /\ exists e, filter hands_off l = [e] /\ disposes 5 e = true.
Proof.
  intros s s'.
  assert (H : acceptconnection example_build s = Ret tt s')
    by (vm_compute; reflexivity).
  destruct (accepted_connection_disposed_once example_build s s' (ok 5)
              [failed EBADF; ok 0] eq_refl H) as [l [H1 [_ H3]]].
  split; [exact H|]. exists l. split; [exact H1|]. apply H3. discriminate.
Defined.

Lemma accept_loop_ends_by_signal_only_witness :
  let s := serving_state [interrupted (-1) SIGTERM] in
  (List.length (world s) < 2)%nat
  /\ ((exists s', serve example_build 2 s = Ret tt s' /\ nslcd_exitsignal s' <> 0)
      \/ (exists s', serve example_build 2 s = Blocked s' /\ world s' = []))
  /\ serve example_build 5 s = serve example_build 2 s.
Proof.
  intro s.
  assert (Hn : (List.length (world s) < 2)%nat) by (vm_compute; lia).
  assert (Hm : (List.length (world s) < 5)%nat) by (vm_compute; lia).
  destruct (accept_loop_ends_by_signal_only example_build 2 s Hn) as [H1 H2].
  exact (conj Hn (conj H1 (H2 5%nat Hm))).
Defined.


Lemma shutdown_signal_is_named_witness :
  let s := foreground (start_ok 0 ++ one_client_then_sigterm) in
  let s' := final (main_from example_build id_none id_none s) in
  main_from example_build id_none id_none s = Ret 1 s'
  /\ In (nslcd_exitsignal s') exit_signals
  /\ signame (nslcd_exitsignal s') <> "UNKNOWN".
Proof.
  intros s s'.
  assert (H : main_from example_build id_none id_none s = Ret 1 s')
    by (vm_compute; reflexivity).
  destruct (shutdown_signal_is_named example_build id_none id_none s s' 1
              eq_refl eq_refl H) as [H1 [H2 _]].
  exact (conj H (conj H1 H2)).
Defined.

Lemma foreground_or_background_witness :
  let s := initial_state ["nslcd"] [failed EAGAIN] [] in
  let s1 := final (parse_cmdline example_build s) in
  parse_cmdline example_build s = Ret tt s1
  /\ exists s',
       run example_build (main_from example_build id_none id_none) s
       = Terminated 1 s'
       /\ trace s' = [Call (c_daemon 0 0) (-1);
                      Log LOG_ERR "unable to daemonize: %s" [AStr "error 11"]].
Proof.
  intros s s1.
  assert (H : parse_cmdline example_build s = Ret tt s1)
    by (vm_compute; reflexivity).
  destruct (foreground_or_background example_build id_none id_none s s1 H)
    as [_ H2].
  destruct (H2 eq_refl (failed EAGAIN) [] eq_refl) as [_ H3].
  destruct (H3 ltac:(reflexivity)) as [s' [_ [Ht Hr]]].
  split; [exact H|]. exists s'. split; [exact (Hr eq_refl)|].
  rewrite Ht. vm_compute. reflexivity.
Defined.

Lemma no_accept_before_ready_witness :
  let s := foreground (start_ok 2 ++ one_client_then_sigterm) in
  let t := trace (final (main_from example_build 100 1000 s)) in
  filter is_accept (trace s) = []
  /\ filter is_accept t <> []
  /\ preceded_by is_server_open is_accept t
  /\ preceded_by (sigaction_done SIGTERM) is_accept t
  /\ preceded_by (setuid_done 1000) is_accept t.
Proof.
  intros s t.
  destruct (no_accept_before_ready example_build 100 1000 s eq_refl)
    as [H1 [H2 [_ H4]]].
  assert (Hin : In SIGTERM exit_signals)
    by (unfold exit_signals; simpl; auto 10).
  assert (Hne : 1000 <> id_none) by (vm_compute; discriminate).
  assert (Hacc : filter is_accept t <> []) by (vm_compute; discriminate).
  exact (conj eq_refl (conj Hacc (conj H1 (conj (H2 SIGTERM Hin) (H4 Hne))))).
Defined.

Lemma clean_shutdown_closes_listener_witness :
  let s := foreground (start_ok 0 ++ one_client_then_sigterm) in
  let s1 := final (main_from example_build id_none id_none s) in
  main_from example_build id_none id_none s = Ret 1 s1
  /\ world s1 = [ok 0]
  /\ nslcd_serversocket s1 = 3
  /\ exists s2,
       run example_build (main_from example_build id_none id_none) s
       = Terminated 1 s2
       /\ trace s2 = trace s1 ++ [Call (c_close 3) 0; bailing_out example_build].
Proof.
  intros s s1.
  assert (H : main_from example_build id_none id_none s = Ret 1 s1)
    by (vm_compute; reflexivity).
  assert (Hw : world s1 = [ok 0]) by (vm_compute; reflexivity).
  assert (Hk : nslcd_serversocket s1 = 3) by (vm_compute; reflexivity).
  destruct (clean_shutdown_closes_listener example_build id_none id_none s s1 1
              (ok 0) [] eq_refl H Hw) as [_ [_ [s2 [H1 [H2 _]]]]].
  split; [exact H|]. split; [exact Hw|]. split; [exact Hk|].
  exists s2. split; [exact H1|]. rewrite H2, Hk. reflexivity.
Defined.

Lemma pidfile_outlives_the_daemon_witness :
  let s := foreground (start_ok 0 ++ one_client_then_sigterm) in
  let s1 := final (main_from example_build id_none id_none s) in
  main_from example_build id_none id_none s = Ret 1 s1
  /\ exists p,
       In (Call c_getpid p) (trace s1)
       /\ fs_read "/var/run/nslcd.pid" (files s1)
          = Some (decimal (to_int p) ++ nl)%string.
Proof.
  intros s s1.
  assert (H : main_from example_build id_none id_none s = Ret 1 s1)
    by (vm_compute; reflexivity).
  destruct (pidfile_outlives_the_daemon example_build id_none id_none s s1 1
              "/var/run/nslcd.pid" eq_refl H) as [H1 _].
  exact (conj H H1).
Defined.

Lemma startup_order_witness :
  let s := foreground (start_ok 2 ++ one_client_then_sigterm) in
  let t := trace (final (main_from example_build 100 1000 s)) in
  filter creates (trace s) = [] /\ filter is_priv (trace s) = []
  /\ preceded_by is_umask creates t
  /\ preceded_by is_atexit creates t
  /\ preceded_by is_server_open is_priv t.
Proof.
  intros s t.
  exact (conj eq_refl
           (conj eq_refl (startup_order example_build 100 1000 s eq_refl eq_refl))).
Defined.

Lemma pidfile_failure_leaves_witness :
  let s := initial_state ["nslcd"] [ok 7; ok 4242; failed EAGAIN]
                         [("/var/run/nslcd.pid", "17")] in
  fs_read "/var/run/nslcd.pid" (files s) = Some "17"
  /\ exists s',
       write_pidfile example_build (Some "/var/run/nslcd.pid") s = Exit 1 s'
       /\ fs_read "/var/run/nslcd.pid" (files s') = Some "".
Proof.
  intro s.
  destruct (pidfile_failure_leaves example_build "/var/run/nslcd.pid" s
              (ok 7) (ok 4242) (failed EAGAIN) [] eq_refl) as [_ H].
  destruct (H ltac:(discriminate) ltac:(reflexivity)) as [s' [H1 [H2 _]]].
  split; [reflexivity|]. exists s'. exact (conj H1 H2).
Defined.

Lemma accepts_on_the_listener_witness :
  let s := foreground (start_ok 0 ++ one_client_then_sigterm) in
  let t := trace (final (main_from example_build id_none id_none s)) in
  filter is_accept (trace s) = []
  /\ In (Call (c_accept 3) 5) t
  /\ 0 <= 3 /\ In (Call c_nslcd_server_open 3) t.
Proof.
  intros s t.
  assert (Hin : In (Call (c_accept 3) 5) t)
    by (vm_compute; repeat first [left; reflexivity | right]).
  exact (conj eq_refl
           (conj Hin (accepts_on_the_listener example_build id_none id_none s 3 5
                        eq_refl Hin))).
Defined.

Lemma main_waits_for_the_system_only_witness :
  let s := foreground (start_ok 0) in
  let s' := final (main_from example_build id_none id_none s) in
  main_from example_build id_none id_none s = Blocked s' /\ world s' = [].
Proof.
  intros s s'.
  assert (H : main_from example_build id_none id_none s = Blocked s')
    by (vm_compute; reflexivity).
  exact (conj H (main_waits_for_the_system_only example_build id_none id_none
                   s s' H)).
Defined.

Lemma exit_handler_runs_once_registered_witness :
  let s := foreground [ok 7; ok 4242; ok 0; ok 0; failed EAGAIN] in
  let s2 := end_state (run example_build (main_from example_build id_none id_none) s) in
  run example_build (main_from example_build id_none id_none) s = Terminated 1 s2
  /\ In (Call (c_atexit f_exithandler) 0) (trace s2)
  /\ exists t, trace s2 = t ++ [bailing_out example_build].
Proof.
  intros s s2.
  assert (H : run example_build (main_from example_build id_none id_none) s
              = Terminated 1 s2) by (vm_compute; reflexivity).
  assert (Hin : In (Call (c_atexit f_exithandler) 0) (trace s2))
    by (vm_compute; repeat first [left; reflexivity | right]).
  destruct (exit_handler_runs_once_registered example_build id_none id_none
              s s2 1 eq_refl eq_refl H) as [H1 _].
  exact (conj H (conj Hin (H1 Hin))).
Defined.

Lemma setgroups_failure_is_ignored_witness :
  exists s',
    drop_privileges example_build id_none id_none (foreground [failed EAGAIN])
    = Ret tt s'
    /\ trace s' = [Call (c_setgroups 0) (-1);
                   Log LOG_WARNING "cannot setgroups(0,NULL) (ignored): %s"
                       [AStr "error 11"]].
Proof.
  destruct (setgroups_failure_is_ignored example_build (foreground [failed EAGAIN]))
    as [H _].
  destruct (H eq_refl (failed EAGAIN) [] eq_refl) as [s' [H1 [H2 _]]].
  exists s'. split; [exact H1 | exact H2].
Defined.

Lemma clustered_short_options_witness :
  let s := initial_state ["nslcd"; "-dV"] [] [] in
  exists s', parse_cmdline example_build s = Exit 0 s' /\ nslcd_debugging s' = 1.
Proof.
  intro s. destruct (clustered_short_options example_build s) as [H _].
  rewrite (H [] "V" [] eq_refl (Forall_nil _) eq_refl).
  eexists. split; vm_compute; reflexivity.
Defined.

Lemma long_option_with_value_is_refused_witness :
  exists s',
    parse_cmdline example_build (initial_state ["nslcd"; "--debug=1"] [] [])
    = Exit 1 s'
    /\ trace s' = [GetoptMessage "debug=1"; hint "nslcd"]
    /\ nslcd_debugging s' = 0.
Proof.
  destruct (long_option_with_value_is_refused example_build
              (initial_state ["nslcd"; "--debug=1"] [] []) [] "debug" "1" []
              eq_refl (Forall_nil _) ltac:(discriminate) (or_introl eq_refl)
              eq_refl) as [s' [H1 [H2 H3]]].
  exists s'. exact (conj H1 (conj H2 H3)).
Defined.

Lemma words_after_double_dash_witness :
  exists s',
    parse_cmdline example_build (initial_state ["nslcd"; "--"; "-d"] [] [])
    = Exit 1 s'
    /\ trace s' = [unrecognized "nslcd" "-d"; hint "nslcd"].
Proof.
  destruct (words_after_double_dash example_build
              (initial_state ["nslcd"; "--"; "-d"] [] []) [] ["-d"]
              eq_refl (Forall_nil _) eq_refl) as [_ H].
  destruct (H ltac:(discriminate)) as [s' [H1 H2]].
  exists s'. exact (conj H1 H2).
Defined.
